(** * chat-app: the peer/session controller, its crypto wrappers and the
      encrypted local history store, embedded from the JavaScript sources

    Sources embedded here:
      - src/util.js     ab2b64, b642ab
      - src/crypto.js   the ChatCrypto wrappers over the Web Crypto API
      - src/storage.js  ChatStorage.save / ChatStorage.load
      - src/peer.js     ChatPeer: init, connectToPeer, handleConnection,
                        parseSafe, notifyParticipants, handleProtocolMessage,
                        sendPlain, announceToCreator

    What the browser supplies (JSON, atob/btoa, TextEncoder, crypto.subtle,
    the random source, the clock) is gathered in the class [Platform]; the
    embedded functions are written over it.  A small executable instance,
    [Ref.platform], is used to run the model on concrete inputs. *)

From Stdlib Require Import String List ZArith Bool Lia.
From Stdlib Require Import Strings.Byte Strings.Ascii.
From stdpp Require Import base option list gmap strings.
Import ListNotations.

Open Scope string_scope.
Open Scope Z_scope.
Open Scope nat_scope.
Open Scope list_scope.

Set Warnings "-register-all".

(* ===================================================================== *)
(** ** JavaScript values *)
(* ===================================================================== *)

(** The values a wire record is made of.  Numbers are restricted to the
    integers (the protocol only carries epoch milliseconds); strings are
    sequences of 8-bit code units. *)
Inductive value : Type :=
| VUndef
| VNull
| VBool (b : bool)
| VNum (z : Z)
| VStr (s : string)
| VArr (items : list value)
| VObj (fields : list (string * value)).

(** [!v] is false for the truthy values. *)
Definition truthy (v : value) : bool :=
  match v with
  | VUndef | VNull => false
  | VBool b => b
  | VNum z => negb (Z.eqb z 0)
  | VStr s => negb (String.eqb s "")
  | VArr _ | VObj _ => true
  end.

(** [a === b], which on these values is also the key equality of a [Map]
    (SameValueZero).  Objects and arrays are compared by reference in
    JavaScript: a value taken from a freshly received record is a fresh
    object, equal to none that is already stored, hence [false]. *)
Definition strict_eq (a b : value) : bool :=
  match a, b with
  | VUndef, VUndef => true
  | VNull, VNull => true
  | VBool x, VBool y => Bool.eqb x y
  | VNum x, VNum y => Z.eqb x y
  | VStr x, VStr y => String.eqb x y
  | _, _ => false
  end.

(** [a || b] *)
Definition js_or (a b : value) : value := if truthy a then a else b.

(** Errors that the embedded code can raise. *)
Inductive error : Type :=
| TypeError                 (* property of undefined/null, not iterable, not a key *)
| SyntaxError               (* JSON.parse *)
| CryptoError               (* atob or crypto.subtle rejected *)
| Error (message : string). (* new Error(message) *)

Fixpoint assoc_lookup (fields : list (string * value)) (k : string) : value :=
  match fields with
  | [] => VUndef
  | (k', v) :: rest => if String.eqb k' k then v else assoc_lookup rest k
  end.

(** [v.k] for the property names the program reads ([type], [from],
    [payload], [username], [ts], [pubKey], [iv], [ciphertext], [peerId]):
    none of them is defined on the prototypes of primitives or arrays, so
    only an object can hold them; reading from [undefined] or [null] throws. *)
Definition get_prop (v : value) (k : string) : error + value :=
  match v with
  | VUndef | VNull => inl TypeError
  | VObj fields => inr (assoc_lookup fields k)
  | _ => inr VUndef
  end.

(** The elements visited by [for (const x of v)]: those of an array, the
    characters of a string; anything else is not iterable. *)
Fixpoint chars (s : string) : list value :=
  match s with
  | EmptyString => []
  | String c rest => VStr (String c EmptyString) :: chars rest
  end.

Definition iterate (v : value) : error + list value :=
  match v with
  | VArr items => inr items
  | VStr s => inr (chars s)
  | _ => inl TypeError
  end.

(* ===================================================================== *)
(** ** The platform *)
(* ===================================================================== *)

(** Built-ins of the browser that the sources call.  A failing call is
    [None].  The random source and the clock are tapes indexed by the number
    of draws made so far. *)
Class Platform : Type := {
  ECDHPrivateKey : Type;
  ECDHPublicKey : Type;
  AESKey : Type;
  (* JSON *)
  JSON_parse : string -> option value;
  JSON_stringify : value -> string;
  (* base64 and text encoding; atob coerces its argument itself *)
  btoa : string -> string;
  atob : value -> option string;
  text_encode : string -> list byte;
  text_decode : list byte -> string;
  (* crypto.subtle *)
  subtle_generateKey_ECDH : nat -> ECDHPrivateKey * ECDHPublicKey;
  subtle_exportKey_ECDH : ECDHPublicKey -> list byte;
  subtle_importKey_ECDH : list byte -> option ECDHPublicKey;
  subtle_deriveBits : ECDHPrivateKey -> ECDHPublicKey -> list byte;
  subtle_generateKey_AES : nat -> AESKey;
  subtle_exportKey_AES : AESKey -> option (list byte);
  subtle_importKey_AES : list byte -> option AESKey;
  subtle_encrypt : AESKey -> list byte -> list byte -> list byte;
  subtle_decrypt : AESKey -> list byte -> list byte -> option (list byte);
  (* crypto.getRandomValues(new Uint8Array(12)), Math.random-based suffix, Date.now *)
  getRandomValues12 : nat -> list byte;
  Math_random_suffix : nat -> string;
  Date_now : nat -> Z
}.

(** The byte-order mark U+FEFF as text holds it (UTF-8: EF BB BF).
    [new TextDecoder().decode] drops one at the head of its input. *)
Definition bom : string :=
  String (Ascii.ascii_of_nat 239)
    (String (Ascii.ascii_of_nat 187)
      (String (Ascii.ascii_of_nat 191) EmptyString)).

Definition starts_with_bom (s : string) : bool := String.prefix bom s.

(** What the platform guarantees about its own operations; used as a
    hypothesis where a round trip is claimed.  The decoder gives back the
    text that was encoded unless that text begins with a byte-order mark;
    JSON text and Base64 text never do. *)
Class PlatformLaws (P : Platform) : Prop := {
  atob_btoa : forall s, atob (VStr (btoa s)) = Some s;
  text_decode_encode : forall s,
    starts_with_bom s = false -> text_decode (text_encode s) = s;
  JSON_stringify_no_bom : forall v, starts_with_bom (JSON_stringify v) = false;
  btoa_no_bom : forall s, starts_with_bom (btoa s) = false;
  subtle_decrypt_encrypt : forall k iv pt,
    subtle_decrypt k iv (subtle_encrypt k iv pt) = Some pt
}.

(** localStorage: strings under string keys. *)
Abbreviation storage := (gmap string string).

(** How a call ends. *)
Inductive outcome (A : Type) : Type :=
| Returned (a : A)
| Thrown (e : error).
Arguments Returned {A} a.
Arguments Thrown {A} e.

Section Model.

Context {P : Platform}.

(* ===================================================================== *)
(** ** src/util.js *)
(* ===================================================================== *)

(** btoa(String.fromCharCode(...new Uint8Array(ab))) *)
Definition ab2b64 (ab : list byte) : string := btoa (string_of_list_byte ab).

(** Uint8Array.from(atob(b64), c => c.charCodeAt(0)).buffer *)
Definition b642ab (b64 : value) : option (list byte) :=
  option_map list_byte_of_string (atob b64).

(** randSuffix(), on the [n]th draw of the random source *)
Definition randSuffix (n : nat) : string := Math_random_suffix n.

(* ===================================================================== *)
(** ** src/crypto.js *)
(* ===================================================================== *)

Definition generateECDHKeyPair (n : nat) : ECDHPrivateKey * ECDHPublicKey :=
  subtle_generateKey_ECDH n.

Definition exportPublicKeyToBase64 (pubKey : ECDHPublicKey) : string :=
  ab2b64 (subtle_exportKey_ECDH pubKey).

Definition importPublicKeyFromBase64 (b64 : value) : option ECDHPublicKey :=
  match b642ab b64 with
  | None => None
  | Some raw => subtle_importKey_ECDH raw
  end.

(** The remote key is a property read from a connection and may be
    [undefined] ([None]), on which deriveBits rejects. *)
Definition deriveSharedAESKey (privateKey : ECDHPrivateKey)
    (remotePublicKey : option ECDHPublicKey) : option AESKey :=
  match remotePublicKey with
  | None => None
  | Some pub => subtle_importKey_AES (subtle_deriveBits privateKey pub)
  end.

Definition generateAESKey (n : nat) : AESKey := subtle_generateKey_AES n.

Definition exportAESKeyToBase64 (key : AESKey) : option string :=
  option_map ab2b64 (subtle_exportKey_AES key).

Definition importAESKeyFromBase64 (b64 : value) : option AESKey :=
  match b642ab b64 with
  | None => None
  | Some raw => subtle_importKey_AES raw
  end.

(** The object { iv, ciphertext } that encryptAESGCM resolves to. *)
Definition enc_object (iv ciphertext : string) : value :=
  VObj [("iv", VStr iv); ("ciphertext", VStr ciphertext)].

(** encryptAESGCM(key, plaintext), with the nonce of the [n]th draw *)
Definition encryptAESGCM (n : nat) (key : AESKey) (plaintext : string) : value :=
  let iv := getRandomValues12 n in
  let ct := subtle_encrypt key iv (text_encode plaintext) in
  enc_object (ab2b64 iv) (ab2b64 ct).

Definition decryptAESGCM (key : AESKey) (iv_b64 ct_b64 : value) : option string :=
  match b642ab iv_b64 with
  | None => None
  | Some iv =>
    match b642ab ct_b64 with
    | None => None
    | Some ct => option_map text_decode (subtle_decrypt key iv ct)
    end
  end.


(* ===================================================================== *)
(** ** src/peer.js: the state of the ChatPeer module *)
(* ===================================================================== *)

(** The listeners that the program attaches to a DataConnection, one
    constructor per closure of the source. *)
Inductive open_listener : Type :=
| OpenOutgoing               (* connectToPeer, conn.on('open') *)
| OpenIncoming               (* handleConnection, conn.on('open') *)
| OpenDeliver (enc : value)  (* 'announce' case, connToNew.on('open') *)
| OpenAnnounce.              (* announceToCreator, c.on('open') *)

Inductive data_listener : Type :=
| DataOutgoing               (* connectToPeer, conn.on('data') *)
| DataIncoming.              (* handleConnection, conn.on('data') *)

Inductive close_listener : Type :=
| CloseOutgoing              (* connectToPeer, conn.on('close') *)
| CloseIncoming.             (* handleConnection, conn.on('close') *)

(** A DataConnection object.  Connections live in a heap ([conns]) and are
    referred to by their index, so that the registry, the listeners and the
    caller of a handler share one object. *)
Record connection : Type := {
  conn_peer : value;                        (* conn.peer *)
  conn_open : bool;                         (* conn.open *)
  conn_settled : bool;                      (* the transport has emitted 'open' or
                                               'close' for it *)
  conn_theirPub : option ECDHPublicKey;     (* conn._theirPub *)
  conn_theirName : value;                   (* conn._theirName *)
  conn_onOpen : list open_listener;
  conn_onData : list data_listener;
  conn_onClose : list close_listener
}.

(** The object that peer.connect(theirId) returns, and the one that the
    transport hands to peer.on('connection'). *)
Definition new_connection (remote : value) : connection :=
  {| conn_peer := remote; conn_open := false; conn_settled := false;
     conn_theirPub := None;
     conn_theirName := VUndef; conn_onOpen := []; conn_onData := [];
     conn_onClose := [] |}.

Record state : Type := {
  peer : bool;                                        (* peer !== null *)
  conns : list connection;                            (* the heap *)
  connMap : list (value * nat);                       (* Map, in insertion order *)
  my_peerId : value;
  my_ecdhPair : option (ECDHPrivateKey * ECDHPublicKey);
  my_pubB64 : value;
  my_username : value;
  roomId : value;
  isCreator : bool;
  roomKey : option AESKey;
  onMessageCallback : bool;                           (* is a callback set *)
  onParticipantChange : bool;
  onError : bool;                                     (* opts.onError *)
  draws : nat;                                        (* random draws so far *)
  ticks : nat                                         (* Date.now() calls so far *)
}.

(** The module before init. *)
Definition initial_state : state :=
  {| peer := false; conns := []; connMap := []; my_peerId := VNull;
     my_ecdhPair := None; my_pubB64 := VNull; my_username := VNull;
     roomId := VNull; isCreator := false; roomKey := None;
     onMessageCallback := false; onParticipantChange := false;
     onError := false; draws := 0; ticks := 0 |}.

Definition with_conns (f : list connection -> list connection) (s : state) : state :=
  {| peer := peer s; conns := f (conns s); connMap := connMap s;
     my_peerId := my_peerId s; my_ecdhPair := my_ecdhPair s;
     my_pubB64 := my_pubB64 s; my_username := my_username s;
     roomId := roomId s; isCreator := isCreator s; roomKey := roomKey s;
     onMessageCallback := onMessageCallback s;
     onParticipantChange := onParticipantChange s; onError := onError s;
     draws := draws s; ticks := ticks s |}.

Definition with_connMap (f : list (value * nat) -> list (value * nat)) (s : state) : state :=
  {| peer := peer s; conns := conns s; connMap := f (connMap s);
     my_peerId := my_peerId s; my_ecdhPair := my_ecdhPair s;
     my_pubB64 := my_pubB64 s; my_username := my_username s;
     roomId := roomId s; isCreator := isCreator s; roomKey := roomKey s;
     onMessageCallback := onMessageCallback s;
     onParticipantChange := onParticipantChange s; onError := onError s;
     draws := draws s; ticks := ticks s |}.

Definition with_roomKey (k : option AESKey) (s : state) : state :=
  {| peer := peer s; conns := conns s; connMap := connMap s;
     my_peerId := my_peerId s; my_ecdhPair := my_ecdhPair s;
     my_pubB64 := my_pubB64 s; my_username := my_username s;
     roomId := roomId s; isCreator := isCreator s; roomKey := k;
     onMessageCallback := onMessageCallback s;
     onParticipantChange := onParticipantChange s; onError := onError s;
     draws := draws s; ticks := ticks s |}.

Definition with_draws (n : nat) (s : state) : state :=
  {| peer := peer s; conns := conns s; connMap := connMap s;
     my_peerId := my_peerId s; my_ecdhPair := my_ecdhPair s;
     my_pubB64 := my_pubB64 s; my_username := my_username s;
     roomId := roomId s; isCreator := isCreator s; roomKey := roomKey s;
     onMessageCallback := onMessageCallback s;
     onParticipantChange := onParticipantChange s; onError := onError s;
     draws := n; ticks := ticks s |}.

Definition with_ticks (n : nat) (s : state) : state :=
  {| peer := peer s; conns := conns s; connMap := connMap s;
     my_peerId := my_peerId s; my_ecdhPair := my_ecdhPair s;
     my_pubB64 := my_pubB64 s; my_username := my_username s;
     roomId := roomId s; isCreator := isCreator s; roomKey := roomKey s;
     onMessageCallback := onMessageCallback s;
     onParticipantChange := onParticipantChange s; onError := onError s;
     draws := draws s; ticks := n |}.

(** *** The Map of the Connection Registry *)

Fixpoint map_get (m : list (value * nat)) (k : value) : option nat :=
  match m with
  | [] => None
  | (k', c) :: rest => if strict_eq k' k then Some c else map_get rest k
  end.

Definition map_has (m : list (value * nat)) (k : value) : bool :=
  match map_get m k with Some _ => true | None => false end.

(** Map.prototype.set: an existing key keeps its place, a new one goes last. *)
Fixpoint map_set (m : list (value * nat)) (k : value) (c : nat) : list (value * nat) :=
  match m with
  | [] => [(k, c)]
  | (k', c') :: rest =>
    if strict_eq k' k then (k', c) :: rest else (k', c') :: map_set rest k c
  end.

Fixpoint map_delete (m : list (value * nat)) (k : value) : list (value * nat) :=
  match m with
  | [] => []
  | (k', c') :: rest =>
    if strict_eq k' k then rest else (k', c') :: map_delete rest k
  end.

(** Array.from(connMap.keys()) *)
Definition map_keys (m : list (value * nat)) : list value := map fst m.

(** *** What a handler does to the outside *)

Inductive console_level : Type := ConsoleLog | ConsoleWarn | ConsoleError.

Inductive effect : Type :=
| Console (level : console_level) (text : string)
| PeerConnect (theirId : value)                (* peer.connect(theirId, ...) *)
| ConnSend (c : nat) (data : string)           (* conn.send(data) *)
| CallOnMessage (m : value)                    (* onMessageCallback(m) *)
| CallOnParticipants (ids : list value)        (* onParticipantChange(ids) *)
| CallOnError                                  (* opts.onError(err) *)
| UnhandledRejection (e : error).              (* a rejected promise nobody awaits *)

(** A computation reads and writes the module state, emits effects and
    either returns or throws; what was done before a throw stays done.  A
    handler runs to completion: the peer is a single actor that takes its
    events one at a time, so an [await] inside a handler is a point where it
    may fail, not a point where another handler comes in. *)
Definition M (A : Type) : Type := state -> outcome A * state * list effect.

Definition ret {A} (a : A) : M A := fun s => (Returned a, s, []).

Definition bind {A B} (m : M A) (k : A -> M B) : M B :=
  fun s =>
    match m s with
    | (Returned a, s1, out1) =>
      match k a s1 with
      | (r, s2, out2) => (r, s2, out1 ++ out2)
      end
    | (Thrown e, s1, out1) => (Thrown e, s1, out1)
    end.

Definition throw {A} (e : error) : M A := fun s => (Thrown e, s, []).

(** try { m } catch (err) { h } *)
Definition try_catch {A} (m : M A) (h : error -> M A) : M A :=
  fun s =>
    match m s with
    | (Returned a, s1, out1) => (Returned a, s1, out1)
    | (Thrown e, s1, out1) =>
      match h e s1 with
      | (r, s2, out2) => (r, s2, out1 ++ out2)
      end
    end.

Definition gets {A} (f : state -> A) : M A := fun s => (Returned (f s), s, []).
Definition modify (f : state -> state) : M unit := fun s => (Returned tt, f s, []).
Definition emit (e : effect) : M unit := fun s => (Returned tt, s, [e]).

Notation "'let!' x ':=' m 'in' k" := (bind m (fun x => k))
  (at level 10, x name, m at level 100, k at level 200).

(** Lift a fallible pure step: a property read, a platform call. *)
Definition lift_sum {A} (r : error + A) : M A :=
  match r with inl e => throw e | inr a => ret a end.

(** await of a crypto wrapper: a rejection is thrown at the await. *)
Definition await {A} (r : option A) : M A :=
  match r with None => throw CryptoError | Some a => ret a end.

Definition prop (v : value) (k : string) : M value := lift_sum (get_prop v k).

Definition console_log (text : string) : M unit := emit (Console ConsoleLog text).
Definition console_warn (text : string) : M unit := emit (Console ConsoleWarn text).
Definition console_error (text : string) : M unit := emit (Console ConsoleError text).

(** conn.send(JSON.stringify(obj)) *)
Definition send_json (c : nat) (obj : value) : M unit :=
  emit (ConnSend c (JSON_stringify obj)).

(** Reading and writing the connection object behind a reference. *)
Definition conn_of (s : state) (c : nat) : connection :=
  default (new_connection VUndef) (conns s !! c).

Definition update_conn (c : nat) (f : connection -> connection) : M unit :=
  modify (with_conns (alter f c)).

Definition set_theirPub (k : ECDHPublicKey) (x : connection) : connection :=
  {| conn_peer := conn_peer x; conn_open := conn_open x;
     conn_settled := conn_settled x;
     conn_theirPub := Some k; conn_theirName := conn_theirName x;
     conn_onOpen := conn_onOpen x; conn_onData := conn_onData x;
     conn_onClose := conn_onClose x |}.

Definition set_theirName (n : value) (x : connection) : connection :=
  {| conn_peer := conn_peer x; conn_open := conn_open x;
     conn_settled := conn_settled x;
     conn_theirPub := conn_theirPub x; conn_theirName := n;
     conn_onOpen := conn_onOpen x; conn_onData := conn_onData x;
     conn_onClose := conn_onClose x |}.

(** What the transport writes before it emits 'open' or 'close'. *)
Definition set_open (b : bool) (x : connection) : connection :=
  {| conn_peer := conn_peer x; conn_open := b; conn_settled := true;
     conn_theirPub := conn_theirPub x; conn_theirName := conn_theirName x;
     conn_onOpen := conn_onOpen x; conn_onData := conn_onData x;
     conn_onClose := conn_onClose x |}.

(** conn.on('open', h): listeners run in the order they were added. *)
Definition add_onOpen (h : open_listener) (x : connection) : connection :=
  {| conn_peer := conn_peer x; conn_open := conn_open x;
     conn_settled := conn_settled x;
     conn_theirPub := conn_theirPub x; conn_theirName := conn_theirName x;
     conn_onOpen := conn_onOpen x ++ [h]; conn_onData := conn_onData x;
     conn_onClose := conn_onClose x |}.

Definition add_onData (h : data_listener) (x : connection) : connection :=
  {| conn_peer := conn_peer x; conn_open := conn_open x;
     conn_settled := conn_settled x;
     conn_theirPub := conn_theirPub x; conn_theirName := conn_theirName x;
     conn_onOpen := conn_onOpen x; conn_onData := conn_onData x ++ [h];
     conn_onClose := conn_onClose x |}.

Definition add_onClose (h : close_listener) (x : connection) : connection :=
  {| conn_peer := conn_peer x; conn_open := conn_open x;
     conn_settled := conn_settled x;
     conn_theirPub := conn_theirPub x; conn_theirName := conn_theirName x;
     conn_onOpen := conn_onOpen x; conn_onData := conn_onData x;
     conn_onClose := conn_onClose x ++ [h] |}.

(** A new object on the heap; its reference is the next free index. *)
Definition alloc_conn (x : connection) : M nat :=
  fun s => (Returned (length (conns s)), with_conns (fun h => h ++ [x]) s, []).

(** One draw of the random source, one reading of the clock. *)
Definition draw : M nat :=
  fun s => (Returned (draws s), with_draws (S (draws s)) s, []).

Definition now : M value :=
  fun s => (Returned (VNum (Date_now (ticks s))), with_ticks (S (ticks s)) s, []).

(* ===================================================================== *)
(** ** src/peer.js: the functions *)
(* ===================================================================== *)

Fixpoint for_each {A} (l : list A) (body : A -> M unit) : M unit :=
  match l with
  | [] => ret tt
  | x :: rest => let! _ := body x in for_each rest body
  end.

(** The records that the peer puts on the wire. *)
Definition publicKey_record (s : state) : value :=
  VObj [("type", VStr "publicKey"); ("from", my_peerId s);
        ("payload", my_pubB64 s); ("username", my_username s)].

Definition announce_record (s : state) : value :=
  VObj [("type", VStr "announce"); ("from", my_peerId s);
        ("payload", VObj [("pubKey", my_pubB64 s)])].

Definition roomKey_record (s : state) (enc : value) : value :=
  VObj [("type", VStr "roomKey"); ("from", my_peerId s); ("payload", enc)].

Definition peerList_record (s : state) : value :=
  VObj [("type", VStr "peerList"); ("from", my_peerId s);
        ("payload", VArr (map_keys (connMap s) ++ [my_peerId s]))].

Definition newPeer_record (s : state) (theirId : value) : value :=
  VObj [("type", VStr "newPeer"); ("from", my_peerId s);
        ("payload", VObj [("peerId", theirId)])].

Definition msg_record (s : state) (ts enc : value) : value :=
  VObj [("type", VStr "msg"); ("from", my_peerId s); ("ts", ts); ("payload", enc)].

(** The object handed to onMessageCallback. *)
Definition delivered (from ts payload : value) : value :=
  VObj [("from", from); ("ts", ts); ("payload", payload)].

(** notifyParticipants() *)
Definition notifyParticipants : M unit :=
  let! cb := gets onParticipantChange in
  if cb then
    let! s := gets id in
    emit (CallOnParticipants (map_keys (connMap s) ++ [my_peerId s]))
  else ret tt.

(** The connection that connectToPeer makes, with its three listeners. *)
Definition outgoing_connection (theirId : value) : connection :=
  add_onClose CloseOutgoing
    (add_onData DataOutgoing
      (add_onOpen OpenOutgoing (new_connection theirId))).

(** connectToPeer(theirId).  [connMap.has] followed by [connMap.get] is one
    lookup here. *)
Definition connectToPeer (theirId : value) : M nat :=
  let! p := gets peer in
  if negb p then throw (Error "Peer not initialized") else
  let! m := gets connMap in
  match map_get m theirId with
  | Some c => ret c
  | None =>
    let! _ := emit (PeerConnect theirId) in
    let! conn := alloc_conn (outgoing_connection theirId) in
    let! _ := modify (with_connMap (fun m => map_set m theirId conn)) in
    let! _ := notifyParticipants in
    ret conn
  end.

(** handleConnection(conn) *)
Definition handleConnection (conn : nat) : M unit :=
  update_conn conn
    (fun x => add_onClose CloseIncoming
                (add_onData DataIncoming (add_onOpen OpenIncoming x))).

(** What the transport delivers to a 'data' listener: an object, an array,
    or anything else, given as the text that JSON.parse turns it into. *)
Inductive raw_data : Type :=
| RawObj (fields : list (string * value))
| RawArr (items : list value)
| RawText (text : string).

(** parseSafe(raw) *)
Definition parseSafe (raw : raw_data) : M value :=
  match raw with
  | RawObj fields => ret (VObj fields)
  | RawArr items => ret (VArr items)
  | RawText text =>
    match JSON_parse text with
    | Some v => ret v
    | None => let! _ := console_warn "parseSafe failed" in ret VNull
    end
  end.

(** [case name:] of the switch on msg.type *)
Definition is_case (ty : value) (name : string) : bool := strict_eq ty (VStr name).

(** my.ecdhPair.privateKey *)
Definition my_privateKey : M ECDHPrivateKey :=
  let! pair := gets my_ecdhPair in
  match pair with
  | None => throw TypeError
  | Some (priv, _) => ret priv
  end.

Definition case_publicKey (conn : nat) (msg : value) : M unit :=
  let! payload := prop msg "payload" in
  let! theirPub := await (importPublicKeyFromBase64 payload) in
  let! _ := update_conn conn (set_theirPub theirPub) in
  let! username := prop msg "username" in
  let! from := prop msg "from" in
  update_conn conn (set_theirName (js_or username from)).

Definition case_announce (conn : nat) (msg : value) : M unit :=
  let! creator := gets isCreator in
  if negb creator then ret tt else
  let! theirId := prop msg "from" in
  let! payload := prop msg "payload" in
  let! theirPubB64 := prop payload "pubKey" in
  let! theirPub := await (importPublicKeyFromBase64 theirPubB64) in
  let! m := gets connMap in
  let! connToNew :=
    match map_get m theirId with
    | Some c => ret c
    | None =>
      let! c := connectToPeer theirId in
      let! _ := update_conn c (set_theirPub theirPub) in
      ret c
    end in
  let! priv := my_privateKey in
  let! derived := await (deriveSharedAESKey priv (Some theirPub)) in
  let! rk := gets roomKey in
  let! roomRaw := await (match rk with
                         | None => None
                         | Some k => exportAESKeyToBase64 k
                         end) in
  let! n := draw in
  let enc := encryptAESGCM n derived roomRaw in
  let! _ := update_conn connToNew (add_onOpen (OpenDeliver enc)) in
  let! s := gets id in
  for_each (connMap s) (fun entry =>
    if strict_eq (fst entry) theirId then ret tt
    else if conn_open (conn_of s (snd entry))
         then send_json (snd entry) (newPeer_record s theirId)
         else ret tt).

Definition case_roomKey (conn : nat) (msg : value) : M unit :=
  try_catch
    (let! s := gets id in
     let theirPub := conn_theirPub (conn_of s conn) in
     let! priv := my_privateKey in
     let! shared := await (deriveSharedAESKey priv theirPub) in
     let! payload := prop msg "payload" in
     let! iv := prop payload "iv" in
     let! ciphertext := prop payload "ciphertext" in
     let! roomRawB64 := await (decryptAESGCM shared iv ciphertext) in
     let! k := await (importAESKeyFromBase64 (VStr roomRawB64)) in
     let! _ := modify (with_roomKey (Some k)) in
     console_log "Received roomKey and imported (joiner).")
    (fun _ => console_error "Failed roomKey handling").

Definition case_peerList (conn : nat) (msg : value) : M unit :=
  let! payload := prop msg "payload" in
  let! list := lift_sum (iterate (js_or payload (VArr []))) in
  for_each list (fun pid =>
    let! s := gets id in
    if strict_eq pid (my_peerId s) || map_has (connMap s) pid then ret tt
    else let! _ := connectToPeer pid in ret tt).

Definition case_newPeer (conn : nat) (msg : value) : M unit :=
  let! payload := prop msg "payload" in
  let! newPid := prop payload "peerId" in
  let! s := gets id in
  if negb (map_has (connMap s) newPid) && negb (strict_eq newPid (my_peerId s))
  then let! _ := connectToPeer newPid in ret tt
  else ret tt.

Definition case_announceRequest (conn : nat) (msg : value) : M unit :=
  let! s := gets id in
  if negb (isCreator s) then send_json conn (announce_record s) else ret tt.

Definition case_msg (conn : nat) (msg : value) : M unit :=
  let! payload := prop msg "payload" in
  let! rk := gets roomKey in
  match rk with
  | None => console_warn "Received msg but no roomKey yet"
  | Some k =>
    try_catch
      (let! iv := prop payload "iv" in
       let! ciphertext := prop payload "ciphertext" in
       let! plaintext := await (decryptAESGCM k iv ciphertext) in
       let! obj := match JSON_parse plaintext with
                   | Some v => ret v
                   | None => throw SyntaxError
                   end in
       let! cb := gets onMessageCallback in
       if cb then
         let! from := prop msg "from" in
         let! ts := prop msg "ts" in
         let! ts' := (if truthy ts then ret ts else now) in
         emit (CallOnMessage (delivered from ts' obj))
       else ret tt)
      (fun _ => console_warn "decrypt message failed")
  end.

(** handleProtocolMessage(conn, msg) *)
Definition handleProtocolMessage (conn : nat) (msg : value) : M unit :=
  let! ty := prop msg "type" in
  if is_case ty "publicKey" then case_publicKey conn msg
  else if is_case ty "announce" then case_announce conn msg
  else if is_case ty "roomKey" then case_roomKey conn msg
  else if is_case ty "peerList" then case_peerList conn msg
  else if is_case ty "newPeer" then case_newPeer conn msg
  else if is_case ty "announceRequest" then case_announceRequest conn msg
  else if is_case ty "msg" then case_msg conn msg
  else ret tt.

(** sendPlain(obj) *)
Definition sendPlain (obj : value) : M unit :=
  let! rk := gets roomKey in
  match rk with
  | None => throw (Error "No roomKey available")
  | Some k =>
    let pt := JSON_stringify obj in
    let! n := draw in
    let enc := encryptAESGCM n k pt in
    let! ts := now in
    let! s := gets id in
    let envelope := msg_record s ts enc in
    let! _ := for_each (connMap s) (fun entry =>
      if conn_open (conn_of s (snd entry))
      then send_json (snd entry) envelope
      else ret tt) in
    let! cb := gets onMessageCallback in
    if cb then
      let! ts2 := now in
      emit (CallOnMessage (delivered (my_peerId s) ts2 obj))
    else ret tt
  end.

(** announceToCreator() *)
Definition announceToCreator : M unit :=
  let! s := gets id in
  let creatorId := roomId s in
  match map_get (connMap s) creatorId with
  | Some conn =>
    if conn_open (conn_of s conn) then send_json conn (announce_record s)
    else
      let! c := connectToPeer creatorId in
      update_conn c (add_onOpen OpenAnnounce)
  | None =>
    let! c := connectToPeer creatorId in
    update_conn c (add_onOpen OpenAnnounce)
  end.

(** *** init(opts) and the listeners it installs on the Peer *)

Record init_opts : Type := {
  opt_roomId : string;
  opt_role : string;
  opt_username : string;
  opt_onMessage : bool;        (* is opts.onMessage given *)
  opt_onParticipants : bool;
  opt_onError : bool
}.

(** init(opts), up to and including [new Peer(pid, ...)].  The module keeps
    its registry, its connections and its room key across the call. *)
Definition init (opts : init_opts) : M unit :=
  let! n := draw in
  let pair := generateECDHKeyPair n in
  let creator := String.eqb (opt_role opts) "create" in
  let! pid :=
    (if creator then ret (opt_roomId opts)
     else let! n' := draw in
          ret (opt_roomId opts ++ ":" ++ randSuffix n')%string) in
  let! _ := modify (fun s =>
    {| peer := true; conns := conns s; connMap := connMap s;
       my_peerId := VStr pid;
       my_ecdhPair := Some pair;
       my_pubB64 := VStr (exportPublicKeyToBase64 (snd pair));
       my_username := js_or (VStr (opt_username opts)) (VStr "Anon");
       roomId := VStr (opt_roomId opts);
       isCreator := creator;
       roomKey := roomKey s;
       onMessageCallback := opt_onMessage opts;
       onParticipantChange := opt_onParticipants opts;
       onError := opt_onError opts;
       draws := draws s; ticks := ticks s |}) in
  console_log "new Peer".

(** peer.on('open', ...) *)
Definition on_peer_open : M unit :=
  let! _ := console_log "peer open" in
  let! creator := gets isCreator in
  if creator then
    let! _ := console_log "isCreator" in
    let! n := draw in
    let! _ := modify (with_roomKey (Some (generateAESKey n))) in
    console_log "Generated roomKey (creator)"
  else
    let! _ := console_log "joiner" in
    let! r := gets roomId in
    let! _ := connectToPeer r in
    ret tt.

(** peer.on('connection', ...): the transport has made a DataConnection for
    a channel that the peer [remote] opened. *)
Definition on_peer_connection (remote : string) : M unit :=
  let! conn := alloc_conn (new_connection (VStr remote)) in
  let! _ := console_log "connection" in
  let! creator := gets isCreator in
  if creator then handleConnection conn else ret tt.

(** peer.on('error', ...) *)
Definition on_peer_error : M unit :=
  let! _ := console_error "Peer error" in
  let! cb := gets onError in
  if cb then emit CallOnError else ret tt.

(** *** The listeners of a DataConnection *)

Definition run_open_listener (conn : nat) (h : open_listener) : M unit :=
  match h with
  | OpenOutgoing =>
    let! _ := console_log "outgoing open" in
    let! s := gets id in
    send_json conn (publicKey_record s)
  | OpenIncoming =>
    let! _ := console_log "incoming connection open from" in
    let! s := gets id in
    let! _ := send_json conn (publicKey_record s) in
    let! _ := modify (with_connMap (fun m =>
                map_set m (conn_peer (conn_of s conn)) conn)) in
    notifyParticipants
  | OpenDeliver enc =>
    let! s := gets id in
    let! _ := send_json conn (roomKey_record s enc) in
    send_json conn (peerList_record s)
  | OpenAnnounce =>
    let! s := gets id in
    send_json conn (announce_record s)
  end.

(** An async function called without await: the caller goes on, a throw
    inside becomes a rejected promise. *)
Definition spawn (m : M unit) : M unit :=
  try_catch m (fun e => emit (UnhandledRejection e)).

(** Both 'data' listeners have the same body. *)
Definition run_data_listener (conn : nat) (raw : raw_data) (h : data_listener) : M unit :=
  let! msg := parseSafe raw in
  if truthy msg then spawn (handleProtocolMessage conn msg) else ret tt.

Definition run_close_listener (conn : nat) (h : close_listener) : M unit :=
  let! _ := console_log (match h with
                         | CloseOutgoing => "connection closed"
                         | CloseIncoming => "incoming conn closed"
                         end) in
  let! s := gets id in
  let! _ := modify (with_connMap (fun m =>
              map_delete m (conn_peer (conn_of s conn)))) in
  notifyParticipants.

(** *** Everything that can happen to a peer *)

Inductive event : Type :=
| PeerOpen
| PeerConnection (remote : string)
| PeerError
| ConnOpen (c : nat)
| ConnData (c : nat) (raw : raw_data)
| ConnClose (c : nat)
| CallSendPlain (obj : value)
| CallAnnounceToCreator.

(** One event, run to completion; the transport marks the connection open
    (closed) before it emits 'open' ('close').  It emits 'open' once, when
    the data channel opens: a connection that is open, or that has closed,
    gets no 'open', so that a listener added to it then is never called. *)
Definition handle (ev : event) : M unit :=
  match ev with
  | PeerOpen => on_peer_open
  | PeerConnection remote => on_peer_connection remote
  | PeerError => on_peer_error
  | ConnOpen c =>
    let! s0 := gets id in
    if conn_settled (conn_of s0 c) then ret tt else
    let! _ := update_conn c (set_open true) in
    let! s := gets id in
    for_each (conn_onOpen (conn_of s c)) (run_open_listener c)
  | ConnData c raw =>
    let! s := gets id in
    for_each (conn_onData (conn_of s c)) (run_data_listener c raw)
  | ConnClose c =>
    let! _ := update_conn c (set_open false) in
    let! s := gets id in
    for_each (conn_onClose (conn_of s c)) (run_close_listener c)
  | CallSendPlain obj => sendPlain obj
  | CallAnnounceToCreator => announceToCreator
  end.

(** A run of events; an event that throws (a rejected sendPlain, a throwing
    announceToCreator) is reported to its caller and the peer goes on. *)
Fixpoint run (evs : list event) (s : state) : state * list effect :=
  match evs with
  | [] => (s, [])
  | ev :: rest =>
    match handle ev s with
    | (_, s1, out1) =>
      match run rest s1 with
      | (s2, out2) => (s2, out1 ++ out2)
      end
    end
  end.

(** The states a session goes through: init, then any events. *)
Definition session_start (opts : init_opts) : state :=
  snd (fst (init opts initial_state)).

Definition reachable (opts : init_opts) (s : state) : Prop :=
  exists evs, fst (run evs (session_start opts)) = s.

(* ===================================================================== *)
(** ** src/storage.js *)
(* ===================================================================== *)

Definition storage_key (room : string) : string := ("chat:" ++ room)%string.

(** save(roomId, messages, userKey), with the nonce of the [n]th draw *)
Definition save (n : nat) (room : string) (messages : value) (userKey : AESKey)
    (ls : storage) : storage :=
  let plaintext := JSON_stringify messages in
  let encObj := encryptAESGCM n userKey plaintext in
  <[storage_key room := JSON_stringify encObj]> ls.

Definition decrypt_failed : error :=
  Error "Unable to decrypt local chat — wrong local key or corrupted data".

(** load(roomId, userKey) *)
Definition load (room : string) (userKey : AESKey) (ls : storage) : error + value :=
  match ls !! storage_key room with
  | None => inr (VArr [])
  | Some raw =>
    if negb (truthy (VStr raw)) then inr (VArr [])
    else
      match JSON_parse raw with
      | None => inl decrypt_failed
      | Some obj =>
        match get_prop obj "iv", get_prop obj "ciphertext" with
        | inr iv, inr ciphertext =>
          match decryptAESGCM userKey iv ciphertext with
          | None => inl decrypt_failed
          | Some plaintext =>
            match JSON_parse plaintext with
            | None => inl decrypt_failed
            | Some v => inr v
            end
          end
        | _, _ => inl decrypt_failed
        end
      end
  end.

End Model.

(* ===================================================================== *)
(** ** Notions used in the statements *)
(* ===================================================================== *)

Section Notions.

Context {P : Platform}.

(** The state and the effects that a computation leaves behind. *)
Definition post {A} (m : M A) (s : state) : state := snd (fst (m s)).
Definition effects {A} (m : M A) (s : state) : list effect := snd (m s).
Definition result {A} (m : M A) (s : state) : outcome A := fst (fst (m s)).

(** Effects that came first, put before those of the rest. *)
Definition prepend {A} (out : list effect) (x : outcome A * state * list effect)
    : outcome A * state * list effect :=
  (fst (fst x), snd (fst x), out ++ snd x).

(** The [case] labels of the switch in handleProtocolMessage. *)
Definition recognized_types : list string :=
  ["publicKey"; "announce"; "roomKey"; "peerList"; "newPeer"; "announceRequest"; "msg"].

(** The diagnostics of parseSafe and of the 'msg' case without a room key. *)
Definition parse_diagnostic : effect := Console ConsoleWarn "parseSafe failed".
Definition no_roomKey_diagnostic : effect :=
  Console ConsoleWarn "Received msg but no roomKey yet".

(** The timestamp given to the observer: that of the envelope, or the
    clock's when the envelope carries none. *)
Definition delivery_ts (ts : value) (s : state) : value :=
  if truthy ts then ts else VNum (Date_now (ticks s)).

Definition after_delivery (ts : value) (s : state) : state :=
  if truthy ts then s else with_ticks (S (ticks s)) s.

(** sendPlain: the entries of the registry whose connection is open, the
    envelope, the loopback and the state afterwards. *)
Definition open_entries (s : state) : list (value * nat) :=
  filter (fun e => conn_open (conn_of s (snd e)) = true) (connMap s).

Definition envelope_of (s : state) (k : AESKey) (obj : value) : value :=
  msg_record s (VNum (Date_now (ticks s)))
    (encryptAESGCM (draws s) k (JSON_stringify obj)).

Definition loopback (s : state) (obj : value) : list effect :=
  if onMessageCallback s
  then [CallOnMessage (delivered (my_peerId s) (VNum (Date_now (S (ticks s)))) obj)]
  else [].

Definition after_send (s : state) : state :=
  with_ticks (if onMessageCallback s then S (S (ticks s)) else S (ticks s))
    (with_draws (S (draws s)) s).

Definition no_roomKey : error := Error "No roomKey available".

(** The 'announce' case: the entries of the registry that get a
    PeerIntroduction, those with an open connection other than the
    newcomer's. *)
Definition introduced_to (s : state) (theirId : value) : list (value * nat) :=
  filter (fun e => negb (strict_eq (fst e) theirId)
                   && conn_open (conn_of s (snd e)) = true) (connMap s).

(** [ensures m s Q]: however [m] ends from [s], its outcome, final state
    and effects satisfy [Q]. *)
Definition ensures {A} (m : M A) (s : state)
    (Q : outcome A -> state -> list effect -> Prop) : Prop :=
  forall r s' out, m s = (r, s', out) -> Q r s' out.

(** The registry refers to objects of the heap. *)
Definition registry_wf (s : state) : Prop :=
  forall k c, In (k, c) (connMap s) -> c < length (conns s).

(** What notifyParticipants shows in a state. *)
Definition participants_notice (s : state) : list effect :=
  if onParticipantChange s
  then [CallOnParticipants (map_keys (connMap s) ++ [my_peerId s])]
  else [].

(** The state after connectToPeer has made a connection to [theirId]. *)
Definition connected (theirId : value) (s : state) : state :=
  with_connMap (fun m => map_set m theirId (length (conns s)))
    (with_conns (fun h => h ++ [outgoing_connection theirId]) s).

(** A stored blob authenticates under a key when it parses into
    { iv, ciphertext } and decryptAESGCM accepts these under the key. *)
Definition authenticates (k : AESKey) (raw : string) : Prop :=
  exists obj iv ct pt,
    JSON_parse raw = Some obj
    /\ get_prop obj "iv" = inr iv
    /\ get_prop obj "ciphertext" = inr ct
    /\ decryptAESGCM k iv ct = Some pt.

(** A value that JSON.stringify and JSON.parse give back as it was. *)
Definition json_roundtrips (v : value) : Prop :=
  JSON_parse (JSON_stringify v) = Some v.

(** [keeps_keys s s']: the heap has not shrunk and every connection of [s]
    has in [s'] the remote public key it had. *)
Definition keeps_keys (s s' : state) : Prop :=
  length (conns s) <= length (conns s')
  /\ forall c, c < length (conns s) ->
       conn_theirPub (conn_of s' c) = conn_theirPub (conn_of s c).

(** The connection that handleConnection has put its listeners on. *)
Definition incoming_connection (remote : string) : connection :=
  add_onClose CloseIncoming
    (add_onData DataIncoming
      (add_onOpen OpenIncoming (new_connection (VStr remote)))).

(** The 'announce' case from the derivation of the key on. *)
Definition announce_tail (theirId : value) (theirPub : ECDHPublicKey) (connToNew : nat)
    : M unit :=
  bind my_privateKey (fun priv =>
  bind (await (deriveSharedAESKey priv (Some theirPub))) (fun derived =>
  bind (gets roomKey) (fun rk =>
  bind (await (match rk with
               | Some k => exportAESKeyToBase64 k
               | None => None
               end)) (fun roomRaw =>
  bind draw (fun n =>
  bind (update_conn connToNew
          (add_onOpen (OpenDeliver (encryptAESGCM n derived roomRaw)))) (fun _ =>
  bind (gets id) (fun s =>
    for_each (connMap s) (fun entry =>
      if strict_eq (fst entry) theirId then ret tt
      else if conn_open (conn_of s (snd entry))
           then send_json (snd entry) (newPeer_record s theirId)
           else ret tt)))))))).

(** The registry has no entry under the peer's own id. *)
Definition no_self_entry (s : state) : Prop :=
  map_get (connMap s) (my_peerId s) = None.

End Notions.

(* ===================================================================== *)
(** ** More of the sources *)
(* ===================================================================== *)

(** *** src/util.js: generateRoomId *)

(** One hexadecimal digit, lower case, as Number.prototype.toString(16)
    writes it. *)
Definition hex_digit_char (n : N) : ascii :=
  Ascii.ascii_of_N (if N.ltb n 10 then 48 + n else 87 + n).

(** b.toString(16) for a byte b *)
Definition toString16 (b : byte) : string :=
  let n := Byte.to_N b in
  if N.ltb n 16 then String (hex_digit_char n) EmptyString
  else String (hex_digit_char (N.div n 16))
              (String (hex_digit_char (N.modulo n 16)) EmptyString).

(** s.padStart(2, '0') *)
Definition padStart2 (s : string) : string :=
  match String.length s with
  | 0 => "00"
  | 1 => String "0" s
  | _ => s
  end.

(** generateRoomId(), as a function of the sixteen bytes that
    crypto.getRandomValues has filled in:
    Array.from(bytes, b => b.toString(16).padStart(2, '0')).join('') *)
Definition generateRoomId_of (bytes : list byte) : string :=
  String.concat "" (map (fun b => padStart2 (toString16 b)) bytes).

(** The value of a hexadecimal digit, to read an id back. *)
Definition hex_digit_value (c : ascii) : option N :=
  let n := Ascii.N_of_ascii c in
  if N.leb 48 n && N.leb n 57 then Some (n - 48)%N
  else if N.leb 97 n && N.leb n 102 then Some (n - 87)%N
  else None.

Fixpoint roomId_bytes (id : string) : option (list byte) :=
  match id with
  | EmptyString => Some []
  | String hi (String lo rest) =>
    match hex_digit_value hi, hex_digit_value lo, roomId_bytes rest with
    | Some h, Some l, Some bs =>
      match Byte.of_N (16 * h + l) with
      | Some b => Some (b :: bs)
      | None => None
      end
    | _, _, _ => None
    end
  | String _ EmptyString => None
  end.

Definition is_hex_char (c : ascii) : bool :=
  match hex_digit_value c with Some _ => true | None => false end.

Fixpoint all_chars (f : ascii -> bool) (s : string) : bool :=
  match s with
  | EmptyString => true
  | String c rest => f c && all_chars f rest
  end.

Section Further.

Context {P : Platform}.

(** *** src/ui.js: the message buffer and its persistence *)

(** The module state of ChatUI that the history functions read and write. *)
Record ui_state : Type := {
  localKey : option AESKey;       (* null until a key is given *)
  messagesBuffer : value;
  currentRoom : string
}.

Inductive ui_effect : Type :=
| UiAlert (text : string)             (* alert(text) *)
| UiRender (messages : list value).   (* the items that renderMessages has put in the list *)

Definition bad_local_key_alert : string :=
  "Unable to decrypt saved messages with this local key. Either import correct key or clear storage for this room.".

(** loadHistory() *)
Definition loadHistory (u : ui_state) (ls : storage) : value * list ui_effect :=
  match localKey u with
  | None => (VArr [], [])
  | Some k =>
    match load (currentRoom u) k ls with
    | inr arr => (js_or arr (VArr []), [])
    | inl _ => (VArr [], [UiAlert bad_local_key_alert])
    end
  end.

(** persistMessages(), with the nonce of the [n]th draw *)
Definition persistMessages (n : nat) (u : ui_state) (ls : storage) : storage :=
  match localKey u with
  | None => ls
  | Some k => save n (currentRoom u) (messagesBuffer u) k ls
  end.

(** The loop of renderMessages(): an item is put in the list unless reading
    [m.from] throws, which ends the loop. *)
Fixpoint render_items (items : list value) : list value * option error :=
  match items with
  | [] => ([], None)
  | m :: rest =>
    match get_prop m "from" with
    | inl e => ([], Some e)
    | inr _ =>
      match render_items rest with
      | (shown, e) => (m :: shown, e)
      end
    end
  end.

(** renderMessages() *)
Definition renderMessages (u : ui_state) : list ui_effect * option error :=
  match iterate (messagesBuffer u) with
  | inl e => ([UiRender []], Some e)
  | inr items =>
    match render_items items with
    | (shown, e) => ([UiRender shown], e)
    end
  end.

Definition with_buffer (buf : value) (u : ui_state) : ui_state :=
  {| localKey := localKey u; messagesBuffer := buf; currentRoom := currentRoom u |}.

(** onPeerMessage(msg): push, render, persist.  Only an array has [push]. *)
Definition onPeerMessage (n : nat) (msg : value) (u : ui_state) (ls : storage)
    : outcome unit * ui_state * storage * list ui_effect :=
  match messagesBuffer u with
  | VArr items =>
    let u1 := with_buffer (VArr (items ++ [msg])) u in
    match renderMessages u1 with
    | (out, Some e) => (Thrown e, u1, ls, out)
    | (out, None) => (Returned tt, u1, persistMessages n u1 ls, out)
    end
  | _ => (Thrown TypeError, u, ls, [])
  end.

(** *** Notions for the statements about them and about peer.js *)

(** What no event changes: who the peer is and whom it reports to. *)
Definition same_identity (s s' : state) : Prop :=
  peer s' = peer s
  /\ my_peerId s' = my_peerId s
  /\ my_ecdhPair s' = my_ecdhPair s
  /\ my_pubB64 s' = my_pubB64 s
  /\ my_username s' = my_username s
  /\ roomId s' = roomId s
  /\ isCreator s' = isCreator s
  /\ onMessageCallback s' = onMessageCallback s
  /\ onParticipantChange s' = onParticipantChange s
  /\ onError s' = onError s.

(** The registry changes by Map.set and Map.delete only. *)
Inductive registry_steps : list (value * nat) -> list (value * nat) -> Prop :=
| steps_refl m : registry_steps m m
| steps_set m k c m' : registry_steps (map_set m k c) m' -> registry_steps m m'
| steps_delete m k m' : registry_steps (map_delete m k) m' -> registry_steps m m'.

Definition stable (s s' : state) : Prop :=
  same_identity s s' /\ registry_steps (connMap s) (connMap s').

Definition stable_key (s s' : state) : Prop :=
  stable s s' /\ roomKey s' = roomKey s.

(** No two entries of the registry have the same key. *)
Fixpoint keys_distinct (m : list (value * nat)) : Prop :=
  match m with
  | [] => True
  | (k, _) :: rest => map_get rest k = None /\ keys_distinct rest
  end.

(** The diagnostics of the 'roomKey' and 'msg' cases. *)
Definition roomKey_imported : effect :=
  Console ConsoleLog "Received roomKey and imported (joiner).".
Definition roomKey_failed : effect := Console ConsoleError "Failed roomKey handling".
Definition decrypt_failed_diagnostic : effect :=
  Console ConsoleWarn "decrypt message failed".

(** Every entry of the registry of [s] is in that of [s']. *)
Definition registry_extends (s s' : state) : Prop :=
  forall k c, map_get (connMap s) k = Some c -> map_get (connMap s') k = Some c.

(** [settled_kept s s']: a connection for which the transport has emitted
    'open' or 'close' in [s] is still one in [s']. *)
Definition settled_kept (s s' : state) : Prop :=
  forall c, conn_settled (conn_of s c) = true -> conn_settled (conn_of s' c) = true.

(** What the 'msg' case may show. *)
Definition envelope_effect (e : effect) : Prop :=
  e = no_roomKey_diagnostic \/ e = decrypt_failed_diagnostic
  \/ exists m, e = CallOnMessage m.

(** The effects of the 'open' listener of connectToPeer. *)
Definition identity_sent (c : nat) (s : state) : list effect :=
  [Console ConsoleLog "outgoing open";
   ConnSend c (JSON_stringify (publicKey_record s))].

End Further.

(* ===================================================================== *)
(** ** A reference platform *)
(* ===================================================================== *)

(** A small executable platform on which the model runs: a JSON printer and
    parser for [value], a Diffie-Hellman exchange in a group of 23 elements,
    a cipher that appends key and nonce as its authentication tag, and
    hexadecimal in the place of base64.  It is a stand-in for the browser, sharing with it
    the laws of [PlatformLaws]. *)
Module Ref.

Definition quote : ascii := Ascii.ascii_of_nat 34.
Definition backslash : ascii := "\"%char.

Fixpoint escape (s : string) : string :=
  match s with
  | EmptyString => EmptyString
  | String c rest =>
    if Ascii.eqb c quote || Ascii.eqb c backslash
    then String backslash (String c (escape rest))
    else String c (escape rest)
  end.

Definition quoted (s : string) : string :=
  String quote (escape s ++ String quote EmptyString).

Fixpoint join (sep : string) (parts : list string) : string :=
  match parts with
  | [] => EmptyString
  | [p] => p
  | p :: rest => (p ++ sep ++ join sep rest)%string
  end.

Fixpoint digits_of (fuel : nat) (n : N) (acc : string) : string :=
  match fuel with
  | O => acc
  | S fuel' =>
    let d := Ascii.ascii_of_N (48 + N.modulo n 10) in
    let q := N.div n 10 in
    if N.eqb q 0 then String d acc else digits_of fuel' q (String d acc)
  end.

Definition print_Z (z : Z) : string :=
  let n := Z.abs_N z in
  let body := digits_of (S (N.to_nat (N.log2 n))) n EmptyString in
  if Z.ltb z 0 then String "-"%char body else body.

Fixpoint stringify (v : value) : string :=
  match v with
  | VUndef | VNull => "null"
  | VBool true => "true"
  | VBool false => "false"
  | VNum z => print_Z z
  | VStr s => quoted s
  | VArr items => ("[" ++ join "," (map stringify items) ++ "]")%string
  | VObj fields =>
    ("{" ++ join "," (map (fun kv => (quoted (fst kv) ++ ":" ++ stringify (snd kv))%string)
                          fields) ++ "}")%string
  end.

(** The parser: [Some (v, rest)] when a value was read off the front. *)
Fixpoint parse_string (s : string) (acc : string) : option (string * string) :=
  match s with
  | EmptyString => None
  | String c rest =>
    if Ascii.eqb c quote then Some (acc, rest)
    else if Ascii.eqb c backslash then
      match rest with
      | String c' rest' => parse_string rest' (acc ++ String c' EmptyString)
      | EmptyString => None
      end
    else parse_string rest (acc ++ String c EmptyString)
  end.

Definition is_digit (c : ascii) : bool :=
  let n := Ascii.N_of_ascii c in N.leb 48 n && N.leb n 57.

Fixpoint parse_digits (s : string) (acc : N) : N * string :=
  match s with
  | String c rest =>
    if is_digit c then parse_digits rest (10 * acc + (Ascii.N_of_ascii c - 48))
    else (acc, s)
  | EmptyString => (acc, s)
  end.

Definition expect (word : string) (v : value) (s : string) : option (value * string) :=
  if String.prefix word s
  then Some (v, String.substring (String.length word)
                                 (String.length s - String.length word) s)
  else None.

Fixpoint parse_value (fuel : nat) (s : string) : option (value * string) :=
  match fuel with
  | O => None
  | S f =>
    match s with
    | EmptyString => None
    | String c rest =>
      if Ascii.eqb c "n" then expect "null" VNull s
      else if Ascii.eqb c "t" then expect "true" (VBool true) s
      else if Ascii.eqb c "f" then expect "false" (VBool false) s
      else if Ascii.eqb c quote then
        match parse_string rest EmptyString with
        | Some (str, r) => Some (VStr str, r)
        | None => None
        end
      else if Ascii.eqb c "-" then
        match rest with
        | String d _ =>
          if is_digit d
          then let (n, r) := parse_digits rest 0%N in Some (VNum (- Z.of_N n), r)
          else None
        | EmptyString => None
        end
      else if is_digit c then
        let (n, r) := parse_digits s 0%N in Some (VNum (Z.of_N n), r)
      else if Ascii.eqb c "[" then
        match rest with
        | String "]" r => Some (VArr [], r)
        | _ =>
          (fix items (n : nat) (s : string) (acc : list value) :=
             match n with
             | O => None
             | S n' =>
               match parse_value f s with
               | Some (v, String "," r) => items n' r (acc ++ [v])
               | Some (v, String "]" r) => Some (VArr (acc ++ [v]), r)
               | _ => None
               end
             end) f rest []
        end
      else if Ascii.eqb c "{" then
        match rest with
        | String "}" r => Some (VObj [], r)
        | _ =>
          (fix members (n : nat) (s : string) (acc : list (string * value)) :=
             match n with
             | O => None
             | S n' =>
               match s with
               | String q s1 =>
                 if Ascii.eqb q quote then
                   match parse_string s1 EmptyString with
                   | Some (k, String ":" s2) =>
                     match parse_value f s2 with
                     | Some (v, String "," r) => members n' r (acc ++ [(k, v)])
                     | Some (v, String "}" r) => Some (VObj (acc ++ [(k, v)]), r)
                     | _ => None
                     end
                   | _ => None
                   end
                 else None
               | EmptyString => None
               end
             end) f rest []
        end
      else None
    end
  end.

Definition parse (s : string) : option value :=
  match parse_value (S (String.length s)) s with
  | Some (v, EmptyString) => Some v
  | _ => None
  end.

(** Two hexadecimal digits per character stand in for base64. *)
Definition hex_digit (n : N) : ascii :=
  Ascii.ascii_of_N (if N.ltb n 10 then 48 + n else 87 + n).

Definition hex_value (c : ascii) : option N :=
  let n := Ascii.N_of_ascii c in
  if N.leb 48 n && N.leb n 57 then Some (n - 48)%N
  else if N.leb 97 n && N.leb n 102 then Some (n - 87)%N
  else None.

Fixpoint hex_encode (s : string) : string :=
  match s with
  | EmptyString => EmptyString
  | String c rest =>
    let n := Ascii.N_of_ascii c in
    String (hex_digit (N.div n 16)) (String (hex_digit (N.modulo n 16)) (hex_encode rest))
  end.

Fixpoint hex_decode (s : string) : option string :=
  match s with
  | EmptyString => Some EmptyString
  | String hi (String lo rest) =>
    match hex_value hi, hex_value lo, hex_decode rest with
    | Some h, Some l, Some r => Some (String (Ascii.ascii_of_N (16 * h + l)) r)
    | _, _, _ => None
    end
  | String _ EmptyString => None
  end.

(** Keys and cipher. *)
Definition byte_of_N (n : N) : byte :=
  match Byte.of_N (N.modulo n 256) with Some b => b | None => x00 end.

Fixpoint bytes_eqb (a b : list byte) : bool :=
  match a, b with
  | [], [] => true
  | x :: a', y :: b' => Byte.eqb x y && bytes_eqb a' b'
  | _, _ => false
  end.

Definition dh_public (priv : N) : N := N.modulo (5 ^ priv) 23.
Definition dh_shared (priv pub : N) : N := N.modulo (pub ^ priv) 23.

Record aes_key : Type := { key_raw : list byte; key_extractable : bool }.

Definition tag (k : aes_key) (iv : list byte) : list byte := key_raw k ++ iv.

Definition encrypt (k : aes_key) (iv pt : list byte) : list byte := pt ++ tag k iv.

Definition decrypt (k : aes_key) (iv ct : list byte) : option (list byte) :=
  let n := length ct - length (tag k iv) in
  if bytes_eqb (skipn n ct) (tag k iv) then Some (firstn n ct) else None.

(** TextDecoder: the text of the bytes, without a byte-order mark at its
    head. *)
Definition decode_text (bytes : list byte) : string :=
  let s := string_of_list_byte bytes in
  if starts_with_bom s then String.substring 3 (String.length s - 3) s else s.

#[export] Instance platform : Platform := {|
  ECDHPrivateKey := N;
  ECDHPublicKey := N;
  AESKey := aes_key;
  JSON_parse := parse;
  JSON_stringify := stringify;
  btoa := hex_encode;
  atob := fun v => match v with VStr s => hex_decode s | _ => None end;
  text_encode := list_byte_of_string;
  text_decode := decode_text;
  subtle_generateKey_ECDH := fun n =>
    let priv := N.of_nat (3 + n) in (priv, dh_public priv);
  subtle_exportKey_ECDH := fun pub => [byte_of_N pub];
  subtle_importKey_ECDH := fun raw =>
    match raw with [b] => Some (Byte.to_N b) | _ => None end;
  subtle_deriveBits := fun priv pub => [byte_of_N (dh_shared priv pub)];
  subtle_generateKey_AES := fun n =>
    {| key_raw := [x6b; byte_of_N (N.of_nat n)]; key_extractable := true |};
  subtle_exportKey_AES := fun k =>
    if key_extractable k then Some (key_raw k) else None;
  subtle_importKey_AES := fun raw =>
    match raw with
    | [] => None
    | _ => Some {| key_raw := raw; key_extractable := false |}
    end;
  subtle_encrypt := encrypt;
  subtle_decrypt := decrypt;
  getRandomValues12 := fun n => repeat (byte_of_N (N.of_nat n)) 12;
  Math_random_suffix := fun n => ("k3x9q" ++ print_Z (Z.of_nat n))%string;
  Date_now := fun n => (1700000000000 + Z.of_nat n)%Z
|}.

End Ref.

(* ===================================================================== *)
(** ** Sessions on the reference platform *)
(* ===================================================================== *)

Module Examples.

Import Ref.

Definition creator_opts : init_opts :=
  {| opt_roomId := "room"; opt_role := "create"; opt_username := "alice";
     opt_onMessage := true; opt_onParticipants := true; opt_onError := false |}.

Definition joiner_opts : init_opts :=
  {| opt_roomId := "room"; opt_role := "join"; opt_username := "bob";
     opt_onMessage := true; opt_onParticipants := true; opt_onError := false |}.

(** Records as a remote peer would send them. *)
Definition publicKey_from (from pubB64 username : string) : value :=
  VObj [("type", VStr "publicKey"); ("from", VStr from);
        ("payload", VStr pubB64); ("username", VStr username)].

Definition announce_from (from pubB64 : string) : value :=
  VObj [("type", VStr "announce"); ("from", VStr from);
        ("payload", VObj [("pubKey", VStr pubB64)])].

Definition newPeer_from (from peerId : string) : value :=
  VObj [("type", VStr "newPeer"); ("from", VStr from);
        ("payload", VObj [("peerId", VStr peerId)])].

Definition msg_from (from : string) (enc : value) : value :=
  VObj [("type", VStr "msg"); ("from", VStr from); ("ts", VNum 1700000000123);
        ("payload", enc)].

Definition ping_from (from : string) : value :=
  VObj [("type", VStr "ping"); ("from", VStr from)].

Definition wire (v : value) : raw_data := RawText (stringify v).

(** A creator whose transport is up, and the same with the channel of the
    joiner "room:j1" open. *)
Definition creator_up : state :=
  fst (run [PeerOpen] (session_start creator_opts)).

Definition creator_with_j1_events : list event :=
  [PeerOpen; PeerConnection "room:j1"; ConnOpen 0].

Definition creator_with_j1 : state :=
  fst (run creator_with_j1_events (session_start creator_opts)).

(** A joiner whose channel to the creator is open; it has no room key. *)
Definition joiner_up_events : list event := [PeerOpen; ConnOpen 0].

Definition joiner_up : state :=
  fst (run joiner_up_events (session_start joiner_opts)).

(** The creator after "room:j1" has sent its key "0a", and the record with
    which the same peer then sends the key "05". *)
Definition first_key_events : list event :=
  creator_with_j1_events ++ [ConnData 0 (wire (publicKey_from "room:j1" "0a" "bob"))].

Definition creator_knows_j1 : state :=
  fst (run first_key_events (session_start creator_opts)).

Definition second_key : value := publicKey_from "room:j1" "05" "bob".

(** The creator after a connected peer has sent an announce in the
    creator's own name. *)
Definition self_announce_events : list event :=
  creator_with_j1_events ++ [ConnData 0 (wire (announce_from "room" "0a"))].

Definition creator_after_self_announce : state :=
  fst (run self_announce_events (session_start creator_opts)).

(** A joiner to which another joiner, "room:j2", opens a channel. *)
Definition joiner_inbound_events : list event :=
  [PeerConnection "room:j2"; ConnOpen 1].

(** A key and a log for the history store. *)
Definition local_key : @AESKey platform :=
  {| key_raw := [x6c; x6f; x63]; key_extractable := false |}.

Definition other_key : @AESKey platform :=
  {| key_raw := [x62; x61; x64]; key_extractable := false |}.

Definition a_log : value :=
  VArr [VObj [("from", VStr "room:j1"); ("ts", VNum 1700000000123);
              ("payload", VObj [("text", VStr "hello"); ("sender", VStr "bob");
                                ("type", VStr "text")])]].

(** The announce of "room:j1" as it arrives on the joiner's own channel,
    and the creator after it. *)
Definition joiner_announce : event :=
  ConnData 0 (wire (announce_from "room:j1" "0a")).

Definition creator_after_announce : state :=
  snd (fst (handle joiner_announce creator_knows_j1)).

(** A store in which the slot of the room "room" holds the empty string. *)
Definition empty_slot : storage := <[storage_key "room" := ""]> ∅.

(** A creator and a joiner as init leaves them. *)
Definition creator_start : state := session_start creator_opts.
Definition joiner_start : state := session_start joiner_opts.

(** A creator with the channels of two joiners open. *)
Definition creator_with_two_events : list event :=
  creator_with_j1_events ++ [PeerConnection "room:j2"; ConnOpen 1].

Definition creator_with_two : state :=
  fst (run creator_with_two_events (session_start creator_opts)).

(** A joiner that has the creator's public key, and the same after the
    roomKey record that the creator's listener sends to "room:j1". *)
Definition roomKey_from (from : string) (enc : value) : value :=
  VObj [("type", VStr "roomKey"); ("from", VStr from); ("payload", enc)].

Definition derived_key : @AESKey platform :=
  {| key_raw := [x0b]; key_extractable := false |}.

(** The room key as the creator makes it and as a joiner imports it. *)
Definition creator_room_key : @AESKey platform :=
  {| key_raw := [x6b; x01]; key_extractable := true |}.

Definition joiner_room_key : @AESKey platform :=
  {| key_raw := [x6b; x01]; key_extractable := false |}.

Definition joiner_knows_creator : state :=
  fst (run [ConnData 0 (wire (publicKey_from "room" "0a" "alice"))] joiner_up).

Definition joiner_with_key : state :=
  fst (run [ConnData 0 (wire (roomKey_from "room"
                                (encryptAESGCM 2 derived_key "6b01")))]
           joiner_knows_creator).

Definition hello : value := VObj [("text", VStr "hello")].

(** Records that are not what a well-behaved peer sends. *)
Definition newPeer_without_payload : value :=
  VObj [("type", VStr "newPeer"); ("from", VStr "room")].

Definition peerList_from (from : string) (ids : list value) : value :=
  VObj [("type", VStr "peerList"); ("from", VStr from); ("payload", VArr ids)].

(** The page of a user in the room "room", and a message for it. *)
Definition a_message : value :=
  VObj [("from", VStr "room:j1"); ("ts", VNum 1700000000123);
        ("payload", VObj [("text", VStr "hello"); ("sender", VStr "bob");
                          ("type", VStr "text")])].

Definition a_ui (k : @AESKey platform) : @ui_state platform :=
  {| localKey := Some k; messagesBuffer := VArr []; currentRoom := "room" |}.

End Examples.

(* ===================================================================== *)
(** ** Proofs *)
(* ===================================================================== *)

Section Proofs.

Context {P : Platform}.

(** *** Values and the registry *)

Lemma strict_eq_eq a b : strict_eq a b = true -> a = b.
Proof.
  destruct a, b; simpl; try discriminate; try reflexivity; intros H.
  - apply Bool.eqb_prop in H. congruence.
  - apply Z.eqb_eq in H. congruence.
  - apply String.eqb_eq in H. congruence.
Qed.

Lemma strict_eq_str s : strict_eq (VStr s) (VStr s) = true.
Proof. simpl. apply String.eqb_refl. Qed.

Lemma strict_eq_sym a b : strict_eq a b = strict_eq b a.
Proof.
  destruct a, b; simpl; try reflexivity.
  - destruct b, b0; reflexivity.
  - apply Z.eqb_sym.
  - apply String.eqb_sym.
Qed.

Lemma is_case_false ty name : ty <> VStr name -> is_case ty name = false.
Proof.
  intros Hne. unfold is_case. destruct (strict_eq ty (VStr name)) eqn:E; [|reflexivity].
  apply strict_eq_eq in E. contradiction.
Qed.

Lemma map_get_set_same m k c : strict_eq k k = true -> map_get (map_set m k c) k = Some c.
Proof.
  intros Hk. induction m as [|[k' c'] m IH]; simpl.
  - rewrite Hk. reflexivity.
  - destruct (strict_eq k' k) eqn:E; simpl; rewrite E; [reflexivity | exact IH].
Qed.

Lemma map_get_set_other m k k' c :
  strict_eq k k' = false -> map_get (map_set m k c) k' = map_get m k'.
Proof.
  intros Hne. induction m as [|[k0 c0] m IH]; simpl.
  - rewrite Hne. reflexivity.
  - destruct (strict_eq k0 k) eqn:E; simpl.
    + destruct (strict_eq k0 k') eqn:E'; [|reflexivity].
      assert (k0 = k) by (apply strict_eq_eq; exact E).
      assert (k0 = k') by (apply strict_eq_eq; exact E').
      subst k k'. congruence.
    + rewrite IH. reflexivity.
Qed.

Lemma map_get_In m k c : map_get m k = Some c -> In (k, c) m.
Proof.
  induction m as [|[k' c'] m IH]; simpl; [discriminate|].
  destruct (strict_eq k' k) eqn:E; intros H.
  - apply strict_eq_eq in E. left. congruence.
  - right. auto.
Qed.

Lemma map_set_In_new m k c : map_get m k = None -> In (k, c) (map_set m k c).
Proof.
  induction m as [|[k' c'] m IH]; simpl; [auto|].
  destruct (strict_eq k' k) eqn:E; [discriminate|].
  intros H. right. auto.
Qed.

(** *** The monad *)

Lemma prepend_nil {A} (x : outcome A * state * list effect) : prepend [] x = x.
Proof. destruct x as [[r s] out]. reflexivity. Qed.

Lemma bind_returned {A B} (m : M A) (k : A -> M B) s a s1 out1 :
  m s = (Returned a, s1, out1) -> bind m k s = prepend out1 (k a s1).
Proof.
  intros H. unfold bind, prepend. rewrite H.
  destruct (k a s1) as [[r s2] out2]. reflexivity.
Qed.

Lemma bind_thrown {A B} (m : M A) (k : A -> M B) s e s1 out1 :
  m s = (Thrown e, s1, out1) -> bind m k s = (Thrown e, s1, out1).
Proof. intros H. unfold bind. rewrite H. reflexivity. Qed.

Lemma bind_ret {A B} (a : A) (k : A -> M B) s : bind (ret a) k s = k a s.
Proof. rewrite (bind_returned _ _ s a s []) by reflexivity. apply prepend_nil. Qed.

Lemma bind_gets {A B} (f : state -> A) (k : A -> M B) s : bind (gets f) k s = k (f s) s.
Proof. rewrite (bind_returned _ _ s (f s) s []) by reflexivity. apply prepend_nil. Qed.

Lemma bind_get {B} (k : state -> M B) s : bind (gets id) k s = k s s.
Proof. apply bind_gets. Qed.

Lemma bind_modify {B} (f : state -> state) (k : unit -> M B) s :
  bind (modify f) k s = k tt (f s).
Proof. rewrite (bind_returned _ _ s tt (f s) []) by reflexivity. apply prepend_nil. Qed.

Lemma bind_emit {B} (e : effect) (k : unit -> M B) s :
  bind (emit e) k s = prepend [e] (k tt s).
Proof. apply bind_returned. reflexivity. Qed.

Lemma bind_throw {A B} (e : error) (k : A -> M B) s :
  bind (throw e) k s = (Thrown e, s, []).
Proof. apply bind_thrown. reflexivity. Qed.

Lemma for_each_app {A} (l1 l2 : list A) (body : A -> M unit) s :
  for_each (l1 ++ l2) body s =
  bind (for_each l1 body) (fun _ => for_each l2 body) s.
Proof.
  revert s. induction l1 as [|x l1 IH]; intros s; simpl.
  - unfold bind, ret. destruct (for_each l2 body s) as [[r s'] out]. reflexivity.
  - unfold bind in *. destruct (body x s) as [[[[]|e] s1] out1]; [|reflexivity].
    rewrite IH.
    destruct (for_each l1 body s1) as [[[[]|e] s2] out2]; [|reflexivity].
    destruct (for_each l2 body s2) as [[r s3] out3]. rewrite app_assoc. reflexivity.
Qed.

(** A loop whose body only sends: the state stays, the sends come out in
    order. *)
Lemma for_each_sends {A} (l : list A) (sel : A -> bool) (out : A -> effect) s :
  for_each l (fun x => if sel x then emit (out x) else ret tt) s =
  (Returned tt, s, map out (filter (fun x => sel x = true) l)).
Proof.
  induction l as [|x l IH]; simpl; [reflexivity|].
  unfold bind. destruct (sel x) eqn:E.
  - change (emit (out x) s) with (Returned tt, s, [out x]). cbv beta iota.
    rewrite IH, filter_cons_True by exact E. reflexivity.
  - change (ret tt s) with (@Returned unit tt, s, @nil effect). cbv beta iota.
    rewrite IH, filter_cons_False by (rewrite E; discriminate). reflexivity.
Qed.

(** *** The dispatch of handleProtocolMessage *)

Lemma dispatch_publicKey conn msg s :
  get_prop msg "type" = inr (VStr "publicKey") ->
  handleProtocolMessage conn msg s = case_publicKey conn msg s.
Proof.
  intros H. unfold handleProtocolMessage, prop, bind at 1. rewrite H. simpl.
  destruct (case_publicKey conn msg s) as [[r s'] out]. reflexivity.
Qed.

Lemma dispatch_announce conn msg s :
  get_prop msg "type" = inr (VStr "announce") ->
  handleProtocolMessage conn msg s = case_announce conn msg s.
Proof.
  intros H. unfold handleProtocolMessage, prop, bind at 1. rewrite H. simpl.
  destruct (case_announce conn msg s) as [[r s'] out]. reflexivity.
Qed.

Lemma dispatch_roomKey conn msg s :
  get_prop msg "type" = inr (VStr "roomKey") ->
  handleProtocolMessage conn msg s = case_roomKey conn msg s.
Proof.
  intros H. unfold handleProtocolMessage, prop, bind at 1. rewrite H. simpl.
  destruct (case_roomKey conn msg s) as [[r s'] out]. reflexivity.
Qed.

Lemma dispatch_peerList conn msg s :
  get_prop msg "type" = inr (VStr "peerList") ->
  handleProtocolMessage conn msg s = case_peerList conn msg s.
Proof.
  intros H. unfold handleProtocolMessage, prop, bind at 1. rewrite H. simpl.
  destruct (case_peerList conn msg s) as [[r s'] out]. reflexivity.
Qed.

Lemma dispatch_newPeer conn msg s :
  get_prop msg "type" = inr (VStr "newPeer") ->
  handleProtocolMessage conn msg s = case_newPeer conn msg s.
Proof.
  intros H. unfold handleProtocolMessage, prop, bind at 1. rewrite H. simpl.
  destruct (case_newPeer conn msg s) as [[r s'] out]. reflexivity.
Qed.

Lemma dispatch_announceRequest conn msg s :
  get_prop msg "type" = inr (VStr "announceRequest") ->
  handleProtocolMessage conn msg s = case_announceRequest conn msg s.
Proof.
  intros H. unfold handleProtocolMessage, prop, bind at 1. rewrite H. simpl.
  destruct (case_announceRequest conn msg s) as [[r s'] out]. reflexivity.
Qed.

Lemma dispatch_msg conn msg s :
  get_prop msg "type" = inr (VStr "msg") ->
  handleProtocolMessage conn msg s = case_msg conn msg s.
Proof.
  intros H. unfold handleProtocolMessage, prop, bind at 1. rewrite H. simpl.
  destruct (case_msg conn msg s) as [[r s'] out]. reflexivity.
Qed.

Lemma dispatch_unrecognized conn msg ty s :
  get_prop msg "type" = inr ty ->
  (forall name, In name recognized_types -> ty <> VStr name) ->
  handleProtocolMessage conn msg s = (Returned tt, s, []).
Proof.
  intros H Hnot. unfold handleProtocolMessage, prop, bind at 1. rewrite H. simpl.
  rewrite !is_case_false by (apply Hnot; simpl; tauto). reflexivity.
Qed.

(** A received record is an object or an array when it passed the test of
    the 'data' listener with a [type] to read. *)
Lemma get_prop_truthy msg k v : get_prop msg k = inr v -> v <> VUndef -> truthy msg = true.
Proof. destruct msg; simpl; intros H Hv; try discriminate; try reflexivity; congruence. Qed.

Lemma get_prop_defined msg k v k' :
  get_prop msg k = inr v -> exists v', get_prop msg k' = inr v'.
Proof. destruct msg; simpl; intros H; try discriminate; eauto. Qed.

Lemma for_each_skip {A} (l : list A) (body : A -> M unit) s :
  (forall x, In x l -> body x s = (Returned tt, s, [])) ->
  for_each l body s = (Returned tt, s, []).
Proof.
  induction l as [|x l IH]; intros H; simpl; [reflexivity|].
  unfold bind. rewrite (H x) by (left; reflexivity).
  rewrite IH by (intros y Hy; apply H; right; exact Hy). reflexivity.
Qed.

(** A loop whose body only logs one line per element. *)
Lemma for_each_log {A} (l : list A) (body : A -> M unit) (line : effect) s :
  (forall x, In x l -> body x s = (Returned tt, s, [line])) ->
  for_each l body s = (Returned tt, s, map (fun _ => line) l).
Proof.
  induction l as [|x l IH]; intros H; simpl; [reflexivity|].
  unfold bind. rewrite (H x) by (left; reflexivity).
  rewrite IH by (intros y Hy; apply H; right; exact Hy). reflexivity.
Qed.

Lemma run_cons ev evs s :
  run (ev :: evs) s =
  (fst (run evs (post (handle ev) s)), effects (handle ev) s ++ snd (run evs (post (handle ev) s))).
Proof.
  simpl. unfold post, effects. destruct (handle ev s) as [[r s1] out1]. simpl.
  destruct (run evs s1) as [s2 out2]. reflexivity.
Qed.

(** C10: a record whose [type] is none of publicKey, announce, roomKey,
    peerList, newPeer, announceRequest, msg falls through the switch: the
    handler returns at once with the state as it was (registry, room key,
    every connection's remote key included) and without any effect, observer
    callbacks included; so does the 'data' event that delivers it. *)
Theorem unrecognized_type_changes_nothing (conn : nat) (msg ty : value) (s : state) :
  get_prop msg "type" = inr ty ->
  (forall name, In name recognized_types -> ty <> VStr name) ->
  handleProtocolMessage conn msg s = (Returned tt, s, [])
  /\ (forall raw, parseSafe raw s = (Returned msg, s, []) ->
        handle (ConnData conn raw) s = (Returned tt, s, [])).
Proof.
  intros Hty Hnot.
  assert (Hh : handleProtocolMessage conn msg s = (Returned tt, s, []))
    by (eapply dispatch_unrecognized; eauto).
  split; [exact Hh|].
  intros raw Hp. simpl. rewrite bind_gets.
  apply for_each_skip. intros h _.
  unfold run_data_listener. rewrite (bind_returned _ _ _ _ _ _ Hp), prepend_nil.
  destruct (truthy msg); [|reflexivity].
  unfold spawn, try_catch. rewrite Hh. reflexivity.
Qed.

(** C9, as the code has it: a datum that JSON.parse rejects makes parseSafe
    log a warning and return null; the 'data' listener then skips
    handleProtocolMessage, so the event returns normally, leaves the state
    as it was and shows nothing but the warning (one per listener).  A datum
    that parses, but into something that is no record, is dropped without a
    warning: a falsy value (null, false, 0, the empty string) fails the
    test of the listener, and a value whose [type] is none of the seven
    record types falls through the switch of the handler.  In each case
    nothing is thrown, the state stays, and the events that follow run as
    they would have without the datum. *)
Theorem unparseable_datum_is_dropped (c : nat) (text : string) (s : state) :
  (JSON_parse text = None ->
     parseSafe (RawText text) s = (Returned VNull, s, [parse_diagnostic])
     /\ (forall h, run_data_listener c (RawText text) h s
                   = (Returned tt, s, [parse_diagnostic]))
     /\ handle (ConnData c (RawText text)) s
        = (Returned tt, s, map (fun _ => parse_diagnostic) (conn_onData (conn_of s c)))
     /\ (forall evs,
           run (ConnData c (RawText text) :: evs) s
           = (fst (run evs s),
              map (fun _ => parse_diagnostic) (conn_onData (conn_of s c))
              ++ snd (run evs s))))
  /\ (forall v,
        JSON_parse text = Some v ->
        truthy v = false ->
        handle (ConnData c (RawText text)) s = (Returned tt, s, [])
        /\ (forall evs, run (ConnData c (RawText text) :: evs) s = run evs s))
  /\ (forall v ty,
        JSON_parse text = Some v ->
        truthy v = true ->
        get_prop v "type" = inr ty ->
        (forall name, In name recognized_types -> ty <> VStr name) ->
        handle (ConnData c (RawText text)) s = (Returned tt, s, [])
        /\ (forall evs, run (ConnData c (RawText text) :: evs) s = run evs s)).
Proof.
  assert (Hsilent :
            handle (ConnData c (RawText text)) s = (Returned tt, s, []) ->
            forall evs, run (ConnData c (RawText text) :: evs) s = run evs s).
  { intros Hh evs. rewrite run_cons. unfold post, effects. rewrite Hh. cbn [fst snd app].
    destruct (run evs s). reflexivity. }
  split; [|split].
  - intros Hparse.
    assert (Hp : parseSafe (RawText text) s = (Returned VNull, s, [parse_diagnostic])).
    { unfold parseSafe. rewrite Hparse. unfold console_warn. rewrite bind_emit.
      reflexivity. }
    assert (Hl : forall h, run_data_listener c (RawText text) h s
                           = (Returned tt, s, [parse_diagnostic])).
    { intros h. unfold run_data_listener.
      rewrite (bind_returned _ _ _ _ _ _ Hp). reflexivity. }
    assert (Hh : handle (ConnData c (RawText text)) s
                 = (Returned tt, s,
                    map (fun _ => parse_diagnostic) (conn_onData (conn_of s c)))).
    { simpl. rewrite bind_gets. apply for_each_log. intros h _. apply Hl. }
    repeat split; auto.
    intros evs. rewrite run_cons. unfold post, effects. rewrite Hh. reflexivity.
  - intros v Hparse Hv.
    assert (Hh : handle (ConnData c (RawText text)) s = (Returned tt, s, [])).
    { simpl. rewrite bind_gets. apply for_each_skip. intros h _.
      unfold run_data_listener, parseSafe. rewrite Hparse, bind_ret, Hv. reflexivity. }
    split; [exact Hh | exact (Hsilent Hh)].
  - intros v ty Hparse Hv Hty Hnot.
    assert (Hh : handle (ConnData c (RawText text)) s = (Returned tt, s, [])).
    { simpl. rewrite bind_gets. apply for_each_skip. intros h _.
      unfold run_data_listener, parseSafe. rewrite Hparse, bind_ret, Hv.
      unfold spawn, try_catch.
      rewrite (dispatch_unrecognized c v ty s Hty Hnot). reflexivity. }
    split; [exact Hh | exact (Hsilent Hh)].
Qed.

Lemma prop_ok v k x : get_prop v k = inr x -> prop v k = ret x.
Proof. intros H. unfold prop. rewrite H. reflexivity. Qed.

(** The 'msg' case with a room key, on an envelope that authenticates. *)
Lemma case_msg_delivers conn msg payload iv ct pt obj from ts k s :
  roomKey s = Some k ->
  onMessageCallback s = true ->
  get_prop msg "payload" = inr payload ->
  get_prop payload "iv" = inr iv ->
  get_prop payload "ciphertext" = inr ct ->
  decryptAESGCM k iv ct = Some pt ->
  JSON_parse pt = Some obj ->
  get_prop msg "from" = inr from ->
  get_prop msg "ts" = inr ts ->
  case_msg conn msg s =
  (Returned tt, after_delivery ts s, [CallOnMessage (delivered from (delivery_ts ts s) obj)]).
Proof.
  intros Hrk Hcb Hpl Hiv Hct Hdec Hjson Hfrom Hts.
  unfold case_msg. rewrite (prop_ok _ _ _ Hpl), bind_ret, bind_gets, Hrk.
  unfold try_catch.
  rewrite (prop_ok _ _ _ Hiv), bind_ret, (prop_ok _ _ _ Hct), bind_ret, Hdec.
  unfold await. rewrite bind_ret, Hjson, bind_ret, bind_gets, Hcb.
  rewrite (prop_ok _ _ _ Hfrom), bind_ret, (prop_ok _ _ _ Hts), bind_ret.
  unfold after_delivery, delivery_ts. destruct (truthy ts).
  - rewrite bind_ret. reflexivity.
  - reflexivity.
Qed.

(** C2: a ChatEnvelope that arrives while roomKey is still null is dropped:
    the handler logs a warning and returns normally, nothing is thrown or
    left as a rejected promise, the observer is not called and the state is
    the one before.  Whatever events follow therefore run as they would have
    without it; in particular, once they have established the room key, an
    envelope that authenticates under it is decrypted and handed to the
    observer. *)
Theorem envelope_before_roomKey_is_dropped
    (conn : nat) (raw : raw_data) (msg : value) (s : state) :
  roomKey s = None ->
  parseSafe raw s = (Returned msg, s, []) ->
  get_prop msg "type" = inr (VStr "msg") ->
  handleProtocolMessage conn msg s = (Returned tt, s, [no_roomKey_diagnostic])
  /\ handle (ConnData conn raw) s
     = (Returned tt, s, map (fun _ => no_roomKey_diagnostic) (conn_onData (conn_of s conn)))
  /\ (forall evs,
        run (ConnData conn raw :: evs) s
        = (fst (run evs s),
           map (fun _ => no_roomKey_diagnostic) (conn_onData (conn_of s conn))
           ++ snd (run evs s)))
  /\ (forall evs k c' msg' payload iv ct pt obj from ts,
        roomKey (fst (run (ConnData conn raw :: evs) s)) = Some k ->
        onMessageCallback (fst (run (ConnData conn raw :: evs) s)) = true ->
        get_prop msg' "type" = inr (VStr "msg") ->
        get_prop msg' "payload" = inr payload ->
        get_prop payload "iv" = inr iv ->
        get_prop payload "ciphertext" = inr ct ->
        decryptAESGCM k iv ct = Some pt ->
        JSON_parse pt = Some obj ->
        get_prop msg' "from" = inr from ->
        get_prop msg' "ts" = inr ts ->
        handleProtocolMessage c' msg' (fst (run (ConnData conn raw :: evs) s))
        = (Returned tt,
           after_delivery ts (fst (run evs s)),
           [CallOnMessage (delivered from (delivery_ts ts (fst (run evs s))) obj)])).
Proof.
  intros Hrk Hp Hty.
  assert (Hh : handleProtocolMessage conn msg s = (Returned tt, s, [no_roomKey_diagnostic])).
  { rewrite dispatch_msg by exact Hty. unfold case_msg.
    destruct (get_prop_defined msg "type" _ "payload" Hty) as [pl Hpl].
    rewrite (prop_ok _ _ _ Hpl), bind_ret, bind_gets, Hrk. reflexivity. }
  assert (He : handle (ConnData conn raw) s
               = (Returned tt, s,
                  map (fun _ => no_roomKey_diagnostic) (conn_onData (conn_of s conn)))).
  { simpl. rewrite bind_gets. apply for_each_log. intros h _.
    unfold run_data_listener. rewrite (bind_returned _ _ _ _ _ _ Hp), prepend_nil.
    rewrite (get_prop_truthy msg "type" _ Hty) by discriminate.
    unfold spawn, try_catch. rewrite Hh. reflexivity. }
  assert (Hr : forall evs,
             run (ConnData conn raw :: evs) s
             = (fst (run evs s),
                map (fun _ => no_roomKey_diagnostic) (conn_onData (conn_of s conn))
                ++ snd (run evs s))).
  { intros evs. rewrite run_cons. unfold post, effects. rewrite He. reflexivity. }
  repeat split; auto.
  intros evs k c' msg' payload iv ct pt obj from ts.
  rewrite Hr. simpl fst. intros Hk Hcb Hty' Hpl Hiv Hct Hdec Hjson Hfrom Hts.
  rewrite dispatch_msg by exact Hty'.
  eapply case_msg_delivers; eauto.
Qed.

Lemma bind_draw {B} (k : nat -> M B) s :
  bind draw k s = k (draws s) (with_draws (S (draws s)) s).
Proof. rewrite (bind_returned _ _ s _ _ []) by reflexivity. apply prepend_nil. Qed.

Lemma bind_now {B} (k : value -> M B) s :
  bind now k s = k (VNum (Date_now (ticks s))) (with_ticks (S (ticks s)) s).
Proof. rewrite (bind_returned _ _ s _ _ []) by reflexivity. apply prepend_nil. Qed.

Lemma sendPlain_without_roomKey obj s :
  roomKey s = None -> sendPlain obj s = (Thrown no_roomKey, s, []).
Proof. intros H. unfold sendPlain. rewrite bind_gets, H. reflexivity. Qed.

Lemma sendPlain_with_roomKey obj k s :
  roomKey s = Some k ->
  sendPlain obj s
  = (Returned tt, after_send s,
     map (fun e => ConnSend (snd e) (JSON_stringify (envelope_of s k obj)))
         (open_entries s)
     ++ loopback s obj).
Proof.
  intros H. unfold sendPlain. rewrite bind_gets, H, bind_draw, bind_now, bind_gets.
  unfold send_json.
  rewrite (bind_returned _ _ _ _ _ _
             (for_each_sends _ (fun e => conn_open (conn_of _ (snd e)))
                             (fun e => ConnSend (snd e) _) _)).
  rewrite bind_gets. unfold loopback, after_send, open_entries, envelope_of. simpl.
  destruct (onMessageCallback s).
  - rewrite bind_now. unfold prepend. simpl. reflexivity.
  - unfold prepend. simpl. reflexivity.
Qed.

(** C5: sendPlain throws "No roomKey available" to its caller exactly when
    roomKey is null, and then leaves the state untouched (the peer goes on).
    With a room key it returns normally: the serialized payload is encrypted
    under the room key with the nonce of a new draw of the random source (the
    draw counter advances, so no later encryption takes that draw again), the
    envelope { type: 'msg', from, ts, payload: { iv, ciphertext } } is sent
    on every open connection of the registry, in its order, and the object
    { from, ts, payload }, whose payload is the object that was given to
    sendPlain, goes to the message observer when one is set (loopback). *)
Theorem sendPlain_spec (obj : value) (s : state) :
  (roomKey s = None ->
     sendPlain obj s = (Thrown (Error "No roomKey available"), s, []))
  /\ (forall k, roomKey s = Some k ->
        sendPlain obj s
        = (Returned tt, after_send s,
           map (fun e =>
                  ConnSend (snd e)
                    (JSON_stringify
                       (VObj [("type", VStr "msg"); ("from", my_peerId s);
                              ("ts", VNum (Date_now (ticks s)));
                              ("payload",
                               VObj [("iv", VStr (ab2b64 (getRandomValues12 (draws s))));
                                     ("ciphertext",
                                      VStr (ab2b64
                                              (subtle_encrypt k
                                                 (getRandomValues12 (draws s))
                                                 (text_encode (JSON_stringify obj)))))])])))
               (filter (fun e => conn_open (conn_of s (snd e)) = true) (connMap s))
           ++ (if onMessageCallback s
               then [CallOnMessage
                       (VObj [("from", my_peerId s);
                              ("ts", VNum (Date_now (S (ticks s))));
                              ("payload", obj)])]
               else []))
        /\ draws (after_send s) = S (draws s)
        /\ ticks (after_send s)
           = (if onMessageCallback s then S (S (ticks s)) else S (ticks s))
        /\ roomKey (after_send s) = roomKey s
        /\ connMap (after_send s) = connMap s
        /\ conns (after_send s) = conns s
        /\ same_identity s (after_send s))
  /\ (result (sendPlain obj) s = Thrown (Error "No roomKey available")
      <-> roomKey s = None).
Proof.
  split; [apply sendPlain_without_roomKey|]. split.
  - intros k H. split; [exact (sendPlain_with_roomKey obj k s H)|].
    repeat split.
  - unfold result. split.
    + intros H. destruct (roomKey s) as [k|] eqn:E; [|reflexivity].
      rewrite (sendPlain_with_roomKey obj k s E) in H. discriminate.
    + intros H. rewrite (sendPlain_without_roomKey obj s H). reflexivity.
Qed.

Lemma for_each_ext {A} (l : list A) (f g : A -> M unit) s :
  (forall x s', f x s' = g x s') -> for_each l f s = for_each l g s.
Proof.
  intros H. revert s. induction l as [|x l IH]; intros s; simpl; [reflexivity|].
  unfold bind. rewrite H. destruct (g x s) as [[[[]|e] s1] out1]; [|reflexivity].
  rewrite IH. reflexivity.
Qed.

(** The loop at the end of the 'announce' case. *)
Lemma announce_loop s0 theirId (l : list (value * nat)) s :
  for_each l (fun entry =>
    if strict_eq (fst entry) theirId then ret tt
    else if conn_open (conn_of s0 (snd entry))
         then send_json (snd entry) (newPeer_record s0 theirId)
         else ret tt) s
  = (Returned tt, s,
     map (fun e => ConnSend (snd e) (JSON_stringify (newPeer_record s0 theirId)))
         (filter (fun e => negb (strict_eq (fst e) theirId)
                           && conn_open (conn_of s0 (snd e)) = true) l)).
Proof.
  rewrite <- (for_each_sends l
               (fun e => negb (strict_eq (fst e) theirId) && conn_open (conn_of s0 (snd e)))
               (fun e => ConnSend (snd e) (JSON_stringify (newPeer_record s0 theirId))) s).
  apply for_each_ext. intros x s'.
  destruct (strict_eq (fst x) theirId); simpl; [reflexivity|].
  destruct (conn_open (conn_of s0 (snd x))); reflexivity.
Qed.

Ltac mrun :=
  repeat first
    [ rewrite bind_ret | rewrite bind_get | rewrite bind_gets | rewrite bind_modify
    | rewrite bind_throw | rewrite bind_draw | rewrite bind_now ].

Lemma connectToPeer_existing theirId c s :
  peer s = true -> map_get (connMap s) theirId = Some c ->
  connectToPeer theirId s = (Returned c, s, []).
Proof.
  intros Hp Hc. unfold connectToPeer. mrun. rewrite Hp. simpl. mrun.
  rewrite Hc. reflexivity.
Qed.

Lemma bind_assoc {A B C} (m : M A) (f : A -> M B) (k : B -> M C) s :
  bind (bind m f) k s = bind m (fun a => bind (f a) k) s.
Proof.
  unfold bind. destruct (m s) as [[[a|e] s1] out1]; [|reflexivity].
  destruct (f a s1) as [[[b|e] s2] out2]; [|reflexivity].
  destruct (k b s2) as [[r s3] out3]. rewrite app_assoc. reflexivity.
Qed.

Lemma bind_my_privateKey {B} (k : ECDHPrivateKey -> M B) s :
  bind my_privateKey k s =
  match my_ecdhPair s with
  | Some (priv, _) => k priv s
  | None => (Thrown TypeError, s, [])
  end.
Proof.
  destruct (my_ecdhPair s) as [[priv pub]|] eqn:E.
  - rewrite (bind_returned _ _ s priv s []); [apply prepend_nil|].
    unfold my_privateKey. rewrite bind_gets, E. reflexivity.
  - apply bind_thrown. unfold my_privateKey. rewrite bind_gets, E. reflexivity.
Qed.

Lemma bind_await {A B} (r : option A) (k : A -> M B) s :
  bind (await r) k s =
  match r with Some a => k a s | None => (Thrown CryptoError, s, []) end.
Proof. destruct r; simpl; [apply bind_ret | apply bind_throw]. Qed.

Lemma bind_prop {B} v key (k : value -> M B) s :
  bind (prop v key) k s =
  match get_prop v key with inr x => k x s | inl e => (Thrown e, s, []) end.
Proof. unfold prop. destruct (get_prop v key); simpl; [apply bind_throw | apply bind_ret]. Qed.

Lemma bind_update_conn {B} c f (k : unit -> M B) s :
  bind (update_conn c f) k s = k tt (with_conns (alter f c) s).
Proof. apply bind_modify. Qed.

Ltac mrun ::=
  repeat first
    [ rewrite bind_ret | rewrite bind_get | rewrite bind_gets | rewrite bind_modify
    | rewrite bind_throw | rewrite bind_draw | rewrite bind_now
    | rewrite bind_my_privateKey | rewrite bind_await | rewrite bind_prop
    | rewrite bind_update_conn | rewrite bind_assoc ].

Lemma ensures_triple {A} (m : M A) s (Q : outcome A -> state -> list effect -> Prop) :
  ensures m s Q -> Q (result m s) (post m s) (effects m s).
Proof.
  intros H. unfold result, post, effects.
  destruct (m s) as [[r s'] out] eqn:E. simpl. apply H. exact E.
Qed.

(** The 'announce' case for an identity that the registry already holds:
    whichever way it ends, no connection is made and the registry, the heap
    size and the room key stay. *)
Lemma case_announce_existing conn msg theirId c s :
  get_prop msg "from" = inr theirId ->
  map_get (connMap s) theirId = Some c ->
  ensures (case_announce conn msg) s (fun _ s' out =>
    connMap s' = connMap s
    /\ length (conns s') = length (conns s)
    /\ roomKey s' = roomKey s
    /\ (forall id, ~ In (PeerConnect id) out)).
Proof.
  intros Hfrom Hc r s' out. unfold case_announce. mrun.
  destruct (isCreator s); cbn [negb]; [|intros [= <- <- <-]; repeat split; auto].
  mrun. rewrite Hfrom.
  destruct (get_prop_defined msg "from" _ "payload" Hfrom) as [pl Hpl].
  mrun. rewrite Hpl. mrun.
  destruct (get_prop pl "pubKey") as [e|b64];
    [intros [= <- <- <-]; repeat split; auto|].
  mrun. destruct (importPublicKeyFromBase64 b64) as [theirPub|];
    [|intros [= <- <- <-]; repeat split; auto].
  mrun. rewrite Hc. mrun.
  destruct (my_ecdhPair s) as [[priv pub]|];
    [|intros [= <- <- <-]; repeat split; auto].
  mrun. destruct (deriveSharedAESKey priv (Some theirPub)) as [derived|];
    [|intros [= <- <- <-]; repeat split; auto].
  mrun. simpl roomKey.
  destruct (match roomKey s with Some k => exportAESKeyToBase64 k | None => None end)
    as [roomRaw|]; [|intros [= <- <- <-]; repeat split; auto].
  mrun. rewrite announce_loop. intros [= <- <- <-]. simpl.
  repeat split; auto.
  - apply length_alter.
  - intros id Hin. apply in_map_iff in Hin. destruct Hin as [e [He _]]. discriminate.
Qed.

(** C6: connecting to an identity that the registry already holds returns
    the registered connection and does nothing else; a KeyAgreementAnnounce
    from such an identity, however it ends, opens no connection (no
    peer.connect, no new object), and leaves the registry and the room key as
    they were; a PeerIntroduction of such an identity does nothing at all. *)
Theorem connect_and_announce_idempotent (theirId : value) (c : nat) (s : state) :
  map_get (connMap s) theirId = Some c ->
  (peer s = true -> connectToPeer theirId s = (Returned c, s, []))
  /\ (forall conn msg,
        get_prop msg "type" = inr (VStr "announce") ->
        get_prop msg "from" = inr theirId ->
        connMap (post (handleProtocolMessage conn msg) s) = connMap s
        /\ length (conns (post (handleProtocolMessage conn msg) s)) = length (conns s)
        /\ roomKey (post (handleProtocolMessage conn msg) s) = roomKey s
        /\ (forall id, ~ In (PeerConnect id) (effects (handleProtocolMessage conn msg) s)))
  /\ (forall conn msg payload,
        get_prop msg "type" = inr (VStr "newPeer") ->
        get_prop msg "payload" = inr payload ->
        get_prop payload "peerId" = inr theirId ->
        handleProtocolMessage conn msg s = (Returned tt, s, [])).
Proof.
  intros Hc. split; [|split].
  - intros Hp. apply connectToPeer_existing; assumption.
  - intros conn msg Hty Hfrom.
    apply (ensures_triple (handleProtocolMessage conn msg) s
             (fun _ s' out => connMap s' = connMap s
                /\ length (conns s') = length (conns s)
                /\ roomKey s' = roomKey s
                /\ (forall id, ~ In (PeerConnect id) out))).
    intros r s' out. rewrite dispatch_announce by exact Hty.
    exact (case_announce_existing conn msg theirId c s Hfrom Hc r s' out).
  - intros conn msg payload Hty Hpl Hid.
    rewrite dispatch_newPeer by exact Hty. unfold case_newPeer.
    mrun. rewrite Hpl. mrun. rewrite Hid. mrun.
    unfold map_has. rewrite Hc. reflexivity.
Qed.

Lemma notifyParticipants_run s :
  notifyParticipants s = (Returned tt, s, participants_notice s).
Proof.
  unfold notifyParticipants, participants_notice. mrun.
  destruct (onParticipantChange s); [|reflexivity]. mrun. reflexivity.
Qed.

Lemma connectToPeer_new theirId s :
  peer s = true -> map_get (connMap s) theirId = None ->
  connectToPeer theirId s
  = (Returned (length (conns s)), connected theirId s,
     PeerConnect theirId :: participants_notice (connected theirId s)).
Proof.
  intros Hp Hc. unfold connectToPeer. mrun. rewrite Hp. cbn [negb]. mrun.
  rewrite Hc, bind_emit.
  rewrite (bind_returned _ _ s (length (conns s))
             (with_conns (fun h => h ++ [outgoing_connection theirId]) s) [])
    by reflexivity.
  rewrite prepend_nil. mrun.
  rewrite (bind_returned _ _ _ _ _ _ (notifyParticipants_run _)).
  unfold prepend, ret, connected. cbn [fst snd app]. rewrite app_nil_r. reflexivity.
Qed.

(** The listener of the 'announce' case sends the room key record and
    then the list of the peers. *)
Lemma deliver_listener c enc s :
  run_open_listener c (OpenDeliver enc) s
  = (Returned tt, s,
     [ConnSend c (JSON_stringify
        (VObj [("type", VStr "roomKey"); ("from", my_peerId s); ("payload", enc)]));
      ConnSend c (JSON_stringify
        (VObj [("type", VStr "peerList"); ("from", my_peerId s);
               ("payload", VArr (map_keys (connMap s) ++ [my_peerId s]))]))]).
Proof. simpl. unfold send_json. mrun. rewrite bind_emit. reflexivity. Qed.

(** The transport emits 'open' once: on a connection for which it has
    emitted 'open' or 'close', the event does not come again. *)
Lemma open_event_on_settled c s :
  conn_settled (conn_of s c) = true -> handle (ConnOpen c) s = (Returned tt, s, []).
Proof. intros H. simpl. mrun. rewrite H. reflexivity. Qed.

Lemma open_event_on_fresh c s :
  conn_settled (conn_of s c) = false ->
  handle (ConnOpen c) s
  = bind (gets id)
         (fun s1 => for_each (conn_onOpen (conn_of s1 c)) (run_open_listener c))
         (with_conns (alter (set_open true) c) s).
Proof. intros H. simpl. mrun. rewrite H. mrun. reflexivity. Qed.

(** The 'announce' case at a creator, for a sender that the registry has a
    connection for: the listener that holds the room key is added to that
    connection, whatever its state, and nothing is sent on it. *)
Lemma announce_on_registered_connection
    (conn : nat) (msg theirId payload K : value)
    (theirPub pub : ECDHPublicKey) (priv : ECDHPrivateKey)
    (derived rk : AESKey) (roomRaw : string) (c : nat) (s : state) :
  isCreator s = true ->
  roomKey s = Some rk ->
  exportAESKeyToBase64 rk = Some roomRaw ->
  my_ecdhPair s = Some (priv, pub) ->
  get_prop msg "type" = inr (VStr "announce") ->
  get_prop msg "from" = inr theirId ->
  get_prop msg "payload" = inr payload ->
  get_prop payload "pubKey" = inr K ->
  importPublicKeyFromBase64 K = Some theirPub ->
  deriveSharedAESKey priv (Some theirPub) = Some derived ->
  map_get (connMap s) theirId = Some c ->
  handleProtocolMessage conn msg s
  = (Returned tt,
     with_conns (alter (add_onOpen
                          (OpenDeliver (encryptAESGCM (draws s) derived roomRaw))) c)
                (with_draws (S (draws s)) s),
     map (fun e => ConnSend (snd e)
            (JSON_stringify
               (VObj [("type", VStr "newPeer"); ("from", my_peerId s);
                      ("payload", VObj [("peerId", theirId)])])))
         (introduced_to
            (with_conns (alter (add_onOpen
                                  (OpenDeliver (encryptAESGCM (draws s) derived roomRaw)))
                               c)
                        (with_draws (S (draws s)) s))
            theirId)).
Proof.
  intros Hcreator Hrk Hexp Hpair Hty Hfrom Hpl HK Himp Hder Hc.
  rewrite dispatch_announce by exact Hty. unfold case_announce. mrun.
  rewrite Hcreator. cbn [negb]. mrun. rewrite Hfrom. mrun. rewrite Hpl. mrun.
  rewrite HK. mrun. rewrite Himp. mrun. rewrite Hc.
  mrun. rewrite Hpair. mrun. rewrite Hder. mrun. rewrite Hrk, Hexp. mrun.
  rewrite announce_loop. reflexivity.
Qed.

(** The same for a sender that is not in the registry: connectToPeer makes
    the connection, and when it opens the creator sends on it its
    publicKey record, the room key record and the list of the peers. *)
Lemma announce_on_new_connection
    (conn : nat) (msg theirId payload K : value)
    (theirPub pub : ECDHPublicKey) (priv : ECDHPrivateKey)
    (derived rk : AESKey) (roomRaw : string) (s : state) :
  isCreator s = true ->
  peer s = true ->
  roomKey s = Some rk ->
  exportAESKeyToBase64 rk = Some roomRaw ->
  my_ecdhPair s = Some (priv, pub) ->
  get_prop msg "type" = inr (VStr "announce") ->
  get_prop msg "from" = inr theirId ->
  get_prop msg "payload" = inr payload ->
  get_prop payload "pubKey" = inr K ->
  importPublicKeyFromBase64 K = Some theirPub ->
  deriveSharedAESKey priv (Some theirPub) = Some derived ->
  map_get (connMap s) theirId = None ->
  exists s' out,
    handleProtocolMessage conn msg s
    = (Returned tt, s', PeerConnect theirId :: out)
    /\ connMap s' = map_set (connMap s) theirId (length (conns s))
    /\ roomKey s' = Some rk
    /\ conn_theirPub (conn_of s' (length (conns s))) = Some theirPub
    /\ handle (ConnOpen (length (conns s))) s'
       = (Returned tt,
          with_conns (alter (set_open true) (length (conns s))) s',
          [Console ConsoleLog "outgoing open";
           ConnSend (length (conns s))
             (JSON_stringify
                (VObj [("type", VStr "publicKey"); ("from", my_peerId s);
                       ("payload", my_pubB64 s); ("username", my_username s)]));
           ConnSend (length (conns s))
             (JSON_stringify
                (VObj [("type", VStr "roomKey"); ("from", my_peerId s);
                       ("payload", VObj
                          [("iv", VStr (ab2b64 (getRandomValues12 (draws s))));
                           ("ciphertext",
                            VStr (ab2b64 (subtle_encrypt derived
                                            (getRandomValues12 (draws s))
                                            (text_encode roomRaw))))])]));
           ConnSend (length (conns s))
             (JSON_stringify
                (VObj [("type", VStr "peerList"); ("from", my_peerId s);
                       ("payload",
                        VArr (map_keys (map_set (connMap s) theirId (length (conns s)))
                              ++ [my_peerId s]))]))]).
Proof.
  intros Hcreator Hpeer Hrk Hexp Hpair Hty Hfrom Hpl HK Himp Hder Hc.
  rewrite dispatch_announce by exact Hty. unfold case_announce. mrun.
  rewrite Hcreator. cbn [negb]. mrun. rewrite Hfrom. mrun. rewrite Hpl. mrun.
  rewrite HK. mrun. rewrite Himp. mrun. rewrite Hc.
  rewrite bind_assoc.
  rewrite (bind_returned _ _ _ _ _ _ (connectToPeer_new theirId s Hpeer Hc)).
  rewrite bind_assoc. mrun.
  cbn [my_ecdhPair with_conns connected with_connMap]. rewrite Hpair. mrun.
  rewrite Hder. mrun. cbn [roomKey with_conns connected with_connMap].
  rewrite Hrk, Hexp. mrun. rewrite announce_loop.
  set (enc := encryptAESGCM (draws s) derived roomRaw).
  set (c := length (conns s)).
  set (s' := with_conns (alter (add_onOpen (OpenDeliver enc)) c)
               (with_draws (S (draws s))
                  (with_conns (alter (set_theirPub theirPub) c)
                              (connected theirId s)))).
  set (x := add_onOpen (OpenDeliver enc)
              (set_theirPub theirPub (outgoing_connection theirId))).
  assert (Hx : conn_of s' c = x).
  { unfold conn_of, s', x, c. cbn [conns with_conns with_draws connected with_connMap].
    rewrite !list_lookup_alter, !decide_True by reflexivity.
    rewrite list_lookup_middle by reflexivity. reflexivity. }
  assert (Hlt : c < length (conns s')).
  { unfold s', c. cbn [conns with_conns with_draws connected with_connMap].
    rewrite !length_alter, length_app. simpl. lia. }
  unfold prepend. cbn [fst snd app].
  eexists s', _. split; [reflexivity|].
  split; [reflexivity|]. split; [exact Hrk|].
  split; [rewrite Hx; reflexivity|].
  simpl handle. mrun. rewrite Hx. change (conn_settled x) with false. cbv iota.
  mrun.
  assert (Hx2 : conn_of (with_conns (alter (set_open true) c) s') c = set_open true x).
  { rewrite <- Hx. unfold conn_of. cbn [conns with_conns].
    rewrite list_lookup_alter, decide_True by reflexivity.
    destruct (lookup_lt_is_Some_2 _ _ Hlt) as [y Hy]. rewrite Hy. reflexivity. }
  rewrite Hx2.
  change (conn_onOpen (set_open true x)) with [OpenOutgoing; OpenDeliver enc].
  cbn [for_each].
  rewrite (bind_returned _ _ _ tt (with_conns (alter (set_open true) c) s')
             [Console ConsoleLog "outgoing open";
              ConnSend c (JSON_stringify
                (publicKey_record (with_conns (alter (set_open true) c) s')))]).
  2: { simpl. unfold console_log, send_json. rewrite bind_emit. mrun. reflexivity. }
  rewrite (bind_returned _ _ _ _ _ _ (deliver_listener c enc _)).
  reflexivity.
Qed.

(** *** The crypto wrappers on a lawful platform *)

Lemma b642ab_ab2b64 (HL : PlatformLaws P) ab : b642ab (VStr (ab2b64 ab)) = Some ab.
Proof.
  unfold b642ab, ab2b64. rewrite atob_btoa. simpl.
  rewrite list_byte_of_string_of_list_byte. reflexivity.
Qed.

Lemma encryptAESGCM_iv n k pt :
  get_prop (encryptAESGCM n k pt) "iv" = inr (VStr (ab2b64 (getRandomValues12 n))).
Proof. reflexivity. Qed.

Lemma encryptAESGCM_ciphertext n k pt :
  get_prop (encryptAESGCM n k pt) "ciphertext"
  = inr (VStr (ab2b64 (subtle_encrypt k (getRandomValues12 n) (text_encode pt)))).
Proof. reflexivity. Qed.

Lemma decrypt_encryptAESGCM (HL : PlatformLaws P) n k pt iv ct :
  starts_with_bom pt = false ->
  get_prop (encryptAESGCM n k pt) "iv" = inr iv ->
  get_prop (encryptAESGCM n k pt) "ciphertext" = inr ct ->
  decryptAESGCM k iv ct = Some pt.
Proof.
  intros Hpt. unfold encryptAESGCM, enc_object. simpl. intros [= <-] [= <-].
  unfold decryptAESGCM. rewrite !b642ab_ab2b64 by exact HL.
  rewrite subtle_decrypt_encrypt. simpl. rewrite text_decode_encode by exact Hpt.
  reflexivity.
Qed.

(** C8, as the code has it: load gives the empty log when nothing is stored
    under the room, and also when what is stored is the empty string;
    after save(roomId, M, K), load(roomId, K) gives M back, for a log M and a
    blob that survive JSON serialization on a platform that keeps its laws;
    and when the stored blob is not empty and does not authenticate under
    the given key (wrong key, or a blob that is not what save wrote), load
    fails with the "Unable to decrypt" error instead of returning a log. *)
Theorem history_load_spec (HL : PlatformLaws P) (room : string) (ls : storage) :
  (forall k, ls !! storage_key room = None -> load room k ls = inr (VArr []))
  /\ (forall n M k,
        json_roundtrips M ->
        json_roundtrips (encryptAESGCM n k (JSON_stringify M)) ->
        JSON_stringify (encryptAESGCM n k (JSON_stringify M)) <> "" ->
        load room k (save n room M k ls) = inr M)
  /\ (forall k raw,
        ls !! storage_key room = Some raw ->
        raw <> "" ->
        ~ authenticates k raw ->
        load room k ls = inl decrypt_failed)
  /\ (forall k,
        ls !! storage_key room = Some "" ->
        load room k ls = inr (VArr [])).
Proof.
  split; [|split; [|split]]; [| | |intros k H; unfold load; rewrite H; reflexivity].
  - intros k H. unfold load. rewrite H. reflexivity.
  - intros n M k HM Henc Hne. unfold load, save.
    rewrite lookup_insert_eq.
    assert (Ht : truthy (VStr (JSON_stringify (encryptAESGCM n k (JSON_stringify M))))
                 = true).
    { simpl. apply negb_true_iff, String.eqb_neq. exact Hne. }
    rewrite Ht. cbn [negb]. rewrite Henc.
    rewrite encryptAESGCM_iv, encryptAESGCM_ciphertext.
    rewrite (decrypt_encryptAESGCM HL n k (JSON_stringify M) _ _
               (JSON_stringify_no_bom M)
               (encryptAESGCM_iv _ _ _) (encryptAESGCM_ciphertext _ _ _)).
    rewrite HM. reflexivity.
  - intros k raw Hraw Hne Hauth. unfold load. rewrite Hraw.
    assert (Ht : truthy (VStr raw) = true).
    { simpl. apply negb_true_iff, String.eqb_neq. exact Hne. }
    rewrite Ht. cbn [negb].
    destruct (JSON_parse raw) as [obj|] eqn:Hobj; [|reflexivity].
    destruct (get_prop obj "iv") as [e|iv] eqn:Hiv; [reflexivity|].
    destruct (get_prop obj "ciphertext") as [e|ct] eqn:Hct; [reflexivity|].
    destruct (decryptAESGCM k iv ct) as [pt|] eqn:Hdec; [|reflexivity].
    exfalso. apply Hauth. exists obj, iv, ct, pt. auto.
Qed.

(** *** The heap *)

Lemma conn_of_alter_same f c s :
  c < length (conns s) -> conn_of (with_conns (alter f c) s) c = f (conn_of s c).
Proof.
  intros Hlt. unfold conn_of. cbn [conns with_conns].
  rewrite list_lookup_alter, decide_True by reflexivity.
  destruct (lookup_lt_is_Some_2 _ _ Hlt) as [x Hx]. rewrite Hx. reflexivity.
Qed.

Lemma conn_of_alter_other f c c' s :
  c <> c' -> conn_of (with_conns (alter f c) s) c' = conn_of s c'.
Proof.
  intros Hne. unfold conn_of. cbn [conns with_conns].
  rewrite list_lookup_alter_ne by exact Hne. reflexivity.
Qed.

Lemma conn_of_alloc x s :
  conn_of (with_conns (fun h => h ++ [x]) s) (length (conns s)) = x.
Proof.
  unfold conn_of. cbn [conns with_conns].
  rewrite list_lookup_middle by reflexivity. reflexivity.
Qed.

Lemma conn_of_alloc_old x c s :
  c < length (conns s) -> conn_of (with_conns (fun h => h ++ [x]) s) c = conn_of s c.
Proof.
  intros Hlt. unfold conn_of. cbn [conns with_conns].
  rewrite lookup_app_l by exact Hlt. reflexivity.
Qed.

(** C4, as the code has it: only a creator listens to the channels that
    others open.  On a creator, the connection that the transport hands over
    gets the three listeners, and when it opens it is put in the registry
    under the remote peer's id.  On a joiner nothing is attached to it: its
    opening leaves the registry as it was and shows nothing, and what
    arrives on it is not read. *)
Theorem inbound_connection_by_role (remote : string) (s : state) :
  (isCreator s = true ->
     conn_of (post (handle (PeerConnection remote)) s) (length (conns s))
       = incoming_connection remote
     /\ connMap (post (handle (PeerConnection remote)) s) = connMap s
     /\ map_get (connMap (fst (run [PeerConnection remote; ConnOpen (length (conns s))] s)))
                (VStr remote)
        = Some (length (conns s))
     /\ conn_open (conn_of (fst (run [PeerConnection remote; ConnOpen (length (conns s))] s))
                           (length (conns s))) = true)
  /\ (isCreator s = false ->
        conn_of (post (handle (PeerConnection remote)) s) (length (conns s))
          = new_connection (VStr remote)
        /\ connMap (fst (run [PeerConnection remote; ConnOpen (length (conns s))] s))
           = connMap s
        /\ effects (handle (ConnOpen (length (conns s))))
                   (post (handle (PeerConnection remote)) s) = []
        /\ forall raw,
             effects (handle (ConnData (length (conns s)) raw))
                     (post (handle (PeerConnection remote)) s) = []).
Proof.
  set (c := length (conns s)).
  set (s0 := with_conns (fun h => h ++ [new_connection (VStr remote)]) s).
  assert (Hc0 : conn_of s0 c = new_connection (VStr remote)) by apply conn_of_alloc.
  assert (Hlt : c < length (conns s0)).
  { unfold s0, c. cbn [conns with_conns]. rewrite length_app. simpl. lia. }
  split; intros Hrole.
  - set (f := fun x => add_onClose CloseIncoming
                         (add_onData DataIncoming (add_onOpen OpenIncoming x))).
    assert (H1 : handle (PeerConnection remote) s
                 = (Returned tt, with_conns (alter f c) s0, [Console ConsoleLog "connection"])).
    { simpl. unfold on_peer_connection.
      rewrite (bind_returned _ _ s c s0 []) by reflexivity. rewrite prepend_nil.
      unfold console_log. rewrite bind_emit. mrun.
      change (isCreator s0) with (isCreator s). rewrite Hrole. reflexivity. }
    set (s1 := with_conns (alter f c) s0) in *.
    assert (Hc1 : conn_of s1 c = incoming_connection remote).
    { unfold s1. rewrite conn_of_alter_same by exact Hlt. rewrite Hc0. reflexivity. }
    assert (Hlt1 : c < length (conns s1)).
    { unfold s1. cbn [conns with_conns]. rewrite length_alter. exact Hlt. }
    assert (Hc2 : conn_of (with_conns (alter (set_open true) c) s1) c
                  = set_open true (incoming_connection remote)).
    { rewrite conn_of_alter_same by exact Hlt1. rewrite Hc1. reflexivity. }
    assert (H2 : exists out,
               handle (ConnOpen c) s1
               = (Returned tt,
                  with_connMap (fun m => map_set m (VStr remote) c)
                    (with_conns (alter (set_open true) c) s1), out)).
    { rewrite open_event_on_fresh by (rewrite Hc1; reflexivity).
      mrun. rewrite Hc2. cbn [set_open incoming_connection conn_onOpen
        add_onClose add_onData add_onOpen new_connection app for_each run_open_listener].
      unfold console_log, send_json. mrun. rewrite bind_emit. mrun. rewrite bind_emit. mrun.
      rewrite Hc2. cbn [set_open incoming_connection conn_peer
        add_onClose add_onData add_onOpen new_connection].
      rewrite (bind_returned _ _ _ _ _ _ (notifyParticipants_run _)).
      unfold prepend, ret. cbn [fst snd]. eauto. }
    destruct H2 as [out2 H2].
    unfold post. rewrite H1. cbn [fst snd].
    split; [exact Hc1|]. split; [reflexivity|].
    rewrite run_cons. unfold post. rewrite H1. cbn [fst snd].
    rewrite run_cons. unfold post. rewrite H2. cbn [fst snd run].
    split.
    + cbn [connMap with_connMap]. apply map_get_set_same, strict_eq_str.
    + change (conn_of (with_connMap (fun m => map_set m (VStr remote) c)
                         (with_conns (alter (set_open true) c) s1)) c)
        with (conn_of (with_conns (alter (set_open true) c) s1) c).
      rewrite Hc2. reflexivity.
  - assert (H1 : handle (PeerConnection remote) s
                 = (Returned tt, s0, [Console ConsoleLog "connection"])).
    { simpl. unfold on_peer_connection.
      rewrite (bind_returned _ _ s c s0 []) by reflexivity. rewrite prepend_nil.
      unfold console_log. rewrite bind_emit. mrun.
      change (isCreator s0) with (isCreator s). rewrite Hrole. reflexivity. }
    assert (Hc2 : conn_of (with_conns (alter (set_open true) c) s0) c
                  = set_open true (new_connection (VStr remote))).
    { rewrite conn_of_alter_same by exact Hlt. rewrite Hc0. reflexivity. }
    assert (H2 : handle (ConnOpen c) s0
                 = (Returned tt, with_conns (alter (set_open true) c) s0, [])).
    { rewrite open_event_on_fresh by (rewrite Hc0; reflexivity).
      mrun. rewrite Hc2. reflexivity. }
    unfold post, effects. rewrite H1. cbn [fst snd].
    split; [exact Hc0|].
    rewrite run_cons. unfold post. rewrite H1. cbn [fst snd].
    rewrite run_cons. unfold post. rewrite H2. cbn [fst snd run].
    split; [reflexivity|]. split; [reflexivity|].
    intros raw. simpl. mrun. rewrite Hc0. reflexivity.
Qed.

(** *** Reasoning by cases on handleProtocolMessage *)

Lemma connectToPeer_cases theirId s :
  connectToPeer theirId s =
  if negb (peer s) then (Thrown (Error "Peer not initialized"), s, [])
  else match map_get (connMap s) theirId with
       | Some c => (Returned c, s, [])
       | None => (Returned (length (conns s)), connected theirId s,
                  PeerConnect theirId :: participants_notice (connected theirId s))
       end.
Proof.
  destruct (peer s) eqn:Hp; cbn [negb].
  - destruct (map_get (connMap s) theirId) as [c|] eqn:Hc.
    + apply connectToPeer_existing; assumption.
    + apply connectToPeer_new; assumption.
  - unfold connectToPeer. mrun. rewrite Hp. reflexivity.
Qed.

Lemma for_each_frames {A} (R : state -> state -> Prop) (l : list A) (body : A -> M unit) :
  (forall s, R s s) ->
  (forall s1 s2 s3, R s1 s2 -> R s2 s3 -> R s1 s3) ->
  (forall x s, ensures (body x) s (fun _ s' _ => R s s')) ->
  forall s, ensures (for_each l body) s (fun _ s' _ => R s s').
Proof.
  intros Hrefl Htrans Hbody. induction l as [|x l IH]; intros s r s' out; simpl.
  - intros [= <- <- <-]. apply Hrefl.
  - unfold bind. destruct (body x s) as [[[[]|e] s1] out1] eqn:E1.
    + destruct (for_each l body s1) as [[r2 s2] out2] eqn:E2.
      intros [= <- <- <-]. eapply Htrans.
      * eapply (Hbody x s). exact E1.
      * eapply (IH s1). exact E2.
    + intros [= <- <- <-]. eapply (Hbody x s). exact E1.
Qed.

Lemma handler_cases conn msg s (Q : outcome unit -> state -> list effect -> Prop) :
  (forall e, Q (Thrown e) s []) ->
  Q (Returned tt) s [] ->
  (get_prop msg "type" = inr (VStr "publicKey") -> ensures (case_publicKey conn msg) s Q) ->
  (get_prop msg "type" = inr (VStr "announce") -> ensures (case_announce conn msg) s Q) ->
  (get_prop msg "type" = inr (VStr "roomKey") -> ensures (case_roomKey conn msg) s Q) ->
  (get_prop msg "type" = inr (VStr "peerList") -> ensures (case_peerList conn msg) s Q) ->
  (get_prop msg "type" = inr (VStr "newPeer") -> ensures (case_newPeer conn msg) s Q) ->
  (get_prop msg "type" = inr (VStr "announceRequest") ->
     ensures (case_announceRequest conn msg) s Q) ->
  (get_prop msg "type" = inr (VStr "msg") -> ensures (case_msg conn msg) s Q) ->
  ensures (handleProtocolMessage conn msg) s Q.
Proof.
  intros Hthrow Hskip H1 H2 H3 H4 H5 H6 H7 r s' out.
  unfold handleProtocolMessage. mrun.
  destruct (get_prop msg "type") as [e|ty] eqn:Hty.
  { intros [= <- <- <-]. apply Hthrow. }
  unfold is_case.
  destruct (strict_eq ty (VStr "publicKey")) eqn:E1.
  { apply strict_eq_eq in E1. subst ty. apply H1. reflexivity. }
  destruct (strict_eq ty (VStr "announce")) eqn:E2.
  { apply strict_eq_eq in E2. subst ty. apply H2. reflexivity. }
  destruct (strict_eq ty (VStr "roomKey")) eqn:E3.
  { apply strict_eq_eq in E3. subst ty. apply H3. reflexivity. }
  destruct (strict_eq ty (VStr "peerList")) eqn:E4.
  { apply strict_eq_eq in E4. subst ty. apply H4. reflexivity. }
  destruct (strict_eq ty (VStr "newPeer")) eqn:E5.
  { apply strict_eq_eq in E5. subst ty. apply H5. reflexivity. }
  destruct (strict_eq ty (VStr "announceRequest")) eqn:E6.
  { apply strict_eq_eq in E6. subst ty. apply H6. reflexivity. }
  destruct (strict_eq ty (VStr "msg")) eqn:E7.
  { apply strict_eq_eq in E7. subst ty. apply H7. reflexivity. }
  intros [= <- <- <-]. apply Hskip.
Qed.

(** *** Remote keys *)

Lemma keeps_refl s : keeps_keys s s.
Proof. split; auto. Qed.

Lemma keeps_trans s1 s2 s3 : keeps_keys s1 s2 -> keeps_keys s2 s3 -> keeps_keys s1 s3.
Proof.
  intros [L1 K1] [L2 K2]. split; [lia|].
  intros c Hc. rewrite K2 by lia. apply K1. exact Hc.
Qed.

Lemma keeps_same_conns s s' : conns s' = conns s -> keeps_keys s s'.
Proof.
  intros H. unfold keeps_keys, conn_of. rewrite H. split; auto.
Qed.

Lemma keeps_alter f c s :
  (forall x, conn_theirPub (f x) = conn_theirPub x) ->
  keeps_keys s (with_conns (alter f c) s).
Proof.
  intros Hf. split.
  - cbn [conns with_conns]. rewrite length_alter. lia.
  - intros c' Hc'. destruct (decide (c = c')) as [<-|Hne].
    + rewrite conn_of_alter_same by exact Hc'. apply Hf.
    + rewrite conn_of_alter_other by exact Hne. reflexivity.
Qed.

Lemma keeps_alter_fresh f c s0 s :
  keeps_keys s0 s -> length (conns s0) <= c ->
  keeps_keys s0 (with_conns (alter f c) s).
Proof.
  intros [L K] Hc. split.
  - cbn [conns with_conns]. rewrite length_alter. exact L.
  - intros c' Hc'. rewrite conn_of_alter_other by lia. apply K. exact Hc'.
Qed.

Lemma keeps_connected theirId s : keeps_keys s (connected theirId s).
Proof.
  split.
  - unfold connected. cbn [conns with_conns with_connMap]. rewrite length_app. lia.
  - intros c Hc. unfold connected.
    change (conn_of (with_connMap _ ?x) c) with (conn_of x c).
    apply (f_equal conn_theirPub). apply conn_of_alloc_old. exact Hc.
Qed.

Lemma connectToPeer_keeps theirId s :
  ensures (connectToPeer theirId) s (fun _ s' _ => keeps_keys s s').
Proof.
  intros r s' out. rewrite connectToPeer_cases.
  destruct (negb (peer s)); [intros [= <- <- <-]; apply keeps_refl|].
  destruct (map_get (connMap s) theirId); intros [= <- <- <-].
  - apply keeps_refl.
  - apply keeps_connected.
Qed.

(** Symbolic execution of a handler: run the monad, split on what the
    state or the record leaves open, and name the triple at the end. *)
Ltac msplit :=
  match goal with
  | |- context [match get_prop ?v ?k with _ => _ end] => destruct (get_prop v k) eqn:?
  | |- context [match ?o with Some _ => _ | None => _ end] => destruct o eqn:?
  | |- context [if ?b then _ else _] => destruct b eqn:?
  | |- context [let (_, _) := ?p in _] => is_var p; destruct p
  end.

Ltac mexec :=
  unfold console_log, console_warn, console_error, send_json;
  repeat (first [ progress mrun | rewrite bind_emit | msplit ]).

Ltac mleaf :=
  unfold prepend, modify, emit, ret, throw, update_conn;
  cbn [fst snd app]; intros [= <- <- <-].

Lemma case_publicKey_keys conn msg s :
  ensures (case_publicKey conn msg) s (fun _ s' _ =>
    length (conns s) <= length (conns s')
    /\ (forall c, c < length (conns s) -> c <> conn ->
          conn_theirPub (conn_of s' c) = conn_theirPub (conn_of s c))
    /\ (forall payload k,
          get_prop msg "payload" = inr payload ->
          importPublicKeyFromBase64 payload = Some k ->
          conn < length (conns s) ->
          conn_theirPub (conn_of s' conn) = Some k)).
Proof.
  intros r s' out. unfold case_publicKey. mexec; mleaf;
    (split; [cbn [conns with_conns]; rewrite ?length_alter; lia|]);
    (split; [intros c Hc Hne; rewrite ?conn_of_alter_other by congruence; reflexivity|]);
    intros payload k' Hpl Himp Hlt; try congruence.
  all: assert (v = payload) by congruence; subst v;
       assert (e = k') by congruence; subst e.
  all: rewrite ?conn_of_alter_same
         by (cbn [conns with_conns]; rewrite ?length_alter; exact Hlt);
       reflexivity.
Qed.

Lemma add_onOpen_theirPub h x : conn_theirPub (add_onOpen h x) = conn_theirPub x.
Proof. reflexivity. Qed.

Lemma announce_tail_keeps theirId theirPub connToNew s :
  ensures (announce_tail theirId theirPub connToNew) s (fun _ s' _ => keeps_keys s s').
Proof.
  intros r s' out. unfold announce_tail. mrun.
  destruct (my_ecdhPair s) as [[priv pub]|]; [|mleaf; apply keeps_refl].
  mrun. destruct (deriveSharedAESKey priv (Some theirPub)); [|mleaf; apply keeps_refl].
  mrun. destruct (match roomKey s with
                  | Some k0 => exportAESKeyToBase64 k0
                  | None => None
                  end); [|mleaf; apply keeps_refl].
  mrun. rewrite announce_loop. mleaf.
  eapply keeps_trans.
  - apply (keeps_same_conns s (with_draws (S (draws s)) s)). reflexivity.
  - apply keeps_alter. intros x. apply add_onOpen_theirPub.
Qed.

Lemma case_announce_keeps conn msg s :
  ensures (case_announce conn msg) s (fun _ s' _ => keeps_keys s s').
Proof.
  intros r s' out. unfold case_announce. mrun.
  destruct (isCreator s); cbn [negb]; [|mleaf; apply keeps_refl].
  mrun. destruct (get_prop msg "from") as [e|theirId]; [mleaf; apply keeps_refl|].
  mrun. destruct (get_prop msg "payload") as [e|payload]; [mleaf; apply keeps_refl|].
  mrun. destruct (get_prop payload "pubKey") as [e|b64]; [mleaf; apply keeps_refl|].
  mrun. destruct (importPublicKeyFromBase64 b64) as [theirPub|];
    [|mleaf; apply keeps_refl].
  mrun. destruct (map_get (connMap s) theirId) as [c|] eqn:Hc.
  - rewrite bind_ret. exact (announce_tail_keeps theirId theirPub c s r s' out).
  - rewrite bind_assoc. unfold bind at 1. rewrite connectToPeer_cases.
    destruct (negb (peer s)); [mleaf; apply keeps_refl|].
    rewrite Hc. cbv beta iota. rewrite bind_assoc, bind_update_conn, bind_ret.
    set (s1 := with_conns (alter (set_theirPub theirPub) (length (conns s)))
                          (connected theirId s)).
    assert (Hk1 : keeps_keys s s1).
    { apply keeps_alter_fresh; [apply keeps_connected|lia]. }
    change (bind my_privateKey _ s1)
      with (announce_tail theirId theirPub (length (conns s)) s1).
    destruct (announce_tail theirId theirPub (length (conns s)) s1)
      as [[r1 s1'] o1] eqn:E.
    intros [= <- <- <-].
    eapply keeps_trans; [exact Hk1|].
    exact (announce_tail_keeps theirId theirPub (length (conns s)) s1 _ _ _ E).
Qed.

Lemma connect_then_skip_keeps theirId s :
  ensures (bind (connectToPeer theirId) (fun _ => ret tt)) s
          (fun _ s' _ => keeps_keys s s').
Proof.
  intros r s' out. unfold bind. rewrite connectToPeer_cases.
  destruct (negb (peer s)); [mleaf; apply keeps_refl|].
  destruct (map_get (connMap s) theirId); mleaf;
    [apply keeps_refl | apply keeps_connected].
Qed.

Lemma case_roomKey_keeps conn msg s :
  ensures (case_roomKey conn msg) s (fun _ s' _ => keeps_keys s s').
Proof.
  intros r s' out. unfold case_roomKey, try_catch. mexec; mleaf;
    apply keeps_same_conns; reflexivity.
Qed.

Lemma case_peerList_keeps conn msg s :
  ensures (case_peerList conn msg) s (fun _ s' _ => keeps_keys s s').
Proof.
  intros r s' out. unfold case_peerList. mrun.
  destruct (get_prop msg "payload") as [e|payload]; [mleaf; apply keeps_refl|].
  unfold lift_sum. destruct (iterate (js_or payload (VArr []))) as [e|l];
    mrun; [mleaf; apply keeps_refl|].
  apply for_each_frames; [apply keeps_refl | apply keeps_trans |].
  intros pid s1 r1 s1' o1. mrun.
  destruct (strict_eq pid (my_peerId s1) || map_has (connMap s1) pid);
    [mleaf; apply keeps_refl|].
  apply connect_then_skip_keeps.
Qed.

Lemma case_newPeer_keeps conn msg s :
  ensures (case_newPeer conn msg) s (fun _ s' _ => keeps_keys s s').
Proof.
  intros r s' out. unfold case_newPeer. mrun.
  destruct (get_prop msg "payload") as [e|payload]; [mleaf; apply keeps_refl|].
  mrun. destruct (get_prop payload "peerId") as [e|newPid]; [mleaf; apply keeps_refl|].
  mrun.
  destruct (negb (map_has (connMap s) newPid) && negb (strict_eq newPid (my_peerId s)));
    [|mleaf; apply keeps_refl].
  apply connect_then_skip_keeps.
Qed.

Lemma case_announceRequest_keeps conn msg s :
  ensures (case_announceRequest conn msg) s (fun _ s' _ => keeps_keys s s').
Proof.
  intros r s' out. unfold case_announceRequest. mexec; mleaf; apply keeps_refl.
Qed.

Lemma case_msg_keeps conn msg s :
  ensures (case_msg conn msg) s (fun _ s' _ => keeps_keys s s').
Proof.
  intros r s' out. unfold case_msg, try_catch. mexec; mleaf;
    apply keeps_same_conns; reflexivity.
Qed.

(** C3, as the code has it: the remote key of a connection follows the
    latest IdentityAnnounce.  A publicKey record whose key imports replaces
    the remote key of the connection it came on, whatever that key was
    before; it touches the key of no other connection.  A record of any
    other type, KeyAgreementAnnounce included, leaves the remote key of
    every existing connection as it was (the 'announce' case stores the key
    only on a connection that it has just made). *)
Theorem remote_key_follows_latest_publicKey (conn : nat) (msg : value) (s : state) :
  (forall payload k,
     get_prop msg "type" = inr (VStr "publicKey") ->
     get_prop msg "payload" = inr payload ->
     importPublicKeyFromBase64 payload = Some k ->
     conn < length (conns s) ->
     conn_theirPub (conn_of (post (handleProtocolMessage conn msg) s) conn) = Some k)
  /\ (forall c,
        c < length (conns s) -> c <> conn ->
        conn_theirPub (conn_of (post (handleProtocolMessage conn msg) s) c)
        = conn_theirPub (conn_of s c))
  /\ (get_prop msg "type" <> inr (VStr "publicKey") ->
      forall c,
        c < length (conns s) ->
        conn_theirPub (conn_of (post (handleProtocolMessage conn msg) s) c)
        = conn_theirPub (conn_of s c)).
Proof.
  split; [|split].
  - intros payload k Hty Hpl Himp Hlt. unfold post.
    rewrite dispatch_publicKey by exact Hty.
    destruct (case_publicKey conn msg s) as [[r s'] out] eqn:E.
    destruct (case_publicKey_keys conn msg s r s' out E) as [_ [_ H]].
    cbn [fst snd]. eapply H; eassumption.
  - intros c Hlt Hne.
    apply (ensures_triple (handleProtocolMessage conn msg) s
             (fun _ s' _ => conn_theirPub (conn_of s' c) = conn_theirPub (conn_of s c))).
    apply handler_cases; try reflexivity; intros Hty r s' out E.
    + destruct (case_publicKey_keys conn msg s r s' out E) as [_ [H _]].
      apply H; assumption.
    + destruct (case_announce_keeps conn msg s r s' out E) as [_ H]. apply H. assumption.
    + destruct (case_roomKey_keeps conn msg s r s' out E) as [_ H]. apply H. assumption.
    + destruct (case_peerList_keeps conn msg s r s' out E) as [_ H]. apply H. assumption.
    + destruct (case_newPeer_keeps conn msg s r s' out E) as [_ H]. apply H. assumption.
    + destruct (case_announceRequest_keeps conn msg s r s' out E) as [_ H]. apply H. assumption.
    + destruct (case_msg_keeps conn msg s r s' out E) as [_ H]. apply H. assumption.
  - intros Hnot c Hlt.
    apply (ensures_triple (handleProtocolMessage conn msg) s
             (fun _ s' _ => conn_theirPub (conn_of s' c) = conn_theirPub (conn_of s c))).
    apply handler_cases; try reflexivity; intros Hty r s' out E.
    + contradiction.
    + destruct (case_announce_keeps conn msg s r s' out E) as [_ H]. apply H. assumption.
    + destruct (case_roomKey_keeps conn msg s r s' out E) as [_ H]. apply H. assumption.
    + destruct (case_peerList_keeps conn msg s r s' out E) as [_ H]. apply H. assumption.
    + destruct (case_newPeer_keeps conn msg s r s' out E) as [_ H]. apply H. assumption.
    + destruct (case_announceRequest_keeps conn msg s r s' out E) as [_ H]. apply H. assumption.
    + destruct (case_msg_keeps conn msg s r s' out E) as [_ H]. apply H. assumption.
Qed.

(** *** The peer's own id and the registry *)

Lemma connected_no_self theirId s :
  strict_eq theirId (my_peerId s) = false ->
  no_self_entry s -> no_self_entry (connected theirId s).
Proof.
  intros Hne Hs. unfold no_self_entry, connected in *.
  cbn [connMap my_peerId with_connMap with_conns].
  rewrite map_get_set_other by exact Hne. exact Hs.
Qed.

(** The guards of the 'newPeer' and 'peerList' cases keep the peer's own id
    out of the registry. *)
Lemma case_newPeer_no_self conn msg s :
  no_self_entry s ->
  ensures (case_newPeer conn msg) s (fun _ s' _ => no_self_entry s').
Proof.
  intros Hs r s' out. unfold case_newPeer. mrun.
  destruct (get_prop msg "payload") as [e|payload]; [mleaf; exact Hs|].
  mrun. destruct (get_prop payload "peerId") as [e|newPid]; [mleaf; exact Hs|].
  mrun. destruct (map_has (connMap s) newPid); cbn [negb andb]; [mleaf; exact Hs|].
  destruct (strict_eq newPid (my_peerId s)) eqn:Hne; cbn [negb]; [mleaf; exact Hs|].
  unfold bind. rewrite connectToPeer_cases.
  destruct (negb (peer s)); [mleaf; exact Hs|].
  destruct (map_get (connMap s) newPid); mleaf;
    [exact Hs | apply connected_no_self; assumption].
Qed.

Lemma case_peerList_no_self conn msg s :
  no_self_entry s ->
  ensures (case_peerList conn msg) s (fun _ s' _ => no_self_entry s').
Proof.
  intros Hs r s' out. unfold case_peerList. mrun.
  destruct (get_prop msg "payload") as [e|payload]; [mleaf; exact Hs|].
  unfold lift_sum. destruct (iterate (js_or payload (VArr []))) as [e|l];
    mrun; [mleaf; exact Hs|].
  revert Hs. intros Hs E. revert Hs. revert E.
  refine (for_each_frames (fun s1 s2 => no_self_entry s1 -> no_self_entry s2) l _
            (fun _ H => H) (fun _ _ _ H1 H2 H => H2 (H1 H)) _ s r s' out).
  intros pid s1 r1 s1' o1. mrun.
  destruct (strict_eq pid (my_peerId s1)) eqn:Hne; cbn [orb]; [mleaf; auto|].
  destruct (map_has (connMap s1) pid); [mleaf; auto|].
  unfold bind. rewrite connectToPeer_cases.
  destruct (negb (peer s1)); [mleaf; auto|].
  destruct (map_get (connMap s1) pid); mleaf; auto.
  intros H. apply connected_no_self; assumption.
Qed.

(** The 'announce' case has no such guard: a creator that is announced its
    own id, with a key that imports, connects to itself and puts the
    connection in the registry under its own id, however the rest of the
    handler ends. *)
Lemma announce_tail_connMap theirId theirPub connToNew s :
  ensures (announce_tail theirId theirPub connToNew) s
          (fun _ s' _ => connMap s' = connMap s /\ my_peerId s' = my_peerId s).
Proof.
  intros r s' out. unfold announce_tail. mrun.
  destruct (my_ecdhPair s) as [[priv pub]|]; [|mleaf; auto].
  mrun. destruct (deriveSharedAESKey priv (Some theirPub)); [|mleaf; auto].
  mrun. destruct (match roomKey s with
                  | Some k0 => exportAESKeyToBase64 k0
                  | None => None
                  end); [|mleaf; auto].
  mrun. rewrite announce_loop. mleaf. auto.
Qed.

Lemma announce_registers_sender conn msg theirId payload K theirPub s :
  isCreator s = true ->
  peer s = true ->
  get_prop msg "type" = inr (VStr "announce") ->
  get_prop msg "from" = inr theirId ->
  get_prop msg "payload" = inr payload ->
  get_prop payload "pubKey" = inr K ->
  importPublicKeyFromBase64 K = Some theirPub ->
  map_get (connMap s) theirId = None ->
  strict_eq theirId theirId = true ->
  map_get (connMap (post (handleProtocolMessage conn msg) s)) theirId
  = Some (length (conns s)).
Proof.
  intros Hcreator Hpeer Hty Hfrom Hpl HK Himp Hc Hrefl.
  apply (ensures_triple (handleProtocolMessage conn msg) s
           (fun _ s' _ => map_get (connMap s') theirId = Some (length (conns s)))).
  intros r s' out. rewrite dispatch_announce by exact Hty.
  unfold case_announce. mrun. rewrite Hcreator. cbn [negb]. mrun.
  rewrite Hfrom. mrun. rewrite Hpl. mrun. rewrite HK. mrun. rewrite Himp. mrun.
  rewrite Hc. rewrite bind_assoc.
  rewrite (bind_returned _ _ _ _ _ _ (connectToPeer_new theirId s Hpeer Hc)).
  rewrite bind_assoc, bind_update_conn, bind_ret.
  set (s1 := with_conns (alter (set_theirPub theirPub) (length (conns s)))
                        (connected theirId s)).
  change (bind my_privateKey _ s1)
    with (announce_tail theirId theirPub (length (conns s)) s1).
  destruct (announce_tail theirId theirPub (length (conns s)) s1)
    as [[r1 s1'] o1] eqn:E.
  unfold prepend. cbn [fst snd]. intros [= <- <- <-].
  destruct (announce_tail_connMap theirId theirPub (length (conns s)) s1 _ _ _ E)
    as [Hm _].
  rewrite Hm. unfold s1, connected. cbn [connMap with_conns with_connMap].
  apply map_get_set_same. exact Hrefl.
Qed.

(** *** The registry refers to the heap in every reachable state *)

Lemma In_map_set m k0 c0 k c :
  In (k, c) (map_set m k0 c0) -> In (k, c) m \/ c = c0.
Proof.
  induction m as [|[k' c'] m IH]; simpl.
  - intros [[= <- <-]|[]]. right. reflexivity.
  - destruct (strict_eq k' k0).
    + intros [[= <- <-]|H]; [right; reflexivity | left; right; exact H].
    + intros [H|H]; [left; left; exact H|].
      destruct (IH H) as [H'|H']; [left; right; exact H' | right; exact H'].
Qed.

Lemma In_map_delete m k0 x : In x (map_delete m k0) -> In x m.
Proof.
  induction m as [|[k' c'] m IH]; simpl; [auto|].
  destruct (strict_eq k' k0); [intros H; right; exact H|].
  intros [H|H]; [left; exact H | right; auto].
Qed.

Lemma wf_same s s' :
  connMap s' = connMap s -> length (conns s') = length (conns s) ->
  registry_wf s -> registry_wf s'.
Proof. intros Hm Hl Hwf k c. rewrite Hm, Hl. apply Hwf. Qed.

Lemma wf_alloc x s : registry_wf s -> registry_wf (with_conns (fun h => h ++ [x]) s).
Proof.
  intros Hwf k c H. cbn [conns connMap with_conns] in *. rewrite length_app.
  specialize (Hwf k c H). simpl. lia.
Qed.

Lemma wf_register k c s :
  c < length (conns s) -> registry_wf s ->
  registry_wf (with_connMap (fun m => map_set m k c) s).
Proof.
  intros Hc Hwf k' c' H. cbn [conns connMap with_connMap] in *.
  destruct (In_map_set _ _ _ _ _ H) as [H'| ->]; [eapply Hwf; exact H' | exact Hc].
Qed.

Lemma wf_unregister k s :
  registry_wf s -> registry_wf (with_connMap (fun m => map_delete m k) s).
Proof.
  intros Hwf k' c' H. cbn [conns connMap with_connMap] in *.
  eapply Hwf, In_map_delete, H.
Qed.

Lemma wf_connected theirId s : registry_wf s -> registry_wf (connected theirId s).
Proof.
  intros Hwf. unfold connected. apply wf_register.
  - cbn [conns with_conns]. rewrite length_app. simpl. lia.
  - apply wf_alloc. exact Hwf.
Qed.

(** A state that differs from a well-formed one in neither the registry nor
    the size of the heap. *)
Ltac wf_leaf :=
  mleaf; intros Hwf;
  first [ exact Hwf
        | eapply wf_same; only 3: exact Hwf;
          [ reflexivity | cbn [conns with_conns with_connMap with_roomKey
                                with_draws with_ticks];
                          rewrite ?length_alter; reflexivity ] ].

Lemma connectToPeer_wf theirId s :
  ensures (connectToPeer theirId) s (fun _ s' _ => registry_wf s -> registry_wf s').
Proof.
  intros r s' out. rewrite connectToPeer_cases.
  destruct (negb (peer s)); [wf_leaf|].
  destruct (map_get (connMap s) theirId); [wf_leaf|].
  mleaf. apply wf_connected.
Qed.

Lemma connect_then_skip_wf theirId s :
  ensures (bind (connectToPeer theirId) (fun _ => ret tt)) s
          (fun _ s' _ => registry_wf s -> registry_wf s').
Proof.
  intros r s' out. unfold bind.
  destruct (connectToPeer theirId s) as [[[c|e] s1] out1] eqn:E; mleaf;
    exact (connectToPeer_wf theirId s _ _ _ E).
Qed.

Lemma announce_tail_wf theirId theirPub connToNew s :
  ensures (announce_tail theirId theirPub connToNew) s
          (fun _ s' _ => registry_wf s -> registry_wf s').
Proof.
  intros r s' out. unfold announce_tail. mrun.
  destruct (my_ecdhPair s) as [[priv pub]|]; [|wf_leaf].
  mrun. destruct (deriveSharedAESKey priv (Some theirPub)); [|wf_leaf].
  mrun. destruct (match roomKey s with
                  | Some k0 => exportAESKeyToBase64 k0
                  | None => None
                  end); [|wf_leaf].
  mrun. rewrite announce_loop. wf_leaf.
Qed.

Lemma case_announce_wf conn msg s :
  ensures (case_announce conn msg) s (fun _ s' _ => registry_wf s -> registry_wf s').
Proof.
  intros r s' out. unfold case_announce. mrun.
  destruct (isCreator s); cbn [negb]; [|wf_leaf].
  mrun. destruct (get_prop msg "from") as [e|theirId]; [wf_leaf|].
  mrun. destruct (get_prop msg "payload") as [e|payload]; [wf_leaf|].
  mrun. destruct (get_prop payload "pubKey") as [e|b64]; [wf_leaf|].
  mrun. destruct (importPublicKeyFromBase64 b64) as [theirPub|]; [|wf_leaf].
  mrun. destruct (map_get (connMap s) theirId) as [c|] eqn:Hc.
  - rewrite bind_ret. exact (announce_tail_wf theirId theirPub c s r s' out).
  - rewrite bind_assoc. unfold bind at 1. rewrite connectToPeer_cases.
    destruct (negb (peer s)); [wf_leaf|].
    rewrite Hc. cbv beta iota. rewrite bind_assoc, bind_update_conn, bind_ret.
    set (s1 := with_conns (alter (set_theirPub theirPub) (length (conns s)))
                          (connected theirId s)).
    change (bind my_privateKey _ s1)
      with (announce_tail theirId theirPub (length (conns s)) s1).
    destruct (announce_tail theirId theirPub (length (conns s)) s1)
      as [[r1 s1'] o1] eqn:E.
    intros [= <- <- <-]. intros Hwf.
    apply (announce_tail_wf theirId theirPub (length (conns s)) s1 _ _ _ E).
    unfold s1. eapply wf_same; only 3: (apply wf_connected; exact Hwf).
    + reflexivity.
    + cbn [conns with_conns]. apply length_alter.
Qed.

Lemma handleProtocolMessage_wf conn msg s :
  ensures (handleProtocolMessage conn msg) s
          (fun _ s' _ => registry_wf s -> registry_wf s').
Proof.
  apply handler_cases; auto; intros Hty r s' out.
  - unfold case_publicKey. mexec; wf_leaf.
  - apply case_announce_wf.
  - unfold case_roomKey, try_catch. mexec; wf_leaf.
  - unfold case_peerList. mrun.
    destruct (get_prop msg "payload") as [e|payload]; [wf_leaf|].
    unfold lift_sum. destruct (iterate (js_or payload (VArr []))) as [e|l];
      mrun; [wf_leaf|].
    refine (for_each_frames (fun s1 s2 => registry_wf s1 -> registry_wf s2) l _
              (fun _ H => H) (fun _ _ _ H1 H2 H => H2 (H1 H)) _ s r s' out).
    intros pid s1 r1 s1' o1. mrun.
    destruct (strict_eq pid (my_peerId s1) || map_has (connMap s1) pid); [wf_leaf|].
    apply connect_then_skip_wf.
  - unfold case_newPeer. mrun.
    destruct (get_prop msg "payload") as [e|payload]; [wf_leaf|].
    mrun. destruct (get_prop payload "peerId") as [e|newPid]; [wf_leaf|].
    mrun.
    destruct (negb (map_has (connMap s) newPid) && negb (strict_eq newPid (my_peerId s)));
      [|wf_leaf].
    apply connect_then_skip_wf.
  - unfold case_announceRequest. mexec; wf_leaf.
  - unfold case_msg, try_catch. mexec; wf_leaf.
Qed.

Lemma prepend_inv {A} l (x : outcome A * state * list effect) r s' out :
  prepend l x = (r, s', out) -> exists out', x = (r, s', out').
Proof. destruct x as [[r0 s0] o0]. unfold prepend. simpl. intros [= <- <- <-]. eauto. Qed.

Lemma run_open_listener_wf c h s :
  ensures (run_open_listener c h) s (fun _ s' _ =>
    registry_wf s /\ c < length (conns s) ->
    registry_wf s' /\ c < length (conns s')).
Proof.
  intros r s' out. destruct h; simpl; unfold console_log, send_json.
  - mexec. mleaf. auto.
  - rewrite bind_emit. mrun. rewrite bind_emit. mrun. rewrite notifyParticipants_run.
    mleaf. intros [Hwf Hc]. split; [|exact Hc]. apply wf_register; assumption.
  - mexec. mleaf. auto.
  - mexec. mleaf. auto.
Qed.

Lemma run_data_listener_wf c raw h s :
  ensures (run_data_listener c raw h) s (fun _ s' _ => registry_wf s -> registry_wf s').
Proof.
  intros r s' out. unfold run_data_listener.
  assert (Hp : exists o, parseSafe raw s = (Returned (fst o), s, snd o)).
  { destruct raw as [fields|items|text]; simpl.
    - exists (VObj fields, []). reflexivity.
    - exists (VArr items, []). reflexivity.
    - destruct (JSON_parse text) as [v|].
      + exists (v, []). reflexivity.
      + exists (VNull, [parse_diagnostic]). unfold console_warn. rewrite bind_emit.
        reflexivity. }
  destruct Hp as [[msg o] Hp]. cbn [fst snd] in Hp.
  rewrite (bind_returned _ _ _ _ _ _ Hp).
  intros H. apply prepend_inv in H. destruct H as [out' H]. revert H.
  destruct (truthy msg); [|wf_leaf].
  unfold spawn, try_catch.
  destruct (handleProtocolMessage c msg s) as [[[[]|e] s1] out1] eqn:E;
    mleaf; exact (handleProtocolMessage_wf c msg s _ _ _ E).
Qed.

Lemma run_close_listener_wf c h s :
  ensures (run_close_listener c h) s (fun _ s' _ => registry_wf s -> registry_wf s').
Proof.
  intros r s' out. unfold run_close_listener, console_log.
  rewrite bind_emit. mrun. rewrite notifyParticipants_run. mleaf.
  apply wf_unregister.
Qed.

Lemma handle_wf ev s :
  ensures (handle ev) s (fun _ s' _ => registry_wf s -> registry_wf s').
Proof.
  intros r s' out. destruct ev as [|remote| |c|c raw|c|obj|]; simpl.
  - (* peer 'open' *)
    unfold on_peer_open, console_log. rewrite bind_emit. mrun.
    destruct (isCreator s).
    + rewrite bind_emit. mrun. wf_leaf.
    + rewrite bind_emit. mrun. intros H.
      apply prepend_inv in H. destruct H as [o1 H].
      apply prepend_inv in H. destruct H as [o2 H].
      exact (connect_then_skip_wf (roomId s) s _ _ _ H).
  - (* peer 'connection' *)
    unfold on_peer_connection.
    rewrite (bind_returned _ _ s (length (conns s))
               (with_conns (fun h => h ++ [new_connection (VStr remote)]) s) [])
      by reflexivity.
    rewrite prepend_nil. unfold console_log. rewrite bind_emit. mrun.
    change (isCreator (with_conns _ s)) with (isCreator s).
    destruct (isCreator s); unfold handleConnection; mleaf; intros Hwf.
    + eapply wf_same; only 3: (apply wf_alloc; exact Hwf).
      * reflexivity.
      * cbn [conns with_conns]. apply length_alter.
    + apply wf_alloc. exact Hwf.
  - (* peer 'error' *)
    unfold on_peer_error. mexec; wf_leaf.
  - (* connection 'open' *)
    mrun. destruct (conn_settled (conn_of s c));
      [intros [= <- <- <-] Hwf; exact Hwf|].
    mrun. set (s1 := with_conns (alter (set_open true) c) s).
    intros E Hwf.
    assert (Hwf1 : registry_wf s1).
    { eapply wf_same; only 3: exact Hwf; [reflexivity|].
      unfold s1. cbn [conns with_conns]. apply length_alter. }
    destruct (Nat.lt_ge_cases c (length (conns s1))) as [Hc|Hc].
    + refine (proj1 (for_each_frames
                (fun s2 s3 => registry_wf s2 /\ c < length (conns s2) ->
                              registry_wf s3 /\ c < length (conns s3))
                _ _ (fun _ H => H) (fun _ _ _ H1 H2 H => H2 (H1 H))
                (run_open_listener_wf c) s1 r s' out E (conj Hwf1 Hc))).
    + unfold conn_of in E. rewrite lookup_ge_None_2 in E by exact Hc.
      simpl in E. injection E as <- <- <-. exact Hwf1.
  - (* connection 'data' *)
    mrun.
    refine (for_each_frames (fun s1 s2 => registry_wf s1 -> registry_wf s2) _ _
              (fun _ H => H) (fun _ _ _ H1 H2 H => H2 (H1 H))
              (run_data_listener_wf c raw) s r s' out).
  - (* connection 'close' *)
    mrun. set (s1 := with_conns (alter (set_open false) c) s).
    intros E Hwf.
    assert (Hwf1 : registry_wf s1).
    { eapply wf_same; only 3: exact Hwf; [reflexivity|].
      unfold s1. cbn [conns with_conns]. apply length_alter. }
    exact (for_each_frames (fun s2 s3 => registry_wf s2 -> registry_wf s3) _ _
             (fun _ H => H) (fun _ _ _ H1 H2 H => H2 (H1 H))
             (run_close_listener_wf c) s1 r s' out E Hwf1).
  - (* sendPlain *)
    destruct (roomKey s) as [k|] eqn:Hrk.
    + rewrite (sendPlain_with_roomKey obj k s Hrk). intros [= <- <- <-] Hwf.
      eapply wf_same; only 3: exact Hwf; reflexivity.
    + rewrite (sendPlain_without_roomKey obj s Hrk). intros [= <- <- <-] Hwf.
      exact Hwf.
  - (* announceToCreator *)
    unfold announceToCreator. mrun.
    assert (Hconnect :
      ensures (bind (connectToPeer (roomId s))
                    (fun c => update_conn c (add_onOpen OpenAnnounce))) s
              (fun _ s' _ => registry_wf s -> registry_wf s')).
    { intros r1 s1 o1. unfold bind.
      destruct (connectToPeer (roomId s) s) as [[[c|e] s2] out2] eqn:E;
        mleaf; intros Hwf.
      - eapply wf_same; only 3: exact (connectToPeer_wf _ s _ _ _ E Hwf);
          [reflexivity|]. cbn [conns with_conns]. apply length_alter.
      - exact (connectToPeer_wf _ s _ _ _ E Hwf). }
    destruct (map_get (connMap s) (roomId s)) as [c|]; [|apply Hconnect].
    destruct (conn_open (conn_of s c)); [|apply Hconnect].
    unfold send_json. wf_leaf.
Qed.

Lemma session_start_registry opts : connMap (session_start opts) = [].
Proof.
  unfold session_start, init. rewrite bind_draw.
  destruct (String.eqb (opt_role opts) "create"); mrun; reflexivity.
Qed.

(** The registry of a reachable state refers to connections of its heap. *)
Lemma reachable_registry_wf opts s : reachable opts s -> registry_wf s.
Proof.
  intros [evs <-].
  assert (H0 : registry_wf (session_start opts)).
  { intros k c H. rewrite session_start_registry in H. destruct H. }
  revert H0. generalize (session_start opts) as s0.
  induction evs as [|ev evs IH]; intros s0 H0; [exact H0|].
  rewrite run_cons. cbn [fst]. apply IH.
  unfold post. destruct (handle ev s0) as [[r s1] out1] eqn:E. cbn [fst snd].
  exact (handle_wf ev s0 _ _ _ E H0).
Qed.

(* ===================================================================== *)
(** ** Further properties of peer.js *)
(* ===================================================================== *)

(** *** Identity, registry and room key across the handlers *)

Lemma same_identity_refl s : same_identity s s.
Proof. unfold same_identity. repeat split; reflexivity. Qed.

Lemma same_identity_trans s1 s2 s3 :
  same_identity s1 s2 -> same_identity s2 s3 -> same_identity s1 s3.
Proof.
  unfold same_identity. intros H1 H2.
  destruct H1 as (A1 & A2 & A3 & A4 & A5 & A6 & A7 & A8 & A9 & A10).
  destruct H2 as (B1 & B2 & B3 & B4 & B5 & B6 & B7 & B8 & B9 & B10).
  repeat split; congruence.
Qed.

Lemma steps_trans m1 m2 m3 :
  registry_steps m1 m2 -> registry_steps m2 m3 -> registry_steps m1 m3.
Proof.
  induction 1; intros H3; [exact H3 | eapply steps_set; eauto | eapply steps_delete; eauto].
Qed.

Lemma stable_key_refl s : stable_key s s.
Proof. split; [split; [apply same_identity_refl | apply steps_refl] | reflexivity]. Qed.

Lemma stable_key_trans s1 s2 s3 : stable_key s1 s2 -> stable_key s2 s3 -> stable_key s1 s3.
Proof.
  intros [[I1 R1] K1] [[I2 R2] K2]. split; [split|].
  - eapply same_identity_trans; eauto.
  - eapply steps_trans; eauto.
  - congruence.
Qed.

Lemma stable_refl s : stable s s.
Proof. apply stable_key_refl. Qed.

Lemma stable_trans s1 s2 s3 : stable s1 s2 -> stable s2 s3 -> stable s1 s3.
Proof.
  intros [I1 R1] [I2 R2]. split.
  - eapply same_identity_trans; eauto.
  - eapply steps_trans; eauto.
Qed.

Lemma stable_key_same s s' :
  same_identity s s' -> connMap s' = connMap s -> roomKey s' = roomKey s ->
  stable_key s s'.
Proof.
  intros Hi Hm Hk. split; [split; [exact Hi|] | exact Hk]. rewrite Hm. apply steps_refl.
Qed.

Lemma stable_key_connected theirId s : stable_key s (connected theirId s).
Proof.
  split; [split|]; [unfold same_identity; repeat split; reflexivity | | reflexivity].
  unfold connected. cbn [connMap with_connMap with_conns].
  eapply steps_set. apply steps_refl.
Qed.

Ltac sk_leaf :=
  mleaf;
  first [ apply stable_key_refl
        | apply stable_key_same;
          [unfold same_identity; repeat split; reflexivity | reflexivity | reflexivity] ].

Lemma connectToPeer_stable theirId s :
  ensures (connectToPeer theirId) s (fun _ s' _ => stable_key s s').
Proof.
  intros r s' out. rewrite connectToPeer_cases.
  destruct (negb (peer s)); [sk_leaf|].
  destruct (map_get (connMap s) theirId); [sk_leaf|].
  mleaf. apply stable_key_connected.
Qed.

Lemma connect_then_skip_stable theirId s :
  ensures (bind (connectToPeer theirId) (fun _ => ret tt)) s
          (fun _ s' _ => stable_key s s').
Proof.
  intros r s' out. unfold bind.
  destruct (connectToPeer theirId s) as [[[c|e] s1] out1] eqn:E; mleaf;
    exact (connectToPeer_stable theirId s _ _ _ E).
Qed.

Lemma announce_tail_stable theirId theirPub connToNew s :
  ensures (announce_tail theirId theirPub connToNew) s (fun _ s' _ => stable_key s s').
Proof.
  intros r s' out. unfold announce_tail. mrun.
  destruct (my_ecdhPair s) as [[priv pub]|]; [|sk_leaf].
  mrun. destruct (deriveSharedAESKey priv (Some theirPub)); [|sk_leaf].
  mrun. destruct (match roomKey s with
                  | Some k0 => exportAESKeyToBase64 k0
                  | None => None
                  end); [|sk_leaf].
  mrun. rewrite announce_loop. sk_leaf.
Qed.

Lemma case_announce_stable conn msg s :
  ensures (case_announce conn msg) s (fun _ s' _ => stable_key s s').
Proof.
  intros r s' out. unfold case_announce. mrun.
  destruct (isCreator s); cbn [negb]; [|sk_leaf].
  mrun. destruct (get_prop msg "from") as [e|theirId]; [sk_leaf|].
  mrun. destruct (get_prop msg "payload") as [e|payload]; [sk_leaf|].
  mrun. destruct (get_prop payload "pubKey") as [e|b64]; [sk_leaf|].
  mrun. destruct (importPublicKeyFromBase64 b64) as [theirPub|]; [|sk_leaf].
  mrun. destruct (map_get (connMap s) theirId) as [c|] eqn:Hc.
  - rewrite bind_ret. exact (announce_tail_stable theirId theirPub c s r s' out).
  - rewrite bind_assoc. unfold bind at 1. rewrite connectToPeer_cases.
    destruct (negb (peer s)); [sk_leaf|].
    rewrite Hc. cbv beta iota. rewrite bind_assoc, bind_update_conn, bind_ret.
    set (s1 := with_conns (alter (set_theirPub theirPub) (length (conns s)))
                          (connected theirId s)).
    change (bind my_privateKey _ s1)
      with (announce_tail theirId theirPub (length (conns s)) s1).
    destruct (announce_tail theirId theirPub (length (conns s)) s1)
      as [[r1 s1'] o1] eqn:E.
    intros [= <- <- <-].
    eapply stable_key_trans;
      [|exact (announce_tail_stable theirId theirPub (length (conns s)) s1 _ _ _ E)].
    eapply stable_key_trans; [apply (stable_key_connected theirId s)|].
    apply stable_key_same;
      [unfold same_identity; repeat split; reflexivity | reflexivity | reflexivity].
Qed.

Lemma case_peerList_stable conn msg s :
  ensures (case_peerList conn msg) s (fun _ s' _ => stable_key s s').
Proof.
  intros r s' out. unfold case_peerList. mrun.
  destruct (get_prop msg "payload") as [e|payload]; [sk_leaf|].
  unfold lift_sum. destruct (iterate (js_or payload (VArr []))) as [e|l];
    mrun; [sk_leaf|].
  apply for_each_frames; [apply stable_key_refl | apply stable_key_trans |].
  intros pid s1 r1 s1' o1. mrun.
  destruct (strict_eq pid (my_peerId s1) || map_has (connMap s1) pid); [sk_leaf|].
  apply connect_then_skip_stable.
Qed.

Lemma case_newPeer_stable conn msg s :
  ensures (case_newPeer conn msg) s (fun _ s' _ => stable_key s s').
Proof.
  intros r s' out. unfold case_newPeer. mrun.
  destruct (get_prop msg "payload") as [e|payload]; [sk_leaf|].
  mrun. destruct (get_prop payload "peerId") as [e|newPid]; [sk_leaf|].
  mrun.
  destruct (negb (map_has (connMap s) newPid) && negb (strict_eq newPid (my_peerId s)));
    [|sk_leaf].
  apply connect_then_skip_stable.
Qed.

Lemma case_roomKey_stable conn msg s :
  ensures (case_roomKey conn msg) s (fun _ s' _ => stable s s').
Proof.
  intros r s' out. unfold case_roomKey, try_catch. mexec; mleaf;
    (split; [unfold same_identity; repeat split; reflexivity | apply steps_refl]).
Qed.

(** Every record type but 'roomKey' leaves the room key alone. *)
Lemma handleProtocolMessage_stable_key conn msg s :
  get_prop msg "type" <> inr (VStr "roomKey") ->
  ensures (handleProtocolMessage conn msg) s (fun _ s' _ => stable_key s s').
Proof.
  intros Hnot. apply handler_cases; try (intros; apply stable_key_refl);
    intros Hty r s' out.
  - unfold case_publicKey. mexec; sk_leaf.
  - apply case_announce_stable.
  - contradiction.
  - apply case_peerList_stable.
  - apply case_newPeer_stable.
  - unfold case_announceRequest. mexec; sk_leaf.
  - unfold case_msg, try_catch. mexec; sk_leaf.
Qed.

Lemma handleProtocolMessage_stable conn msg s :
  ensures (handleProtocolMessage conn msg) s (fun _ s' _ => stable s s').
Proof.
  intros r s' out E.
  destruct (get_prop msg "type") as [e|ty] eqn:Hty.
  - apply (handleProtocolMessage_stable_key conn msg s) in E; [apply E|].
    rewrite Hty. discriminate.
  - destruct (strict_eq ty (VStr "roomKey")) eqn:Hrk.
    + apply strict_eq_eq in Hrk. subst ty.
      rewrite dispatch_roomKey in E by exact Hty.
      exact (case_roomKey_stable conn msg s _ _ _ E).
    + apply (handleProtocolMessage_stable_key conn msg s) in E; [apply E|].
      rewrite Hty. intros [= ->]. simpl in Hrk. discriminate.
Qed.

(** *** The same across the events *)

Lemma parseSafe_result raw :
  exists msg o, forall s, parseSafe raw s = (Returned msg, s, o).
Proof.
  destruct raw as [fields|items|text]; simpl.
  - exists (VObj fields), []. reflexivity.
  - exists (VArr items), []. reflexivity.
  - destruct (JSON_parse text) as [v|].
    + exists v, []. reflexivity.
    + exists VNull, [parse_diagnostic]. intros s. unfold console_warn.
      rewrite bind_emit. reflexivity.
Qed.

Lemma run_data_listener_stable c raw h s :
  ensures (run_data_listener c raw h) s (fun _ s' _ => stable s s').
Proof.
  intros r s' out. unfold run_data_listener.
  destruct (parseSafe_result raw) as [msg [o Hp]].
  rewrite (bind_returned _ _ _ _ _ _ (Hp s)).
  intros H. apply prepend_inv in H. destruct H as [out' H]. revert H.
  destruct (truthy msg); [|mleaf; apply stable_refl].
  unfold spawn, try_catch.
  destruct (handleProtocolMessage c msg s) as [[[[]|e] s1] out1] eqn:E;
    mleaf; exact (handleProtocolMessage_stable c msg s _ _ _ E).
Qed.

Lemma run_data_listener_stable_key c raw h s :
  (forall msg o, parseSafe raw s = (Returned msg, s, o) ->
                 get_prop msg "type" <> inr (VStr "roomKey")) ->
  ensures (run_data_listener c raw h) s (fun _ s' _ => stable_key s s').
Proof.
  intros Hnot r s' out. unfold run_data_listener.
  destruct (parseSafe_result raw) as [msg [o Hp]].
  rewrite (bind_returned _ _ _ _ _ _ (Hp s)).
  intros H. apply prepend_inv in H. destruct H as [out' H]. revert H.
  destruct (truthy msg); [|sk_leaf].
  unfold spawn, try_catch.
  destruct (handleProtocolMessage c msg s) as [[[[]|e] s1] out1] eqn:E;
    mleaf; exact (handleProtocolMessage_stable_key c msg s (Hnot msg o (Hp s)) _ _ _ E).
Qed.

Lemma run_open_listener_stable c h s :
  ensures (run_open_listener c h) s (fun _ s' _ => stable_key s s').
Proof.
  intros r s' out. destruct h; simpl; unfold console_log, send_json.
  - mexec. sk_leaf.
  - rewrite bind_emit. mrun. rewrite bind_emit. mrun. rewrite notifyParticipants_run.
    mleaf. split; [split|]; [unfold same_identity; repeat split; reflexivity | | reflexivity].
    cbn [connMap with_connMap]. eapply steps_set. apply steps_refl.
  - mexec. sk_leaf.
  - mexec. sk_leaf.
Qed.

Lemma run_close_listener_stable c h s :
  ensures (run_close_listener c h) s (fun _ s' _ => stable_key s s').
Proof.
  intros r s' out. unfold run_close_listener, console_log.
  rewrite bind_emit. mrun. rewrite notifyParticipants_run. mleaf.
  split; [split|]; [unfold same_identity; repeat split; reflexivity | | reflexivity].
  cbn [connMap with_connMap]. eapply steps_delete. apply steps_refl.
Qed.

(** The events that can change the room key are the peer's 'open' and a
    datum that parses into a 'roomKey' record; the others keep it. *)
Lemma handle_stable_key ev s :
  ev <> PeerOpen ->
  (forall c raw msg o,
     ev = ConnData c raw -> parseSafe raw s = (Returned msg, s, o) ->
     get_prop msg "type" <> inr (VStr "roomKey")) ->
  ensures (handle ev) s (fun _ s' _ => stable_key s s').
Proof.
  intros Hopen Hdata r s' out. destruct ev as [|remote| |c|c raw|c|obj|]; simpl.
  - contradiction.
  - unfold on_peer_connection.
    rewrite (bind_returned _ _ s (length (conns s))
               (with_conns (fun h => h ++ [new_connection (VStr remote)]) s) [])
      by reflexivity.
    rewrite prepend_nil. unfold console_log. rewrite bind_emit. mrun.
    change (isCreator (with_conns _ s)) with (isCreator s).
    destruct (isCreator s); unfold handleConnection; sk_leaf.
  - unfold on_peer_error. mexec; sk_leaf.
  - mrun. destruct (conn_settled (conn_of s c)); [sk_leaf|].
    mrun. intros E.
    eapply stable_key_trans;
      [|exact (for_each_frames stable_key _ _ stable_key_refl stable_key_trans
                 (run_open_listener_stable c) _ r s' out E)].
    apply stable_key_same;
      [unfold same_identity; repeat split; reflexivity | reflexivity | reflexivity].
  - mrun. intros E.
    destruct (parseSafe_result raw) as [msg [o Hp]].
    assert (Hnot : get_prop msg "type" <> inr (VStr "roomKey"))
      by (eapply (Hdata c raw msg o eq_refl); apply Hp).
    refine (for_each_frames stable_key _ _ stable_key_refl stable_key_trans _ s r s' out E).
    intros h s1. apply run_data_listener_stable_key.
    intros msg' o' Hp'. rewrite Hp in Hp'. injection Hp' as <- <-. exact Hnot.
  - mrun. intros E.
    eapply stable_key_trans;
      [|exact (for_each_frames stable_key _ _ stable_key_refl stable_key_trans
                 (run_close_listener_stable c) _ r s' out E)].
    apply stable_key_same;
      [unfold same_identity; repeat split; reflexivity | reflexivity | reflexivity].
  - destruct (roomKey s) as [k|] eqn:Hrk.
    + rewrite (sendPlain_with_roomKey obj k s Hrk). intros [= <- <- <-].
      apply stable_key_same;
        [unfold same_identity; repeat split; reflexivity | reflexivity | reflexivity].
    + rewrite (sendPlain_without_roomKey obj s Hrk). intros [= <- <- <-].
      apply stable_key_refl.
  - unfold announceToCreator. mrun.
    assert (Hconnect :
      ensures (bind (connectToPeer (roomId s))
                    (fun c => update_conn c (add_onOpen OpenAnnounce))) s
              (fun _ s' _ => stable_key s s')).
    { intros r1 s1 o1. unfold bind.
      destruct (connectToPeer (roomId s) s) as [[[c|e] s2] out2] eqn:E; mleaf.
      - eapply stable_key_trans; [exact (connectToPeer_stable _ s _ _ _ E)|].
        apply stable_key_same;
          [unfold same_identity; repeat split; reflexivity | reflexivity | reflexivity].
      - exact (connectToPeer_stable _ s _ _ _ E). }
    destruct (map_get (connMap s) (roomId s)) as [c|]; [|apply Hconnect].
    destruct (conn_open (conn_of s c)); [|apply Hconnect].
    unfold send_json. sk_leaf.
Qed.

Lemma handle_stable ev s : ensures (handle ev) s (fun _ s' _ => stable s s').
Proof.
  intros r s' out E.
  destruct ev as [|remote| |c|c raw|c|obj|];
    try (apply (handle_stable_key _ s) in E; [apply E | discriminate | discriminate]).
  - revert E. simpl. unfold on_peer_open, console_log. rewrite bind_emit. mrun.
    destruct (isCreator s).
    + rewrite bind_emit. mrun. mleaf.
      split; [unfold same_identity; repeat split; reflexivity | apply steps_refl].
    + rewrite bind_emit. mrun. intros H.
      apply prepend_inv in H. destruct H as [o1 H].
      apply prepend_inv in H. destruct H as [o2 H].
      apply (connect_then_skip_stable (roomId s) s _ _ _ H).
  - revert E. simpl. mrun.
    refine (for_each_frames stable _ _ stable_refl stable_trans _ s r s' out).
    intros h s1. apply run_data_listener_stable.
Qed.

Lemma run_stable evs s : stable s (fst (run evs s)).
Proof.
  revert s. induction evs as [|ev evs IH]; intros s; [apply stable_refl|].
  rewrite run_cons. cbn [fst]. eapply stable_trans; [|apply IH].
  unfold post. destruct (handle ev s) as [[r s1] out1] eqn:E. cbn [fst snd].
  exact (handle_stable ev s _ _ _ E).
Qed.

(** *** The registry is a Map: its keys are distinct *)

Lemma map_get_delete_none m k k' :
  map_get m k' = None -> map_get (map_delete m k) k' = None.
Proof.
  induction m as [|[k0 c0] m IH]; simpl; [auto|].
  destruct (strict_eq k0 k') eqn:E'; [discriminate|].
  intros H. destruct (strict_eq k0 k); [exact H|].
  simpl. rewrite E'. auto.
Qed.

Lemma keys_distinct_set m k c : keys_distinct m -> keys_distinct (map_set m k c).
Proof.
  induction m as [|[k0 c0] m IH]; simpl; [auto|].
  intros [H0 Hm]. destruct (strict_eq k0 k) eqn:E; simpl.
  - auto.
  - split; [|auto]. rewrite map_get_set_other; [exact H0|].
    rewrite strict_eq_sym. exact E.
Qed.

Lemma keys_distinct_delete m k : keys_distinct m -> keys_distinct (map_delete m k).
Proof.
  induction m as [|[k0 c0] m IH]; simpl; [auto|].
  intros [H0 Hm]. destruct (strict_eq k0 k); [exact Hm|].
  simpl. split; [apply map_get_delete_none; exact H0 | auto].
Qed.

Lemma steps_keys_distinct m m' :
  registry_steps m m' -> keys_distinct m -> keys_distinct m'.
Proof.
  induction 1; intros H0; [exact H0 | |].
  - apply IHregistry_steps, keys_distinct_set, H0.
  - apply IHregistry_steps, keys_distinct_delete, H0.
Qed.

Lemma reachable_keys_distinct opts s : reachable opts s -> keys_distinct (connMap s).
Proof.
  intros [evs <-].
  eapply steps_keys_distinct; [apply (run_stable evs (session_start opts))|].
  rewrite session_start_registry. exact I.
Qed.

Lemma map_get_delete_same m k :
  keys_distinct m -> map_get (map_delete m k) k = None.
Proof.
  induction m as [|[k0 c0] m IH]; simpl; [auto|].
  intros [H0 Hm]. destruct (strict_eq k0 k) eqn:E.
  - apply strict_eq_eq in E. subst k0. exact H0.
  - simpl. rewrite E. auto.
Qed.

Lemma map_get_delete_other m k k' :
  strict_eq k k' = false -> map_get (map_delete m k) k' = map_get m k'.
Proof.
  intros Hne. induction m as [|[k0 c0] m IH]; simpl; [reflexivity|].
  destruct (strict_eq k0 k) eqn:E.
  - destruct (strict_eq k0 k') eqn:E'; [|reflexivity].
    assert (k0 = k) by (apply strict_eq_eq; exact E).
    assert (k0 = k') by (apply strict_eq_eq; exact E').
    subst k k'. congruence.
  - simpl. rewrite IH. reflexivity.
Qed.

Lemma map_delete_absent m k : map_get m k = None -> map_delete m k = m.
Proof.
  induction m as [|[k0 c0] m IH]; simpl; [reflexivity|].
  destruct (strict_eq k0 k); [discriminate|]. intros H. rewrite IH by exact H. reflexivity.
Qed.

(** X1: no event changes who the peer is: after any run of events the peer
    object, the peer id, the key pair and its export, the user name, the
    room id, the role and the three callbacks are those of the start. *)
Theorem events_keep_identity (evs : list event) (s : state) :
  same_identity s (fst (run evs s)).
Proof. exact (proj1 (run_stable evs s)). Qed.

(** X2: the room key is written in two places only.  A record of any type
    but 'roomKey' leaves it as it was, and so does every event other than
    the peer's 'open' and the arrival of a datum; a datum that parses into
    a record of another type leaves it as well. *)
Theorem room_key_written_by_roomKey_record_only :
  (forall conn msg (s : state),
     get_prop msg "type" <> inr (VStr "roomKey") ->
     roomKey (post (handleProtocolMessage conn msg) s) = roomKey s)
  /\ (forall ev (s : state),
        ev <> PeerOpen -> (forall c raw, ev <> ConnData c raw) ->
        roomKey (post (handle ev) s) = roomKey s)
  /\ (forall c raw msg o (s : state),
        parseSafe raw s = (Returned msg, s, o) ->
        get_prop msg "type" <> inr (VStr "roomKey") ->
        roomKey (post (handle (ConnData c raw)) s) = roomKey s).
Proof.
  split; [|split].
  - intros conn msg s Hnot. unfold post.
    destruct (handleProtocolMessage conn msg s) as [[r s'] out] eqn:E. cbn [fst snd].
    exact (proj2 (handleProtocolMessage_stable_key conn msg s Hnot _ _ _ E)).
  - intros ev s Hopen Hdata. unfold post.
    destruct (handle ev s) as [[r s'] out] eqn:E. cbn [fst snd].
    refine (proj2 (handle_stable_key ev s Hopen _ _ _ _ E)).
    intros c raw msg o Hev. destruct (Hdata c raw Hev).
  - intros c raw msg o s Hp Hnot. unfold post.
    destruct (handle (ConnData c raw) s) as [[r s'] out] eqn:E. cbn [fst snd].
    refine (proj2 (handle_stable_key (ConnData c raw) s _ _ _ _ _ E)); [discriminate|].
    intros c' raw' msg' o' [= <- <-] Hp'. rewrite Hp in Hp'.
    injection Hp' as <- <-. exact Hnot.
Qed.

Lemma conn_of_set_open b c s :
  conn_peer (conn_of (with_conns (alter (set_open b) c) s) c) = conn_peer (conn_of s c)
  /\ conn_onClose (conn_of (with_conns (alter (set_open b) c) s) c)
     = conn_onClose (conn_of s c).
Proof.
  destruct (Nat.lt_ge_cases c (length (conns s))) as [Hlt|Hge].
  - rewrite conn_of_alter_same by exact Hlt. split; reflexivity.
  - unfold conn_of. cbn [conns with_conns].
    rewrite !lookup_ge_None_2; [split; reflexivity | exact Hge |].
    rewrite length_alter. exact Hge.
Qed.

Lemma run_close_listener_run c h s :
  run_close_listener c h s
  = (Returned tt,
     with_connMap (fun m => map_delete m (conn_peer (conn_of s c))) s,
     Console ConsoleLog (match h with
                         | CloseOutgoing => "connection closed"
                         | CloseIncoming => "incoming conn closed"
                         end)
     :: participants_notice
          (with_connMap (fun m => map_delete m (conn_peer (conn_of s c))) s)).
Proof.
  unfold run_close_listener, console_log. rewrite bind_emit. mrun.
  rewrite notifyParticipants_run. reflexivity.
Qed.

Lemma close_loop c l s :
  keys_distinct (connMap s) ->
  forall r s' out,
    for_each l (run_close_listener c) s = (r, s', out) ->
    r = Returned tt
    /\ conns s' = conns s
    /\ my_peerId s' = my_peerId s
    /\ (l <> [] ->
        connMap s' = map_delete (connMap s) (conn_peer (conn_of s c))
        /\ (onParticipantChange s = true ->
            In (CallOnParticipants
                  (map_keys (map_delete (connMap s) (conn_peer (conn_of s c)))
                   ++ [my_peerId s])) out))
    /\ (l = [] -> s' = s).
Proof.
  revert s. induction l as [|h l IH]; intros s Hd r s' out; simpl.
  - intros [= <- <- <-]. split; [reflexivity|]. split; [reflexivity|].
    split; [reflexivity|]. split; [intros Hx; destruct (Hx eq_refl) | reflexivity].
  - rewrite (bind_returned _ _ _ _ _ _ (run_close_listener_run c h s)).
    set (p := conn_peer (conn_of s c)).
    set (s1 := with_connMap (fun m => map_delete m p) s).
    intros E. apply prepend_inv in E as E'. destruct E' as [out' E'].
    assert (Hd1 : keys_distinct (connMap s1)) by (apply keys_distinct_delete; exact Hd).
    destruct (IH s1 Hd1 _ _ _ E') as (Hr & Hc & Hme & Hne & Hnil).
    split; [exact Hr|]. split; [exact Hc|]. split; [exact Hme|].
    split; [|discriminate].
    intros _. split.
    + destruct l as [|h' l'].
      * rewrite (Hnil eq_refl). reflexivity.
      * destruct (Hne ltac:(discriminate)) as [Hm _]. rewrite Hm.
        change (conn_of s1 c) with (conn_of s c). fold p.
        apply map_delete_absent. apply map_get_delete_same. exact Hd.
    + intros Hcb. unfold prepend in E. rewrite E' in E. cbn [fst snd] in E.
      injection E as <-. right. apply in_or_app. left.
      unfold participants_notice.
      change (onParticipantChange s1) with (onParticipantChange s). rewrite Hcb.
      left. reflexivity.
Qed.

(** X3: when a connection that has a 'close' listener closes, the entry
    under its remote id leaves the registry, whichever connection that entry
    referred to, and every other entry stays; with an observer set, the
    remaining ids followed by the own id are shown.  The precondition holds
    in every reachable state ([reachable_keys_distinct]). *)
Theorem close_unregisters_peer (c : nat) (s : state) :
  keys_distinct (connMap s) ->
  conn_onClose (conn_of s c) <> [] ->
  result (handle (ConnClose c)) s = Returned tt
  /\ connMap (post (handle (ConnClose c)) s)
     = map_delete (connMap s) (conn_peer (conn_of s c))
  /\ map_get (connMap (post (handle (ConnClose c)) s)) (conn_peer (conn_of s c)) = None
  /\ (forall k, strict_eq (conn_peer (conn_of s c)) k = false ->
        map_get (connMap (post (handle (ConnClose c)) s)) k = map_get (connMap s) k)
  /\ (onParticipantChange s = true ->
      In (CallOnParticipants
            (map_keys (map_delete (connMap s) (conn_peer (conn_of s c)))
             ++ [my_peerId s]))
         (effects (handle (ConnClose c)) s)).
Proof.
  intros Hd Hl. unfold result, post, effects.
  destruct (handle (ConnClose c) s) as [[r s'] out] eqn:E. cbn [fst snd].
  revert E. simpl. mrun.
  set (s1 := with_conns (alter (set_open false) c) s).
  destruct (conn_of_set_open false c s) as [Hp Hcl]. fold s1 in Hp, Hcl.
  rewrite Hcl. intros E.
  destruct (close_loop c _ s1 Hd _ _ _ E) as (Hr & _ & _ & Hne & _).
  destruct (Hne Hl) as [Hm Hn]. rewrite Hp in Hm, Hn.
  change (connMap s1) with (connMap s) in Hm, Hn.
  split; [exact Hr|]. split; [exact Hm|]. rewrite Hm.
  split; [apply map_get_delete_same; exact Hd|].
  split; [intros k Hk; apply map_get_delete_other; exact Hk|].
  exact Hn.
Qed.

(** X4: announceToCreator.  With an open connection to the creator in the
    registry, the announce record goes out on it at once and nothing else
    happens.  With a registered connection that is not open, a listener is
    added to that same connection and no second one is made; with none, one
    is made by connectToPeer and gets the listener.  The listener sends the
    announce record when the connection opens.  Before init, with nothing
    registered, the call throws "Peer not initialized" and changes nothing. *)
Theorem announceToCreator_spec (s : state) :
  (forall c, map_get (connMap s) (roomId s) = Some c ->
             conn_open (conn_of s c) = true ->
             announceToCreator s
             = (Returned tt, s, [ConnSend c (JSON_stringify (announce_record s))]))
  /\ (forall c, map_get (connMap s) (roomId s) = Some c ->
                conn_open (conn_of s c) = false ->
                peer s = true ->
                announceToCreator s
                = (Returned tt, with_conns (alter (add_onOpen OpenAnnounce) c) s, []))
  /\ (map_get (connMap s) (roomId s) = None ->
      peer s = true ->
      announceToCreator s
      = (Returned tt,
         with_conns (alter (add_onOpen OpenAnnounce) (length (conns s)))
                    (connected (roomId s) s),
         PeerConnect (roomId s) :: participants_notice (connected (roomId s) s)))
  /\ (map_get (connMap s) (roomId s) = None ->
      peer s = false ->
      announceToCreator s = (Thrown (Error "Peer not initialized"), s, []))
  /\ (forall c s1,
        run_open_listener c OpenAnnounce s1
        = (Returned tt, s1, [ConnSend c (JSON_stringify (announce_record s1))])).
Proof.
  split; [|split; [|split; [|split]]].
  - intros c Hc Ho. unfold announceToCreator. mrun. rewrite Hc, Ho. reflexivity.
  - intros c Hc Ho Hp. unfold announceToCreator. mrun. rewrite Hc, Ho.
    rewrite (bind_returned _ _ _ _ _ _ (connectToPeer_existing _ c s Hp Hc)).
    reflexivity.
  - intros Hc Hp. unfold announceToCreator. mrun. rewrite Hc.
    rewrite (bind_returned _ _ _ _ _ _ (connectToPeer_new _ s Hp Hc)).
    unfold prepend, update_conn, modify. cbn [fst snd]. rewrite app_nil_r. reflexivity.
  - intros Hc Hp. unfold announceToCreator. mrun. rewrite Hc.
    apply bind_thrown. rewrite connectToPeer_cases, Hp. reflexivity.
  - intros c s1. simpl. unfold send_json. mrun. reflexivity.
Qed.

Lemma append_longer (a b : string) : b <> EmptyString -> (a ++ b)%string <> a.
Proof.
  intros Hb. induction a as [|x a IH]; simpl.
  - exact Hb.
  - intros [= H]. exact (IH H).
Qed.

(** X5: init.  A creator takes the room id as its peer id; a joiner takes
    the room id, a colon and a random suffix, which is never the room id, so
    that the creator can be reached under the room id.  Either way the
    session starts with an empty registry, no room key, the exported public
    key of a new pair, and "Anon" for an empty user name. *)
Theorem init_identity (opts : init_opts) :
  (opt_role opts = "create" ->
     isCreator (session_start opts) = true
     /\ my_peerId (session_start opts) = VStr (opt_roomId opts))
  /\ (opt_role opts <> "create" ->
        isCreator (session_start opts) = false
        /\ my_peerId (session_start opts)
           = VStr (opt_roomId opts ++ ":" ++ randSuffix 1)
        /\ my_peerId (session_start opts) <> roomId (session_start opts))
  /\ roomId (session_start opts) = VStr (opt_roomId opts)
  /\ peer (session_start opts) = true
  /\ connMap (session_start opts) = []
  /\ conns (session_start opts) = []
  /\ roomKey (session_start opts) = None
  /\ my_ecdhPair (session_start opts) = Some (generateECDHKeyPair 0)
  /\ my_pubB64 (session_start opts)
     = VStr (exportPublicKeyToBase64 (snd (generateECDHKeyPair 0)))
  /\ my_username (session_start opts)
     = VStr (if String.eqb (opt_username opts) "" then "Anon" else opt_username opts).
Proof.
  unfold session_start, init. rewrite bind_draw.
  destruct (String.eqb (opt_role opts) "create") eqn:Hrole; mrun;
    unfold console_log, emit; cbn [fst snd];
    cbn [isCreator my_peerId roomId peer connMap conns roomKey my_ecdhPair
         my_pubB64 my_username with_draws initial_state draws].
  - split; [intros _; split; reflexivity|].
    split; [intros Hne; apply String.eqb_eq in Hrole; contradiction|].
    repeat (split; [reflexivity|]).
    unfold js_or. simpl truthy. destruct (String.eqb (opt_username opts) ""); reflexivity.
  - split; [intros He; apply String.eqb_neq in Hrole; contradiction|].
    split.
    + intros _. split; [reflexivity|]. split; [reflexivity|].
      intros [= H]. revert H. apply append_longer. discriminate.
    + repeat (split; [reflexivity|]).
      unfold js_or. simpl truthy. destruct (String.eqb (opt_username opts) ""); reflexivity.
Qed.

(** X6: the peer's 'open' event.  A creator takes a new room key from the
    next draw of the random source, whatever key it held, and connects to
    nobody.  A joiner that has no connection to the creator makes one under
    the room id and shows the participants; its room key stays. *)
Theorem peer_open_by_role (s : state) :
  (isCreator s = true ->
     handle PeerOpen s
     = (Returned tt,
        with_roomKey (Some (generateAESKey (draws s))) (with_draws (S (draws s)) s),
        [Console ConsoleLog "peer open"; Console ConsoleLog "isCreator";
         Console ConsoleLog "Generated roomKey (creator)"]))
  /\ (isCreator s = false -> peer s = true ->
      map_get (connMap s) (roomId s) = None ->
      handle PeerOpen s
      = (Returned tt, connected (roomId s) s,
         [Console ConsoleLog "peer open"; Console ConsoleLog "joiner";
          PeerConnect (roomId s)] ++ participants_notice (connected (roomId s) s)))
  /\ (isCreator s = false -> roomKey (post (handle PeerOpen) s) = roomKey s).
Proof.
  split; [|split].
  - intros Hc. simpl. unfold on_peer_open, console_log. rewrite bind_emit. mrun.
    rewrite Hc. rewrite bind_emit. mrun. reflexivity.
  - intros Hc Hp Hm. simpl. unfold on_peer_open, console_log. rewrite bind_emit. mrun.
    rewrite Hc. rewrite bind_emit. mrun.
    rewrite (bind_returned _ _ _ _ _ _ (connectToPeer_new _ s Hp Hm)).
    unfold prepend, ret. cbn [fst snd app]. rewrite app_nil_r. reflexivity.
  - intros Hc. unfold post.
    destruct (handle PeerOpen s) as [[r s'] out] eqn:E. cbn [fst snd].
    revert E. simpl. unfold on_peer_open, console_log. rewrite bind_emit. mrun.
    rewrite Hc. rewrite bind_emit. mrun. intros H.
    apply prepend_inv in H. destruct H as [o1 H].
    apply prepend_inv in H. destruct H as [o2 H].
    exact (proj2 (connect_then_skip_stable (roomId s) s _ _ _ H)).
Qed.

(** X7: the two guards on the role.  A joiner ignores a KeyAgreementAnnounce
    altogether; a creator ignores an announceRequest; a joiner answers an
    announceRequest with its announce record, on the connection the request
    came on, and changes nothing. *)
Theorem announce_is_for_the_creator (conn : nat) (msg : value) (s : state) :
  (isCreator s = false -> get_prop msg "type" = inr (VStr "announce") ->
     handleProtocolMessage conn msg s = (Returned tt, s, []))
  /\ (isCreator s = true -> get_prop msg "type" = inr (VStr "announceRequest") ->
        handleProtocolMessage conn msg s = (Returned tt, s, []))
  /\ (isCreator s = false -> get_prop msg "type" = inr (VStr "announceRequest") ->
        handleProtocolMessage conn msg s
        = (Returned tt, s, [ConnSend conn (JSON_stringify (announce_record s))])).
Proof.
  split; [|split]; intros Hc Hty.
  - rewrite dispatch_announce by exact Hty. unfold case_announce. mrun.
    rewrite Hc. reflexivity.
  - rewrite dispatch_announceRequest by exact Hty. unfold case_announceRequest. mrun.
    rewrite Hc. reflexivity.
  - rewrite dispatch_announceRequest by exact Hty. unfold case_announceRequest. mrun.
    rewrite Hc. reflexivity.
Qed.

(** X8: a datum that parses, but into a falsy value (null, false, 0, the
    empty string), fails the test [if (msg)] of the 'data' listener: nothing
    is logged, handleProtocolMessage is not called, the state stays. *)
Theorem falsy_datum_is_dropped_silently (c : nat) (text : string) (v : value) (s : state) :
  JSON_parse text = Some v ->
  truthy v = false ->
  (forall h, run_data_listener c (RawText text) h s = (Returned tt, s, []))
  /\ handle (ConnData c (RawText text)) s = (Returned tt, s, []).
Proof.
  intros Hp Hv.
  assert (Hl : forall h, run_data_listener c (RawText text) h s = (Returned tt, s, [])).
  { intros h. unfold run_data_listener, parseSafe. rewrite Hp. mrun. rewrite Hv.
    reflexivity. }
  split; [exact Hl|].
  simpl. mrun. apply for_each_skip. intros h _. apply Hl.
Qed.

(** X9: the 'publicKey' case.  When the key of the record does not import,
    the handler throws at the await before it has written anything, and the
    'data' listener, which does not await the handler, is left with a
    rejected promise: the state is the one before.  When the key imports,
    the connection gets the key and, as the remote name, the username of
    the record, or its [from] when the username is missing or empty;
    nothing else changes. *)
Theorem identity_announce_outcomes (conn : nat) (msg payload : value) (s : state) :
  get_prop msg "type" = inr (VStr "publicKey") ->
  get_prop msg "payload" = inr payload ->
  (importPublicKeyFromBase64 payload = None ->
     handleProtocolMessage conn msg s = (Thrown CryptoError, s, [])
     /\ (forall raw h,
           parseSafe raw s = (Returned msg, s, []) ->
           run_data_listener conn raw h s
           = (Returned tt, s, [UnhandledRejection CryptoError])))
  /\ (forall k username from,
        importPublicKeyFromBase64 payload = Some k ->
        get_prop msg "username" = inr username ->
        get_prop msg "from" = inr from ->
        handleProtocolMessage conn msg s
        = (Returned tt,
           with_conns (alter (set_theirName (js_or username from)) conn)
             (with_conns (alter (set_theirPub k) conn) s), [])
        /\ (conn < length (conns s) ->
            conn_theirName (conn_of (post (handleProtocolMessage conn msg) s) conn)
            = js_or username from)
        /\ connMap (post (handleProtocolMessage conn msg) s) = connMap s
        /\ roomKey (post (handleProtocolMessage conn msg) s) = roomKey s).
Proof.
  intros Hty Hpl. split.
  - intros Himp.
    assert (Hh : handleProtocolMessage conn msg s = (Thrown CryptoError, s, [])).
    { rewrite dispatch_publicKey by exact Hty. unfold case_publicKey. mrun.
      rewrite Hpl, Himp. reflexivity. }
    split; [exact Hh|].
    intros raw h Hp. unfold run_data_listener.
    rewrite (bind_returned _ _ _ _ _ _ Hp), prepend_nil.
    rewrite (get_prop_truthy msg "type" _ Hty) by discriminate.
    unfold spawn, try_catch. rewrite Hh. reflexivity.
  - intros k username from Himp Hu Hf.
    assert (Hh : handleProtocolMessage conn msg s
                 = (Returned tt,
                    with_conns (alter (set_theirName (js_or username from)) conn)
                      (with_conns (alter (set_theirPub k) conn) s), [])).
    { rewrite dispatch_publicKey by exact Hty. unfold case_publicKey. mrun.
      rewrite Hpl, Himp. mrun. rewrite Hu. mrun. rewrite Hf. reflexivity. }
    split; [exact Hh|]. unfold post. rewrite Hh. cbn [fst snd].
    split; [|split; reflexivity].
    intros Hlt. rewrite conn_of_alter_same
      by (cbn [conns with_conns]; rewrite length_alter; exact Hlt).
    reflexivity.
Qed.

(** X10: connectToPeer and the opening of the connection it has made.  The
    new connection is the next object of the heap and goes into the registry
    under the remote id at once, before it is open; when it opens, the peer
    sends its publicKey record (its id, its exported public key, its user
    name) on it and the registry stays as it is. *)
Theorem outbound_open_sends_identity (theirId : value) (s : state) :
  peer s = true ->
  map_get (connMap s) theirId = None ->
  strict_eq theirId theirId = true ->
  result (connectToPeer theirId) s = Returned (length (conns s))
  /\ map_get (connMap (post (connectToPeer theirId) s)) theirId = Some (length (conns s))
  /\ conn_open (conn_of (post (connectToPeer theirId) s) (length (conns s))) = false
  /\ handle (ConnOpen (length (conns s))) (post (connectToPeer theirId) s)
     = (Returned tt,
        with_conns (alter (set_open true) (length (conns s)))
                   (post (connectToPeer theirId) s),
        identity_sent (length (conns s)) s).
Proof.
  intros Hp Hm Hk. unfold result, post.
  rewrite (connectToPeer_new _ s Hp Hm). cbn [fst snd].
  split; [reflexivity|].
  split; [unfold connected; cbn [connMap with_connMap with_conns];
          apply map_get_set_same; exact Hk|].
  split; [unfold connected, conn_of; cbn [conns with_connMap with_conns];
          rewrite list_lookup_middle by reflexivity; reflexivity|].
  rewrite open_event_on_fresh
    by (unfold connected, conn_of; cbn [conns with_connMap with_conns];
        rewrite list_lookup_middle by reflexivity; reflexivity).
  mrun.
  assert (Hc : conn_of (with_conns (alter (set_open true) (length (conns s)))
                          (connected theirId s)) (length (conns s))
               = set_open true (outgoing_connection theirId)).
  { rewrite conn_of_alter_same.
    - unfold connected, conn_of. cbn [conns with_connMap with_conns].
      rewrite list_lookup_middle by reflexivity. reflexivity.
    - unfold connected. cbn [conns with_connMap with_conns].
      rewrite length_app. simpl. lia. }
  rewrite Hc. cbn [conn_onOpen set_open outgoing_connection add_onClose add_onData
                   add_onOpen new_connection app for_each].
  unfold run_open_listener, console_log, send_json.
  repeat (first [progress mrun | rewrite bind_emit]). reflexivity.
Qed.

(** X11: the 'roomKey' case is all or nothing and never throws.  Either
    every step has gone through and the room key is the imported one, with
    the line "Received roomKey and imported (joiner)."; or a step has
    failed (no remote key on the connection, a payload without iv or
    ciphertext, a blob that does not authenticate, a key that does not
    import), the state is the one before and the error is logged. *)
Theorem roomKey_record_all_or_nothing (conn : nat) (msg : value) (s : state) :
  get_prop msg "type" = inr (VStr "roomKey") ->
  (exists k, handleProtocolMessage conn msg s
             = (Returned tt, with_roomKey (Some k) s, [roomKey_imported]))
  \/ handleProtocolMessage conn msg s = (Returned tt, s, [roomKey_failed]).
Proof.
  intros Hty. rewrite dispatch_roomKey by exact Hty.
  unfold case_roomKey, try_catch, roomKey_imported, roomKey_failed.
  unfold console_log, console_error. mrun.
  unfold my_privateKey. mrun.
  destruct (my_ecdhPair s) as [[priv pub]|]; [|right; reflexivity]. mrun.
  destruct (deriveSharedAESKey priv (conn_theirPub (conn_of s conn))) as [shared|];
    [|right; reflexivity].
  cbn [await]. mrun.
  destruct (get_prop msg "payload") as [e|payload]; [right; reflexivity|].
  cbn [lift_sum]. mrun.
  destruct (get_prop payload "iv") as [e|iv]; [right; reflexivity|].
  cbn [lift_sum]. mrun.
  destruct (get_prop payload "ciphertext") as [e|ct]; [right; reflexivity|].
  cbn [lift_sum]. mrun.
  destruct (decryptAESGCM shared iv ct) as [pt|]; [|right; reflexivity].
  cbn [await]. mrun.
  destruct (importAESKeyFromBase64 (VStr pt)) as [k|]; [|right; reflexivity].
  cbn [await]. mrun. left. exists k. reflexivity.
Qed.

(** X12: the key handshake end to end.  The creator encrypts the exported
    room key under the key it derives with the newcomer (the 'announce'
    case).  A peer that derives the same key from its own private key and
    the remote key of the connection decrypts the record, imports the raw
    key and takes it as its room key. *)
Theorem room_key_handshake (HL : PlatformLaws P)
    (conn n : nat) (msg : value) (rk derived k' : AESKey) (raw : list byte)
    (priv : ECDHPrivateKey) (pub : ECDHPublicKey) (roomRaw : string) (s : state) :
  exportAESKeyToBase64 rk = Some roomRaw ->
  subtle_exportKey_AES rk = Some raw ->
  subtle_importKey_AES raw = Some k' ->
  get_prop msg "type" = inr (VStr "roomKey") ->
  get_prop msg "payload" = inr (encryptAESGCM n derived roomRaw) ->
  my_ecdhPair s = Some (priv, pub) ->
  deriveSharedAESKey priv (conn_theirPub (conn_of s conn)) = Some derived ->
  handleProtocolMessage conn msg s
  = (Returned tt, with_roomKey (Some k') s, [roomKey_imported]).
Proof.
  intros Hexp Hraw Himp Hty Hpl Hpair Hder.
  assert (Hb64 : roomRaw = ab2b64 raw).
  { unfold exportAESKeyToBase64 in Hexp. rewrite Hraw in Hexp. simpl in Hexp.
    injection Hexp as <-. reflexivity. }
  rewrite dispatch_roomKey by exact Hty.
  unfold case_roomKey, try_catch, roomKey_imported, console_log. mrun.
  unfold my_privateKey. mrun. rewrite Hpair. mrun. rewrite Hder. cbn [await]. mrun.
  rewrite Hpl. cbn [lift_sum]. mrun.
  rewrite encryptAESGCM_iv. cbn [lift_sum]. mrun.
  rewrite encryptAESGCM_ciphertext. cbn [lift_sum]. mrun.
  assert (Hnb : starts_with_bom roomRaw = false)
    by (rewrite Hb64; apply btoa_no_bom).
  rewrite (decrypt_encryptAESGCM HL n derived roomRaw _ _ Hnb
             (encryptAESGCM_iv _ _ _) (encryptAESGCM_ciphertext _ _ _)).
  cbn [await]. mrun.
  assert (Hk : importAESKeyFromBase64 (VStr roomRaw) = Some k').
  { rewrite Hb64. unfold importAESKeyFromBase64.
    rewrite b642ab_ab2b64 by exact HL. exact Himp. }
  rewrite Hk. cbn [await]. mrun. reflexivity.
Qed.

Lemma In_singleton {A} (x y : A) : In x [y] -> x = y.
Proof. intros [H|[]]. symmetry. exact H. Qed.

(** X13: the 'msg' case is contained.  Whatever the envelope holds, the
    handler returns normally and leaves the connections, the registry and
    the room key as they were; it has at most one effect, which is a
    diagnostic or a call of the observer.  The observer is called only with
    a payload that authenticated under the room key: the envelope's blob
    decrypts under it and the plaintext parses into the payload handed
    over. *)
Theorem envelope_handling_is_contained (conn : nat) (msg : value) (s : state) :
  get_prop msg "type" = inr (VStr "msg") ->
  result (handleProtocolMessage conn msg) s = Returned tt
  /\ conns (post (handleProtocolMessage conn msg) s) = conns s
  /\ connMap (post (handleProtocolMessage conn msg) s) = connMap s
  /\ roomKey (post (handleProtocolMessage conn msg) s) = roomKey s
  /\ length (effects (handleProtocolMessage conn msg) s) <= 1
  /\ (forall e, In e (effects (handleProtocolMessage conn msg) s) -> envelope_effect e)
  /\ (forall m, In (CallOnMessage m) (effects (handleProtocolMessage conn msg) s) ->
        exists k payload iv ct pt obj from ts,
          roomKey s = Some k
          /\ get_prop msg "payload" = inr payload
          /\ get_prop payload "iv" = inr iv
          /\ get_prop payload "ciphertext" = inr ct
          /\ decryptAESGCM k iv ct = Some pt
          /\ JSON_parse pt = Some obj
          /\ get_prop msg "from" = inr from
          /\ get_prop msg "ts" = inr ts
          /\ m = delivered from (delivery_ts ts s) obj).
Proof.
  intros Hty. unfold result, post, effects. rewrite dispatch_msg by exact Hty.
  unfold case_msg, try_catch, console_warn, envelope_effect,
         no_roomKey_diagnostic, decrypt_failed_diagnostic.
  destruct (get_prop_defined msg "type" _ "payload" Hty) as [payload Hpl].
  destruct (get_prop_defined msg "type" _ "from" Hty) as [from Hfrom].
  destruct (get_prop_defined msg "type" _ "ts" Hty) as [ts Hts].
  mrun. rewrite Hpl. mrun.
  destruct (roomKey s) as [k|] eqn:Hk.
  2: { unfold emit. cbn [fst snd].
       repeat (split; [first [reflexivity | assumption | solve [cbn [length]; lia]]|]). split.
       - intros e He. apply In_singleton in He. auto.
       - intros m He. apply In_singleton in He. discriminate. }
  mrun.
  destruct (get_prop payload "iv") as [e0|iv] eqn:Hiv.
  { unfold emit. cbn [fst snd app].
    repeat (split; [first [reflexivity | assumption | solve [cbn [length]; lia]]|]). split.
    - intros e He. apply In_singleton in He. auto.
    - intros m He. apply In_singleton in He. discriminate. }
  mrun.
  destruct (get_prop payload "ciphertext") as [e0|ct] eqn:Hct.
  { unfold emit. cbn [fst snd app].
    repeat (split; [first [reflexivity | assumption | solve [cbn [length]; lia]]|]). split.
    - intros e He. apply In_singleton in He. auto.
    - intros m He. apply In_singleton in He. discriminate. }
  mrun.
  destruct (decryptAESGCM k iv ct) as [pt|] eqn:Hdec.
  2: { unfold emit. cbn [fst snd app].
       repeat (split; [first [reflexivity | assumption | solve [cbn [length]; lia]]|]). split.
       - intros e He. apply In_singleton in He. auto.
       - intros m He. apply In_singleton in He. discriminate. }
  destruct (JSON_parse pt) as [obj|] eqn:Hjson.
  2: { mrun. unfold emit. cbn [fst snd app].
       repeat (split; [first [reflexivity | assumption | solve [cbn [length]; lia]]|]). split.
       - intros e He. apply In_singleton in He. auto.
       - intros m He. apply In_singleton in He. discriminate. }
  mrun.
  destruct (onMessageCallback s) eqn:Hcb.
  2: { unfold ret. cbn [fst snd].
       repeat (split; [first [reflexivity | assumption | solve [cbn [length]; lia]]|]). split; intros ? []. }
  mrun. rewrite Hfrom. mrun. rewrite Hts.
  unfold delivery_ts.
  destruct (truthy ts) eqn:Ht; mrun; unfold emit; cbn [fst snd];
    (repeat (split; [first [reflexivity | assumption | solve [cbn [length]; lia]]|])); (split;
      [ intros e He; apply In_singleton in He; right; right; eauto
      | intros m He; apply In_singleton in He; injection He as ->;
        exists k, payload, iv, ct, pt, obj, from, ts;
        rewrite Ht; repeat split; first [assumption | reflexivity] ]).
Qed.

(** X14: a chat message end to end.  Every record that sendPlain puts on a
    connection is the envelope { type: 'msg', from, ts, payload }.  At a peer
    that holds the same room key, the envelope is decrypted and the observer
    gets the sender's id, the sender's timestamp and the object that was
    sent, for an object that survives JSON serialization. *)
Theorem chat_round_trip (HL : PlatformLaws P)
    (obj : value) (k : AESKey) (c : nat) (s1 s2 : state) :
  roomKey s1 = Some k ->
  roomKey s2 = Some k ->
  onMessageCallback s2 = true ->
  json_roundtrips obj ->
  (forall c' data, In (ConnSend c' data) (effects (sendPlain obj) s1) ->
                   data = JSON_stringify (envelope_of s1 k obj)
                   /\ conn_open (conn_of s1 c') = true)
  /\ handleProtocolMessage c (envelope_of s1 k obj) s2
     = (Returned tt,
        after_delivery (VNum (Date_now (ticks s1))) s2,
        [CallOnMessage
           (delivered (my_peerId s1)
                      (delivery_ts (VNum (Date_now (ticks s1))) s2) obj)])
  /\ (json_roundtrips (envelope_of s1 k obj) ->
      forall h,
        run_data_listener c (RawText (JSON_stringify (envelope_of s1 k obj))) h s2
        = (Returned tt,
           after_delivery (VNum (Date_now (ticks s1))) s2,
           [CallOnMessage
              (delivered (my_peerId s1)
                         (delivery_ts (VNum (Date_now (ticks s1))) s2) obj)])).
Proof.
  intros Hk1 Hk2 Hcb Hobj.
  assert (Hh : handleProtocolMessage c (envelope_of s1 k obj) s2
               = (Returned tt,
                  after_delivery (VNum (Date_now (ticks s1))) s2,
                  [CallOnMessage
                     (delivered (my_peerId s1)
                                (delivery_ts (VNum (Date_now (ticks s1))) s2) obj)])).
  { rewrite dispatch_msg by reflexivity.
    eapply case_msg_delivers; try eassumption; try reflexivity.
    eapply decrypt_encryptAESGCM;
      [exact HL | apply JSON_stringify_no_bom | reflexivity | reflexivity]. }
  split; [|split; [exact Hh|]].
  - intros c' data Hin. unfold effects in Hin.
    rewrite (sendPlain_with_roomKey obj k s1 Hk1) in Hin. cbn [snd] in Hin.
    apply in_app_or in Hin. destruct Hin as [Hin|Hin].
    + apply in_map_iff in Hin. destruct Hin as [[k0 c0] [He Hin]].
      injection He as <- <-. split; [reflexivity|].
      unfold open_entries in Hin. apply list_elem_of_In, list_elem_of_filter in Hin.
      exact (proj1 Hin).
    + unfold loopback in Hin. destruct (onMessageCallback s1).
      * apply In_singleton in Hin. discriminate.
      * destruct Hin.
  - intros Henv h. unfold run_data_listener, parseSafe.
    unfold json_roundtrips in Henv. rewrite Henv. mrun.
    cbn [truthy envelope_of msg_record].
    unfold spawn, try_catch.
    change (VObj [("type", VStr "msg"); ("from", my_peerId s1);
                  ("ts", VNum (Date_now (ticks s1)));
                  ("payload", encryptAESGCM (draws s1) k (JSON_stringify obj))])
      with (envelope_of s1 k obj).
    rewrite Hh. reflexivity.
Qed.

Lemma case_roomKey_without_payload conn msg s :
  get_prop msg "payload" = inr VUndef ->
  case_roomKey conn msg s = (Returned tt, s, [roomKey_failed]).
Proof.
  intros Hpl. unfold case_roomKey, try_catch, roomKey_failed, console_error. mrun.
  destruct (my_ecdhPair s) as [[priv pub]|]; [|reflexivity]. mrun.
  destruct (deriveSharedAESKey priv (conn_theirPub (conn_of s conn))); [|reflexivity].
  mrun. rewrite Hpl. mrun. reflexivity.
Qed.

(** X15: a record that has lost its payload.  At a creator, an announce
    without payload throws a TypeError before anything is written, and so
    does a newPeer at any peer; a peerList without payload is an empty list;
    a roomKey or a msg without payload is caught by the handler's own
    try/catch and logged.  In every case the state is the one before. *)
Theorem record_without_payload (conn : nat) (msg : value) (s : state) :
  get_prop msg "payload" = inr VUndef ->
  (get_prop msg "type" = inr (VStr "announce") -> isCreator s = true ->
     handleProtocolMessage conn msg s = (Thrown TypeError, s, []))
  /\ (get_prop msg "type" = inr (VStr "newPeer") ->
        handleProtocolMessage conn msg s = (Thrown TypeError, s, []))
  /\ (get_prop msg "type" = inr (VStr "peerList") ->
        handleProtocolMessage conn msg s = (Returned tt, s, []))
  /\ (get_prop msg "type" = inr (VStr "roomKey") ->
        handleProtocolMessage conn msg s = (Returned tt, s, [roomKey_failed]))
  /\ (get_prop msg "type" = inr (VStr "msg") -> roomKey s <> None ->
        handleProtocolMessage conn msg s = (Returned tt, s, [decrypt_failed_diagnostic]))
  /\ (forall raw h e,
        parseSafe raw s = (Returned msg, s, []) ->
        truthy msg = true ->
        handleProtocolMessage conn msg s = (Thrown e, s, []) ->
        run_data_listener conn raw h s = (Returned tt, s, [UnhandledRejection e])).
Proof.
  intros Hpl. repeat split.
  - intros Hty Hc. rewrite dispatch_announce by exact Hty.
    unfold case_announce. mrun. rewrite Hc. cbn [negb].
    destruct (get_prop_defined msg "type" _ "from" Hty) as [from Hfrom].
    mrun. rewrite Hfrom. mrun. rewrite Hpl. mrun. reflexivity.
  - intros Hty. rewrite dispatch_newPeer by exact Hty.
    unfold case_newPeer. mrun. rewrite Hpl. mrun. reflexivity.
  - intros Hty. rewrite dispatch_peerList by exact Hty.
    unfold case_peerList. mrun. rewrite Hpl. reflexivity.
  - intros Hty.
    rewrite dispatch_roomKey by exact Hty.
    apply case_roomKey_without_payload. exact Hpl.
  - intros Hty Hk. rewrite dispatch_msg by exact Hty.
    unfold case_msg, try_catch, console_warn. mrun. rewrite Hpl. mrun.
    destruct (roomKey s) as [k|]; [|contradiction]. mrun. reflexivity.
  - intros raw h e Hp Ht Hh. unfold run_data_listener.
    rewrite (bind_returned _ _ _ _ _ _ Hp), prepend_nil. rewrite Ht.
    unfold spawn, try_catch. rewrite Hh. reflexivity.
Qed.

Lemma registry_extends_refl s : registry_extends s s.
Proof. intros k c H. exact H. Qed.

Lemma registry_extends_connected theirId s :
  map_get (connMap s) theirId = None -> registry_extends s (connected theirId s).
Proof.
  intros Hn k c Hk. unfold connected. cbn [connMap with_connMap with_conns].
  rewrite map_get_set_other; [exact Hk|].
  destruct (strict_eq theirId k) eqn:E; [|reflexivity].
  apply strict_eq_eq in E. subst k. congruence.
Qed.

Lemma map_has_set m k c k' :
  map_has (map_set m k c) k' = true -> strict_eq k k' = true \/ map_has m k' = true.
Proof.
  destruct (strict_eq k k') eqn:E; [auto|].
  unfold map_has. rewrite map_get_set_other by exact E. auto.
Qed.

Lemma strict_eq_neq a b : strict_eq a a = true -> a <> b -> strict_eq a b = false.
Proof.
  intros Ha Hne. destruct (strict_eq a b) eqn:E; [|reflexivity].
  apply strict_eq_eq in E. contradiction.
Qed.

(** The loop of the 'peerList' case on a peer that is initialized. *)
Lemma peerList_loop (ids : list value) :
  forall s,
    peer s = true ->
    (forall id, In id ids -> strict_eq id id = true) ->
    exists s' out,
      for_each ids (fun pid =>
        bind (gets id) (fun s0 =>
          if strict_eq pid (my_peerId s0) || map_has (connMap s0) pid then ret tt
          else bind (connectToPeer pid) (fun _ => ret tt))) s
      = (Returned tt, s', out)
      /\ peer s' = true
      /\ my_peerId s' = my_peerId s
      /\ registry_extends s s'
      /\ (forall pid, In pid ids -> strict_eq pid (my_peerId s) = false ->
            map_has (connMap s') pid = true)
      /\ (forall k, map_has (connMap s') k = true ->
            map_has (connMap s) k = true \/ In k ids)
      /\ (forall pid, In (PeerConnect pid) out ->
            In pid ids /\ map_get (connMap s) pid = None
            /\ strict_eq pid (my_peerId s) = false).
Proof.
  induction ids as [|pid ids IH]; intros s Hp Hprim.
  - exists s, []. simpl. split; [reflexivity|]. split; [exact Hp|].
    split; [reflexivity|]. split; [apply registry_extends_refl|].
    split; [intros ? []|]. split; [auto|intros ? []].
  - assert (Hprim' : forall x, In x ids -> strict_eq x x = true)
      by (intros x Hx; apply Hprim; right; exact Hx).
    cbn [for_each].
    destruct (strict_eq pid (my_peerId s) || map_has (connMap s) pid) eqn:Hskip.
    + rewrite (bind_returned _ _ s tt s [])
        by (rewrite bind_get, Hskip; reflexivity).
      rewrite prepend_nil.
      destruct (IH s Hp Hprim') as (s' & out & E & Hp' & Hme & Hext & Hall & Hsub & Hout).
      exists s', out. split; [exact E|]. split; [exact Hp'|]. split; [exact Hme|].
      split; [exact Hext|]. split; [|split].
      * intros x [<-|Hx] Hne; [|apply Hall; assumption].
        rewrite Hne in Hskip. cbn [orb] in Hskip.
        unfold map_has in *. destruct (map_get (connMap s) pid) as [c|] eqn:Hc;
          [|discriminate].
        rewrite (Hext _ _ Hc). reflexivity.
      * intros k Hk. destruct (Hsub k Hk); [left|right; right]; assumption.
      * intros x Hx. destruct (Hout x Hx) as (H1 & H2 & H3).
        split; [right; exact H1|]. split; assumption.
    + apply orb_false_elim in Hskip. destruct Hskip as [Hne Hhas].
      assert (Hnone : map_get (connMap s) pid = None).
      { unfold map_has in Hhas. destruct (map_get (connMap s) pid); [discriminate|].
        reflexivity. }
      rewrite (bind_returned _ _ s tt (connected pid s)
                 (PeerConnect pid :: participants_notice (connected pid s))).
      2: { rewrite bind_get, Hne, Hhas. cbn [orb].
           rewrite (bind_returned _ _ _ _ _ _ (connectToPeer_new _ s Hp Hnone)).
           unfold prepend, ret. cbn [fst snd]. rewrite app_nil_r. reflexivity. }
      destruct (IH (connected pid s) Hp Hprim')
        as (s' & out & E & Hp' & Hme & Hext & Hall & Hsub & Hout).
      rewrite E. unfold prepend. cbn [fst snd].
      eexists _, _. split; [reflexivity|]. split; [exact Hp'|]. split; [exact Hme|].
      split; [|split; [|split]].
      * intros k c Hk. apply Hext. apply registry_extends_connected; assumption.
      * intros x [<-|Hx] Hx'; [|apply Hall; assumption].
        unfold map_has. erewrite Hext; [reflexivity|].
        unfold connected. cbn [connMap with_connMap with_conns].
        apply map_get_set_same. apply Hprim. left. reflexivity.
      * intros k Hk. destruct (Hsub k Hk) as [H|H]; [|right; right; exact H].
        unfold connected in H. cbn [connMap with_connMap with_conns] in H.
        apply map_has_set in H. destruct H as [H|H]; [|left; exact H].
        apply strict_eq_eq in H. right. left. exact H.
      * intros x Hx. cbn [app] in Hx. destruct Hx as [Hx|Hx].
        { injection Hx as <-. split; [left; reflexivity|]. split; assumption. }
        apply in_app_or in Hx. destruct Hx as [Hx|Hx].
        { unfold participants_notice in Hx.
          destruct (onParticipantChange (connected pid s)); [|destruct Hx].
          apply In_singleton in Hx. discriminate. }
        destruct (Hout x Hx) as (H1 & H2 & H3).
        split; [right; exact H1|]. split; [|exact H3].
        destruct (map_get (connMap s) x) as [c|] eqn:Hc; [|reflexivity].
        rewrite (registry_extends_connected pid s Hnone _ _ Hc) in H2. discriminate.
Qed.

(** X16: the 'peerList' case.  On an initialized peer, a peerList whose
    payload is an array of ids (strings, numbers) is gone through to its
    end: afterwards the registry has a connection for every listed id but
    the peer's own, every entry it had is still there, and it has no others.
    peer.connect is called for listed ids only, for none that was
    registered and never for the peer's own id. *)
Theorem peerList_connects_to_listed
    (conn : nat) (msg : value) (ids : list value) (s : state) :
  peer s = true ->
  get_prop msg "type" = inr (VStr "peerList") ->
  get_prop msg "payload" = inr (VArr ids) ->
  (forall pid, In pid ids -> strict_eq pid pid = true) ->
  result (handleProtocolMessage conn msg) s = Returned tt
  /\ (forall pid, In pid ids -> pid <> my_peerId s ->
        map_has (connMap (post (handleProtocolMessage conn msg) s)) pid = true)
  /\ registry_extends s (post (handleProtocolMessage conn msg) s)
  /\ (forall k, map_has (connMap (post (handleProtocolMessage conn msg) s)) k = true ->
        map_has (connMap s) k = true \/ In k ids)
  /\ (forall pid, In (PeerConnect pid) (effects (handleProtocolMessage conn msg) s) ->
        In pid ids /\ map_get (connMap s) pid = None /\ pid <> my_peerId s).
Proof.
  intros Hp Hty Hpl Hprim.
  destruct (peerList_loop ids s Hp Hprim)
    as (s' & out & E & _ & _ & Hext & Hall & Hsub & Hout).
  assert (Hh : handleProtocolMessage conn msg s = (Returned tt, s', out)).
  { rewrite dispatch_peerList by exact Hty. unfold case_peerList. mrun.
    rewrite Hpl. cbn [js_or truthy iterate lift_sum]. mrun. exact E. }
  unfold result, post, effects. rewrite Hh. cbn [fst snd].
  split; [reflexivity|]. split; [|split; [exact Hext|split; [exact Hsub|]]].
  - intros pid Hin Hne. apply Hall; [exact Hin|].
    apply strict_eq_neq; [apply Hprim; exact Hin | exact Hne].
  - intros pid Hin. destruct (Hout pid Hin) as (H1 & H2 & H3).
    split; [exact H1|]. split; [exact H2|].
    intros ->. rewrite (Hprim _ H1) in H3. discriminate.
Qed.

Lemma for_each_out {A} (I : state -> Prop) (Pe : effect -> Prop)
    (l : list A) (body : A -> M unit) :
  (forall x s, I s -> ensures (body x) s (fun _ s' out => I s' /\ Forall Pe out)) ->
  forall s, I s -> ensures (for_each l body) s (fun _ s' out => I s' /\ Forall Pe out).
Proof.
  intros Hbody. induction l as [|x l IH]; intros s Hs r s' out; simpl.
  - intros [= <- <- <-]. split; [exact Hs | constructor].
  - unfold bind. destruct (body x s) as [[[[]|e] s1] out1] eqn:E1.
    + destruct (for_each l body s1) as [[r2 s2] out2] eqn:E2.
      intros [= <- <- <-].
      destruct (Hbody x s Hs _ _ _ E1) as [H1 H1'].
      destruct (IH s1 H1 _ _ _ E2) as [H2 H2'].
      split; [exact H2 | apply Forall_app; split; assumption].
    + intros [= <- <- <-]. exact (Hbody x s Hs _ _ _ E1).
Qed.

Lemma connect_other_no_self_call pid me s :
  my_peerId s = me -> pid <> me ->
  ensures (connectToPeer pid) s (fun _ s' out =>
    my_peerId s' = me /\ Forall (fun e => e <> PeerConnect me) out).
Proof.
  intros Hme Hne r s' out. rewrite connectToPeer_cases.
  destruct (negb (peer s)); [intros [= <- <- <-]; split; [exact Hme|constructor]|].
  destruct (map_get (connMap s) pid);
    intros [= <- <- <-]; (split; [exact Hme|]); [constructor|].
  constructor; [congruence|].
  unfold participants_notice. destruct (onParticipantChange _); repeat constructor.
  discriminate.
Qed.

Lemma case_peerList_no_self_call conn msg s :
  strict_eq (my_peerId s) (my_peerId s) = true ->
  ensures (case_peerList conn msg) s (fun _ _ out =>
    ~ In (PeerConnect (my_peerId s)) out).
Proof.
  intros Hprim r s' out E.
  enough (H : my_peerId s' = my_peerId s
              /\ Forall (fun e => e <> PeerConnect (my_peerId s)) out).
  { intros Hin. destruct H as [_ H]. rewrite List.Forall_forall in H.
    exact (H _ Hin eq_refl). }
  revert E. unfold case_peerList. mrun.
  destruct (get_prop msg "payload") as [e|payload];
    [intros [= <- <- <-]; split; [reflexivity|constructor]|].
  unfold lift_sum. destruct (iterate (js_or payload (VArr []))) as [e|l]; mrun;
    [intros [= <- <- <-]; split; [reflexivity|constructor]|].
  refine (for_each_out (fun s0 => my_peerId s0 = my_peerId s)
            (fun e => e <> PeerConnect (my_peerId s)) l _ _ s eq_refl r s' out).
  intros pid s1 Hs1 r1 s1' o1. mrun.
  destruct (strict_eq pid (my_peerId s1)) eqn:Hne; cbn [orb];
    [intros [= <- <- <-]; split; [exact Hs1|constructor]|].
  destruct (map_has (connMap s1) pid);
    [intros [= <- <- <-]; split; [exact Hs1|constructor]|].
  assert (Hd : pid <> my_peerId s).
  { intros ->. rewrite Hs1, Hprim in Hne. discriminate. }
  unfold bind.
  destruct (connectToPeer pid s1) as [[[c|e] s2] o2] eqn:E2;
    intros [= <- <- <-];
    destruct (connect_other_no_self_call pid (my_peerId s) s1 Hs1 Hd _ _ _ E2)
      as [H1 H2];
    (split; [exact H1|]); [rewrite app_nil_r|]; exact H2.
Qed.

Lemma case_newPeer_no_self_call conn msg s :
  strict_eq (my_peerId s) (my_peerId s) = true ->
  ensures (case_newPeer conn msg) s (fun _ _ out =>
    ~ In (PeerConnect (my_peerId s)) out).
Proof.
  intros Hprim r s' out. unfold case_newPeer. mrun.
  destruct (get_prop msg "payload") as [e|payload]; [intros [= <- <- <-] []|].
  mrun. destruct (get_prop payload "peerId") as [e|newPid]; [intros [= <- <- <-] []|].
  mrun. destruct (map_has (connMap s) newPid); cbn [negb andb];
    [intros [= <- <- <-] []|].
  destruct (strict_eq newPid (my_peerId s)) eqn:Hne; cbn [negb];
    [intros [= <- <- <-] []|].
  assert (Hd : newPid <> my_peerId s).
  { intros ->. rewrite Hprim in Hne. discriminate. }
  unfold bind.
  destruct (connectToPeer newPid s) as [[[c|e] s2] o2] eqn:E2;
    intros [= <- <- <-] Hin;
    destruct (connect_other_no_self_call newPid (my_peerId s) s eq_refl Hd _ _ _ E2)
      as [_ H2];
    rewrite List.Forall_forall in H2; [rewrite app_nil_r in Hin|];
    exact (H2 _ Hin eq_refl).
Qed.

(** X17: neither a peerList nor a newPeer record makes a peer register a
    connection under its own id: their guards compare every id with
    my.peerId before connectToPeer is called. *)
Theorem introductions_keep_own_id_out (conn : nat) (msg : value) (s : state) :
  no_self_entry s ->
  strict_eq (my_peerId s) (my_peerId s) = true ->
  get_prop msg "type" = inr (VStr "peerList")
  \/ get_prop msg "type" = inr (VStr "newPeer") ->
  no_self_entry (post (handleProtocolMessage conn msg) s)
  /\ ~ In (PeerConnect (my_peerId s)) (effects (handleProtocolMessage conn msg) s).
Proof.
  intros Hs Hprim Hty. unfold post, effects.
  destruct (handleProtocolMessage conn msg s) as [[r s'] out] eqn:E. cbn [fst snd].
  destruct Hty as [Hty|Hty].
  - rewrite dispatch_peerList in E by exact Hty. split.
    + exact (case_peerList_no_self conn msg s Hs r s' out E).
    + exact (case_peerList_no_self_call conn msg s Hprim r s' out E).
  - rewrite dispatch_newPeer in E by exact Hty. split.
    + exact (case_newPeer_no_self conn msg s Hs r s' out E).
    + exact (case_newPeer_no_self_call conn msg s Hprim r s' out E).
Qed.

(** X18: a connection that has closed gets no envelope.  After the 'close'
    event of a connection, with or without listeners on it, every record
    that sendPlain sends goes to another connection. *)
Theorem closed_connection_gets_no_envelope
    (c c' : nat) (obj : value) (data : string) (s : state) :
  In (ConnSend c' data) (effects (sendPlain obj) (post (handle (ConnClose c)) s)) ->
  c' <> c.
Proof.
  set (s1 := post (handle (ConnClose c)) s).
  assert (Hclosed : conn_open (conn_of s1 c) = false).
  { subst s1. unfold post. simpl handle. mrun.
    destruct (for_each _ _ _) as [[r s'] out] eqn:E. cbn [fst snd].
    assert (Hc : conns s' = conns (with_conns (alter (set_open false) c) s)).
    { revert E.
      refine (for_each_frames (fun a b => conns b = conns a) _ _
                (fun _ => eq_refl) (fun _ _ _ H1 H2 => eq_trans H2 H1) _ _ r s' out).
      intros h s0 r0 s0' o0. rewrite run_close_listener_run. intros [= <- <- <-].
      reflexivity. }
    unfold conn_of. rewrite Hc. cbn [conns with_conns].
    rewrite list_lookup_alter, decide_True by reflexivity.
    destruct (conns s !! c); reflexivity. }
  unfold effects. intros Hin ->.
  destruct (roomKey s1) as [k|] eqn:Hk.
  - rewrite (sendPlain_with_roomKey obj k s1 Hk) in Hin. cbn [snd] in Hin.
    apply in_app_or in Hin. destruct Hin as [Hin|Hin].
    + apply in_map_iff in Hin. destruct Hin as [[k0 c0] [He Hin]].
      injection He as -> _. cbn [snd] in Hin.
      unfold open_entries in Hin. apply list_elem_of_In, list_elem_of_filter in Hin.
      cbn [snd] in Hin. rewrite Hclosed in Hin. destruct Hin as [Hin _]. discriminate.
    + unfold loopback in Hin. destruct (onMessageCallback s1); [|destruct Hin].
      apply In_singleton in Hin. discriminate.
  - rewrite (sendPlain_without_roomKey obj s1 Hk) in Hin. destruct Hin.
Qed.

(** *** src/crypto.js, src/util.js, src/storage.js, src/ui.js *)

(** X19: the round trips of crypto.js and util.js on a platform that keeps
    its laws.  b642ab undoes ab2b64; what encryptAESGCM returns, given to
    decryptAESGCM with the same key, is the plaintext, for a plaintext that
    does not begin with a byte-order mark (the decoder of decryptAESGCM
    drops one); the plaintexts of the code, JSON text and Base64 text, are
    such; the Base64 export of a public key or of an AES key, given to the
    import, is the platform's import of the platform's export; a key that
    cannot be exported has no Base64 form. *)
Theorem crypto_round_trips (HL : PlatformLaws P) :
  (forall ab, b642ab (VStr (ab2b64 ab)) = Some ab)
  /\ (forall n k pt,
        starts_with_bom pt = false ->
        exists iv ct,
          get_prop (encryptAESGCM n k pt) "iv" = inr iv
          /\ get_prop (encryptAESGCM n k pt) "ciphertext" = inr ct
          /\ decryptAESGCM k iv ct = Some pt)
  /\ (forall n k v,
        exists iv ct,
          get_prop (encryptAESGCM n k (JSON_stringify v)) "iv" = inr iv
          /\ get_prop (encryptAESGCM n k (JSON_stringify v)) "ciphertext" = inr ct
          /\ decryptAESGCM k iv ct = Some (JSON_stringify v))
  /\ (forall n k raw,
        exists iv ct,
          get_prop (encryptAESGCM n k (ab2b64 raw)) "iv" = inr iv
          /\ get_prop (encryptAESGCM n k (ab2b64 raw)) "ciphertext" = inr ct
          /\ decryptAESGCM k iv ct = Some (ab2b64 raw))
  /\ (forall pub,
        importPublicKeyFromBase64 (VStr (exportPublicKeyToBase64 pub))
        = subtle_importKey_ECDH (subtle_exportKey_ECDH pub))
  /\ (forall k b64,
        exportAESKeyToBase64 k = Some b64 ->
        exists raw, subtle_exportKey_AES k = Some raw
                    /\ importAESKeyFromBase64 (VStr b64) = subtle_importKey_AES raw)
  /\ (forall k, subtle_exportKey_AES k = None -> exportAESKeyToBase64 k = None).
Proof.
  assert (Hrt : forall n k pt,
             starts_with_bom pt = false ->
             exists iv ct,
               get_prop (encryptAESGCM n k pt) "iv" = inr iv
               /\ get_prop (encryptAESGCM n k pt) "ciphertext" = inr ct
               /\ decryptAESGCM k iv ct = Some pt).
  { intros n k pt Hpt. eexists _, _. split; [apply encryptAESGCM_iv|].
    split; [apply encryptAESGCM_ciphertext|].
    eapply decrypt_encryptAESGCM; [exact HL | exact Hpt | apply encryptAESGCM_iv
                                  | apply encryptAESGCM_ciphertext]. }
  split; [intros ab; apply b642ab_ab2b64; exact HL|].
  split; [exact Hrt|].
  split; [intros n k v; apply Hrt, JSON_stringify_no_bom|].
  split; [intros n k raw; apply Hrt; unfold ab2b64; apply btoa_no_bom|].
  split.
  { intros pub. unfold importPublicKeyFromBase64, exportPublicKeyToBase64.
    rewrite b642ab_ab2b64 by exact HL. reflexivity. }
  split.
  { intros k b64. unfold exportAESKeyToBase64, importAESKeyFromBase64.
    destruct (subtle_exportKey_AES k) as [raw|]; [|discriminate].
    simpl. intros [= <-]. exists raw. split; [reflexivity|].
    rewrite b642ab_ab2b64 by exact HL. reflexivity. }
  intros k H. unfold exportAESKeyToBase64. rewrite H. reflexivity.
Qed.

Lemma byte_hex (b : byte) :
  exists h l,
    padStart2 (toString16 b) = String h (String l EmptyString)
    /\ is_hex_char h = true /\ is_hex_char l = true
    /\ (forall rest bs,
          roomId_bytes rest = Some bs ->
          roomId_bytes (String h (String l rest)) = Some (b :: bs)).
Proof.
  destruct b; eexists _, _; (split; [vm_compute; reflexivity|]);
    (split; [vm_compute; reflexivity|]); (split; [vm_compute; reflexivity|]);
    intros rest bs H; cbn [roomId_bytes]; rewrite H; vm_compute; reflexivity.
Qed.

Lemma concat_hex_cons (b : byte) (rest : list byte) h l :
  padStart2 (toString16 b) = String h (String l EmptyString) ->
  generateRoomId_of (b :: rest) = String h (String l (generateRoomId_of rest)).
Proof.
  intros H. unfold generateRoomId_of. cbn [map]. rewrite H.
  destruct rest as [|b' rest]; reflexivity.
Qed.

(** X20: generateRoomId.  The id has two characters for every byte drawn
    (32 for the 16 bytes of the source), all of them lower-case hexadecimal
    digits, and the bytes can be read back from it: two draws that differ
    give two ids that differ. *)
Theorem generateRoomId_hex (bytes : list byte) :
  String.length (generateRoomId_of bytes) = 2 * length bytes
  /\ all_chars is_hex_char (generateRoomId_of bytes) = true
  /\ roomId_bytes (generateRoomId_of bytes) = Some bytes
  /\ (forall bytes', generateRoomId_of bytes' = generateRoomId_of bytes ->
                     bytes' = bytes).
Proof.
  assert (Hback : forall bs, roomId_bytes (generateRoomId_of bs) = Some bs).
  { induction bs as [|b bs IH]; [reflexivity|].
    destruct (byte_hex b) as (h & l & Hb & _ & _ & Hr).
    rewrite (concat_hex_cons b bs h l Hb). apply Hr. exact IH. }
  split; [|split; [|split; [apply Hback|]]].
  - induction bytes as [|b bytes IH]; [reflexivity|].
    destruct (byte_hex b) as (h & l & Hb & _).
    rewrite (concat_hex_cons b bytes h l Hb).
    cbn [String.length length]. rewrite IH. lia.
  - induction bytes as [|b bytes IH]; [reflexivity|].
    destruct (byte_hex b) as (h & l & Hb & Hh & Hl & _).
    rewrite (concat_hex_cons b bytes h l Hb).
    cbn [all_chars]. rewrite Hh, Hl, IH. reflexivity.
  - intros bytes' H. apply (f_equal roomId_bytes) in H.
    rewrite !Hback in H. congruence.
Qed.

Lemma storage_key_inj room room' : storage_key room = storage_key room' -> room = room'.
Proof. unfold storage_key. simpl. intros [= H]. exact H. Qed.

Lemma load_after_save (HL : PlatformLaws P) n room M k ls :
  json_roundtrips M ->
  json_roundtrips (encryptAESGCM n k (JSON_stringify M)) ->
  JSON_stringify (encryptAESGCM n k (JSON_stringify M)) <> "" ->
  load room k (save n room M k ls) = inr M.
Proof.
  intros HM Henc Hne. unfold load, save. rewrite lookup_insert_eq.
  assert (Ht : truthy (VStr (JSON_stringify (encryptAESGCM n k (JSON_stringify M))))
               = true).
  { simpl. apply negb_true_iff, String.eqb_neq. exact Hne. }
  rewrite Ht. cbn [negb]. rewrite Henc.
  rewrite encryptAESGCM_iv, encryptAESGCM_ciphertext.
  rewrite (decrypt_encryptAESGCM HL n k (JSON_stringify M) _ _
             (JSON_stringify_no_bom M)
             (encryptAESGCM_iv _ _ _) (encryptAESGCM_ciphertext _ _ _)).
  rewrite HM. reflexivity.
Qed.

(** X21: save writes under the room's own key only.  What is stored for
    another room, and what load returns for it, is not touched; a second
    save for the same room replaces the first, so that load gives the log
    saved last; and an empty string under the room's key loads as the empty
    log, like a missing one. *)
Theorem save_touches_one_room (HL : PlatformLaws P)
    (n : nat) (room : string) (M : value) (k : AESKey) (ls : storage) :
  (forall room' k', room' <> room ->
     save n room M k ls !! storage_key room' = ls !! storage_key room'
     /\ load room' k' (save n room M k ls) = load room' k' ls)
  /\ (forall n' M' k',
        save n' room M' k' (save n room M k ls) = save n' room M' k' ls)
  /\ (forall n' M' k',
        json_roundtrips M' ->
        json_roundtrips (encryptAESGCM n' k' (JSON_stringify M')) ->
        JSON_stringify (encryptAESGCM n' k' (JSON_stringify M')) <> "" ->
        load room k' (save n' room M' k' (save n room M k ls)) = inr M')
  /\ (ls !! storage_key room = Some "" -> load room k ls = inr (VArr [])).
Proof.
  split; [|split; [|split]].
  - intros room' k' Hne.
    assert (Hl : save n room M k ls !! storage_key room' = ls !! storage_key room').
    { unfold save. apply lookup_insert_ne. intros H. apply storage_key_inj in H.
      congruence. }
    split; [exact Hl|]. unfold load. rewrite Hl. reflexivity.
  - intros n' M' k'. unfold save. apply insert_insert_eq.
  - intros n' M' k' H1 H2 H3. apply load_after_save; assumption.
  - intros H. unfold load. rewrite H. reflexivity.
Qed.

Lemma render_items_all (items : list value) :
  (forall m, In m items -> exists f, get_prop m "from" = inr f) ->
  render_items items = (items, None).
Proof.
  induction items as [|m items IH]; intros H; [reflexivity|].
  cbn [render_items]. destruct (H m (or_introl eq_refl)) as [f Hf]. rewrite Hf.
  rewrite IH by (intros x Hx; apply H; right; exact Hx). reflexivity.
Qed.

(** X22: a message that arrives is kept.  When the buffer is an array of
    messages, onPeerMessage appends the message, shows the whole buffer,
    and saves it under the local key: loadHistory then gives the buffer
    with the message at its end, for a buffer that survives JSON
    serialization on a platform that keeps its laws. *)
Theorem received_message_is_persisted (HL : PlatformLaws P)
    (n : nat) (msg : value) (items : list value) (k : AESKey)
    (u : ui_state) (ls : storage) :
  localKey u = Some k ->
  messagesBuffer u = VArr items ->
  (forall m, In m (items ++ [msg]) -> exists f, get_prop m "from" = inr f) ->
  json_roundtrips (VArr (items ++ [msg])) ->
  json_roundtrips (encryptAESGCM n k (JSON_stringify (VArr (items ++ [msg])))) ->
  JSON_stringify (encryptAESGCM n k (JSON_stringify (VArr (items ++ [msg])))) <> "" ->
  onPeerMessage n msg u ls
  = (Returned tt,
     with_buffer (VArr (items ++ [msg])) u,
     save n (currentRoom u) (VArr (items ++ [msg])) k ls,
     [UiRender (items ++ [msg])])
  /\ loadHistory (with_buffer (VArr (items ++ [msg])) u)
                 (save n (currentRoom u) (VArr (items ++ [msg])) k ls)
     = (VArr (items ++ [msg]), []).
Proof.
  intros Hk Hbuf Hfrom HM Henc Hne. split.
  - unfold onPeerMessage. rewrite Hbuf.
    unfold renderMessages. cbn [messagesBuffer with_buffer iterate].
    rewrite (render_items_all _ Hfrom).
    unfold persistMessages. cbn [localKey with_buffer messagesBuffer currentRoom].
    rewrite Hk. reflexivity.
  - unfold loadHistory. cbn [localKey with_buffer currentRoom]. rewrite Hk.
    rewrite (load_after_save HL n (currentRoom u) _ k ls HM Henc Hne).
    reflexivity.
Qed.

(** X23: a history that could not be read is replaced.  When load fails
    under the local key (a wrong key, a damaged blob), loadHistory shows the
    alert and gives the empty list, which start() takes as the buffer.  The
    next message that arrives is then saved as a log of one message under
    the room's key, over the blob that could not be read. *)
Theorem unreadable_history_is_replaced
    (n : nat) (msg from : value) (k : AESKey) (e : error)
    (u : ui_state) (ls : storage) :
  localKey u = Some k ->
  load (currentRoom u) k ls = inl e ->
  get_prop msg "from" = inr from ->
  loadHistory u ls = (VArr [], [UiAlert bad_local_key_alert])
  /\ onPeerMessage n msg (with_buffer (fst (loadHistory u ls)) u) ls
     = (Returned tt,
        with_buffer (VArr [msg]) u,
        save n (currentRoom u) (VArr [msg]) k ls,
        [UiRender [msg]])
  /\ save n (currentRoom u) (VArr [msg]) k ls !! storage_key (currentRoom u)
     = Some (JSON_stringify (encryptAESGCM n k (JSON_stringify (VArr [msg])))).
Proof.
  intros Hk Hload Hfrom.
  assert (Hh : loadHistory u ls = (VArr [], [UiAlert bad_local_key_alert])).
  { unfold loadHistory. rewrite Hk, Hload. reflexivity. }
  split; [exact Hh|]. split.
  - rewrite Hh. cbn [fst]. unfold onPeerMessage.
    cbn [messagesBuffer with_buffer app].
    unfold renderMessages. cbn [messagesBuffer with_buffer iterate render_items].
    rewrite Hfrom.
    unfold persistMessages. cbn [localKey with_buffer messagesBuffer currentRoom].
    rewrite Hk. reflexivity.
  - unfold save. apply lookup_insert_eq.
Qed.

Lemma session_start_joiner (opts : init_opts) :
  opt_role opts <> "create" ->
  session_start opts
  = {| peer := true; conns := []; connMap := [];
       my_peerId := VStr (opt_roomId opts ++ ":" ++ randSuffix 1);
       my_ecdhPair := Some (generateECDHKeyPair 0);
       my_pubB64 := VStr (exportPublicKeyToBase64 (snd (generateECDHKeyPair 0)));
       my_username := js_or (VStr (opt_username opts)) (VStr "Anon");
       roomId := VStr (opt_roomId opts);
       isCreator := false;
       roomKey := None;
       onMessageCallback := opt_onMessage opts;
       onParticipantChange := opt_onParticipants opts;
       onError := opt_onError opts;
       draws := 2; ticks := 0 |}.
Proof.
  intros Hrole. apply String.eqb_neq in Hrole.
  unfold session_start, init. rewrite bind_draw, Hrole. mrun.
  unfold console_log, emit. reflexivity.
Qed.

(** X24: how a joiner introduces itself.  From init on, the peer's 'open'
    makes one connection to the creator, under the room id; the call of
    announceToCreator that start() schedules finds it, not yet open, and
    adds its listener to it instead of connecting again; and when the
    connection opens the joiner sends, on it and in this order, its
    publicKey record and its announce record. *)
Theorem joiner_introduces_itself (opts : init_opts) :
  opt_role opts <> "create" ->
  snd (run [PeerOpen; CallAnnounceToCreator; ConnOpen 0] (session_start opts))
  = [Console ConsoleLog "peer open"; Console ConsoleLog "joiner";
     PeerConnect (VStr (opt_roomId opts))]
    ++ (if opt_onParticipants opts
        then [CallOnParticipants [VStr (opt_roomId opts);
                                  VStr (opt_roomId opts ++ ":" ++ randSuffix 1)]]
        else [])
    ++ [Console ConsoleLog "outgoing open";
        ConnSend 0 (JSON_stringify (publicKey_record (session_start opts)));
        ConnSend 0 (JSON_stringify (announce_record (session_start opts)))]
  /\ connMap (fst (run [PeerOpen; CallAnnounceToCreator; ConnOpen 0]
                       (session_start opts)))
     = [(VStr (opt_roomId opts), 0)]
  /\ length (conns (fst (run [PeerOpen; CallAnnounceToCreator; ConnOpen 0]
                             (session_start opts)))) = 1.
Proof.
  intros Hrole. rewrite (session_start_joiner opts Hrole).
  set (s0 := {| peer := true; conns := []; connMap := [] |}).
  assert (H1 : handle PeerOpen s0
               = (Returned tt, connected (roomId s0) s0,
                  [Console ConsoleLog "peer open"; Console ConsoleLog "joiner";
                   PeerConnect (roomId s0)]
                  ++ participants_notice (connected (roomId s0) s0))).
  { simpl handle. unfold on_peer_open, console_log. rewrite bind_emit. mrun.
    change (isCreator s0) with false. cbn iota. rewrite bind_emit. mrun.
    rewrite (bind_returned _ _ _ _ _ _
               (connectToPeer_new (roomId s0) s0 eq_refl eq_refl)).
    unfold prepend, ret. cbn [fst snd app]. rewrite app_nil_r. reflexivity. }
  set (s1 := connected (roomId s0) s0) in *.
  assert (H2 : handle CallAnnounceToCreator s1
               = (Returned tt, with_conns (alter (add_onOpen OpenAnnounce) 0) s1, [])).
  { simpl handle. unfold announceToCreator. mrun.
    assert (Hg : map_get (connMap s1) (roomId s1) = Some 0).
    { subst s1. unfold connected. cbn [connMap roomId with_connMap with_conns].
      subst s0. cbn [connMap roomId conns length].
      apply map_get_set_same. apply strict_eq_str. }
    rewrite Hg.
    change (conn_open (conn_of s1 0)) with false. cbn iota.
    rewrite (bind_returned _ _ _ _ _ _
               (connectToPeer_existing (roomId s1) 0 s1 eq_refl Hg)).
    reflexivity. }
  set (s2 := with_conns (alter (add_onOpen OpenAnnounce) 0) s1) in *.
  assert (H3 : handle (ConnOpen 0) s2
               = (Returned tt, with_conns (alter (set_open true) 0) s2,
                  [Console ConsoleLog "outgoing open";
                   ConnSend 0 (JSON_stringify (publicKey_record s0));
                   ConnSend 0 (JSON_stringify (announce_record s0))])).
  { simpl handle. mrun.
    change (conn_onOpen (conn_of (with_conns (alter (set_open true) 0) s2) 0))
      with [OpenOutgoing; OpenAnnounce].
    cbn [for_each]. unfold run_open_listener, console_log, send_json.
    repeat (first [progress mrun | rewrite bind_emit]). reflexivity. }
  cbn [run]. rewrite H1. fold s1. rewrite H2. fold s2. rewrite H3.
  cbn [fst snd app]. split; [|split; reflexivity].
  unfold participants_notice. subst s1 s0.
  cbn [onParticipantChange connected with_connMap with_conns connMap map_keys my_peerId
       roomId conns length map_set map fst app].
  destruct (opt_onParticipants opts); reflexivity.
Qed.

Lemma case_newPeer_registered conn msg payload pid c s :
  get_prop msg "payload" = inr payload ->
  get_prop payload "peerId" = inr pid ->
  map_get (connMap s) pid = Some c ->
  case_newPeer conn msg s = (Returned tt, s, []).
Proof.
  intros Hpl Hpid Hc. unfold case_newPeer. mrun. rewrite Hpl. mrun. rewrite Hpid. mrun.
  unfold map_has. rewrite Hc. reflexivity.
Qed.

(** X25: the 'newPeer' case.  On an initialized peer, the introduction of a
    peer that is not in the registry and is not the peer itself makes one
    connection to it, registered at once under its id; the introduction of
    a peer that is registered, a second introduction of the same peer
    included, does nothing. *)
Theorem newPeer_connects_once (conn : nat) (msg payload pid : value) (s : state) :
  peer s = true ->
  get_prop msg "type" = inr (VStr "newPeer") ->
  get_prop msg "payload" = inr payload ->
  get_prop payload "peerId" = inr pid ->
  strict_eq pid pid = true ->
  pid <> my_peerId s ->
  (map_get (connMap s) pid = None ->
     handleProtocolMessage conn msg s
     = (Returned tt, connected pid s,
        PeerConnect pid :: participants_notice (connected pid s))
     /\ map_get (connMap (connected pid s)) pid = Some (length (conns s))
     /\ handleProtocolMessage conn msg (connected pid s)
        = (Returned tt, connected pid s, []))
  /\ (forall c, map_get (connMap s) pid = Some c ->
        handleProtocolMessage conn msg s = (Returned tt, s, [])).
Proof.
  intros Hp Hty Hpl Hpid Hprim Hne. split.
  - intros Hnone.
    assert (Hreg : map_get (connMap (connected pid s)) pid = Some (length (conns s))).
    { unfold connected. cbn [connMap with_connMap with_conns].
      apply map_get_set_same. exact Hprim. }
    split; [|split; [exact Hreg|]].
    + rewrite dispatch_newPeer by exact Hty. unfold case_newPeer. mrun.
      rewrite Hpl. mrun. rewrite Hpid. mrun.
      unfold map_has. rewrite Hnone. rewrite (strict_eq_neq _ _ Hprim Hne).
      cbn [negb andb].
      rewrite (bind_returned _ _ _ _ _ _ (connectToPeer_new _ s Hp Hnone)).
      unfold prepend, ret. cbn [fst snd]. rewrite app_nil_r. reflexivity.
    + rewrite dispatch_newPeer by exact Hty.
      exact (case_newPeer_registered conn msg payload pid _ _ Hpl Hpid Hreg).
  - intros c Hc. rewrite dispatch_newPeer by exact Hty.
    exact (case_newPeer_registered conn msg payload pid c s Hpl Hpid Hc).
Qed.

(** *** A connection opens once *)

Lemma settled_kept_refl s : settled_kept s s.
Proof. intros c H. exact H. Qed.

Lemma settled_kept_trans s1 s2 s3 :
  settled_kept s1 s2 -> settled_kept s2 s3 -> settled_kept s1 s3.
Proof. intros H1 H2 c H. apply H2, H1, H. Qed.

Lemma settled_kept_heap s s' : conns s' = conns s -> settled_kept s s'.
Proof. intros E c. unfold conn_of. rewrite E. auto. Qed.

Lemma settled_kept_alter f c s :
  (forall x, conn_settled x = true -> conn_settled (f x) = true) ->
  settled_kept s (with_conns (alter f c) s).
Proof.
  intros Hf c'. unfold conn_of. cbn [conns with_conns].
  destruct (decide (c = c')) as [<-|Hne].
  - rewrite list_lookup_alter, decide_True by reflexivity.
    destruct (conns s !! c) as [x|]; simpl; [apply Hf | auto].
  - rewrite list_lookup_alter_ne by exact Hne. auto.
Qed.

Lemma settled_kept_alloc x s : settled_kept s (with_conns (fun h => h ++ [x]) s).
Proof.
  intros c. unfold conn_of. cbn [conns with_conns].
  destruct (Nat.lt_ge_cases c (length (conns s))) as [Hlt|Hge].
  - rewrite lookup_app_l by exact Hlt. auto.
  - rewrite (lookup_ge_None_2 (conns s)) by exact Hge. simpl. discriminate.
Qed.

Lemma settled_kept_connected theirId s : settled_kept s (connected theirId s).
Proof.
  unfold connected.
  eapply settled_kept_trans; [apply settled_kept_alloc|].
  apply settled_kept_heap. reflexivity.
Qed.

Ltac st_step :=
  match goal with
  | |- settled_kept ?s ?s => apply settled_kept_refl
  | |- settled_kept ?s (with_conns (alter ?f ?c) ?t) =>
    apply (settled_kept_trans s t);
    [|apply settled_kept_alter; intros ? ?; first [assumption | reflexivity]]
  | |- settled_kept ?s (with_conns (fun h => h ++ [?x]) ?t) =>
    apply (settled_kept_trans s t); [|apply settled_kept_alloc]
  | |- settled_kept ?s (connected ?k ?t) =>
    apply (settled_kept_trans s t); [|apply settled_kept_connected]
  | |- settled_kept ?s (with_draws ?n ?t) =>
    apply (settled_kept_trans s t); [|apply settled_kept_heap; reflexivity]
  | |- settled_kept ?s (with_ticks ?n ?t) =>
    apply (settled_kept_trans s t); [|apply settled_kept_heap; reflexivity]
  | |- settled_kept ?s (with_roomKey ?k ?t) =>
    apply (settled_kept_trans s t); [|apply settled_kept_heap; reflexivity]
  | |- settled_kept ?s (with_connMap ?f ?t) =>
    apply (settled_kept_trans s t); [|apply settled_kept_heap; reflexivity]
  end.

Ltac st_leaf := mleaf; repeat st_step.

Lemma connectToPeer_settled theirId s :
  ensures (connectToPeer theirId) s (fun _ s' _ => settled_kept s s').
Proof.
  intros r s' out. rewrite connectToPeer_cases.
  destruct (negb (peer s)); [st_leaf|].
  destruct (map_get (connMap s) theirId); st_leaf.
Qed.

Lemma connect_then_skip_settled theirId s :
  ensures (bind (connectToPeer theirId) (fun _ => ret tt)) s
          (fun _ s' _ => settled_kept s s').
Proof.
  intros r s' out. unfold bind.
  destruct (connectToPeer theirId s) as [[[c|e] s1] out1] eqn:E; mleaf;
    exact (connectToPeer_settled theirId s _ _ _ E).
Qed.

Lemma announce_tail_settled theirId theirPub connToNew s :
  ensures (announce_tail theirId theirPub connToNew) s (fun _ s' _ => settled_kept s s').
Proof.
  intros r s' out. unfold announce_tail. mrun.
  destruct (my_ecdhPair s) as [[priv pub]|]; [|st_leaf].
  mrun. destruct (deriveSharedAESKey priv (Some theirPub)); [|st_leaf].
  mrun. destruct (match roomKey s with
                  | Some k0 => exportAESKeyToBase64 k0
                  | None => None
                  end); [|st_leaf].
  mrun. rewrite announce_loop. st_leaf.
Qed.

Lemma case_announce_settled conn msg s :
  ensures (case_announce conn msg) s (fun _ s' _ => settled_kept s s').
Proof.
  intros r s' out. unfold case_announce. mrun.
  destruct (isCreator s); cbn [negb]; [|st_leaf].
  mrun. destruct (get_prop msg "from") as [e|theirId]; [st_leaf|].
  mrun. destruct (get_prop msg "payload") as [e|payload]; [st_leaf|].
  mrun. destruct (get_prop payload "pubKey") as [e|b64]; [st_leaf|].
  mrun. destruct (importPublicKeyFromBase64 b64) as [theirPub|]; [|st_leaf].
  mrun. destruct (map_get (connMap s) theirId) as [c|] eqn:Hc.
  - rewrite bind_ret. exact (announce_tail_settled theirId theirPub c s r s' out).
  - rewrite bind_assoc. unfold bind at 1. rewrite connectToPeer_cases.
    destruct (negb (peer s)); [st_leaf|].
    rewrite Hc. cbv beta iota. rewrite bind_assoc, bind_update_conn, bind_ret.
    set (s1 := with_conns (alter (set_theirPub theirPub) (length (conns s)))
                          (connected theirId s)).
    change (bind my_privateKey _ s1)
      with (announce_tail theirId theirPub (length (conns s)) s1).
    destruct (announce_tail theirId theirPub (length (conns s)) s1)
      as [[r1 s1'] o1] eqn:E.
    intros [= <- <- <-].
    eapply settled_kept_trans;
      [|exact (announce_tail_settled theirId theirPub (length (conns s)) s1 _ _ _ E)].
    unfold s1. repeat st_step.
Qed.

Lemma handleProtocolMessage_settled conn msg s :
  ensures (handleProtocolMessage conn msg) s (fun _ s' _ => settled_kept s s').
Proof.
  apply handler_cases; try (intros; apply settled_kept_refl); intros Hty r s' out.
  - unfold case_publicKey. mexec; st_leaf.
  - apply case_announce_settled.
  - unfold case_roomKey, try_catch. mexec; st_leaf.
  - unfold case_peerList. mrun.
    destruct (get_prop msg "payload") as [e|payload]; [st_leaf|].
    unfold lift_sum. destruct (iterate (js_or payload (VArr []))) as [e|l];
      mrun; [st_leaf|].
    apply for_each_frames; [apply settled_kept_refl | apply settled_kept_trans |].
    intros pid s1 r1 s1' o1. mrun.
    destruct (strict_eq pid (my_peerId s1) || map_has (connMap s1) pid); [st_leaf|].
    apply connect_then_skip_settled.
  - unfold case_newPeer. mrun.
    destruct (get_prop msg "payload") as [e|payload]; [st_leaf|].
    mrun. destruct (get_prop payload "peerId") as [e|newPid]; [st_leaf|].
    mrun.
    destruct (negb (map_has (connMap s) newPid)
              && negb (strict_eq newPid (my_peerId s))); [|st_leaf].
    apply connect_then_skip_settled.
  - unfold case_announceRequest. mexec; st_leaf.
  - unfold case_msg, try_catch. mexec; st_leaf.
Qed.

Lemma run_data_listener_settled c raw h s :
  ensures (run_data_listener c raw h) s (fun _ s' _ => settled_kept s s').
Proof.
  intros r s' out. unfold run_data_listener.
  destruct (parseSafe_result raw) as [msg [o Hp]].
  rewrite (bind_returned _ _ _ _ _ _ (Hp s)).
  intros H. apply prepend_inv in H. destruct H as [out' H]. revert H.
  destruct (truthy msg); [|st_leaf].
  unfold spawn, try_catch.
  destruct (handleProtocolMessage c msg s) as [[[[]|e] s1] out1] eqn:E;
    mleaf; exact (handleProtocolMessage_settled c msg s _ _ _ E).
Qed.

Lemma run_open_listener_settled c h s :
  ensures (run_open_listener c h) s (fun _ s' _ => settled_kept s s').
Proof.
  intros r s' out. destruct h; simpl; unfold console_log, send_json.
  - mexec. st_leaf.
  - rewrite bind_emit. mrun. rewrite bind_emit. mrun. rewrite notifyParticipants_run.
    st_leaf.
  - mexec. st_leaf.
  - mexec. st_leaf.
Qed.

Lemma run_close_listener_settled c h s :
  ensures (run_close_listener c h) s (fun _ s' _ => settled_kept s s').
Proof.
  intros r s' out. rewrite run_close_listener_run. st_leaf.
Qed.

Lemma handle_settled ev s : ensures (handle ev) s (fun _ s' _ => settled_kept s s').
Proof.
  intros r s' out. destruct ev as [|remote| |c|c raw|c|obj|]; simpl.
  - unfold on_peer_open, console_log. rewrite bind_emit. mrun.
    destruct (isCreator s).
    + rewrite bind_emit. mrun. st_leaf.
    + rewrite bind_emit. mrun. intros H.
      apply prepend_inv in H. destruct H as [o1 H].
      apply prepend_inv in H. destruct H as [o2 H].
      exact (connect_then_skip_settled (roomId s) s _ _ _ H).
  - unfold on_peer_connection.
    rewrite (bind_returned _ _ s (length (conns s))
               (with_conns (fun h => h ++ [new_connection (VStr remote)]) s) [])
      by reflexivity.
    rewrite prepend_nil. unfold console_log. rewrite bind_emit. mrun.
    change (isCreator (with_conns _ s)) with (isCreator s).
    destruct (isCreator s); unfold handleConnection; st_leaf.
  - unfold on_peer_error. mexec; st_leaf.
  - mrun. destruct (conn_settled (conn_of s c)); [st_leaf|].
    mrun. intros E.
    eapply settled_kept_trans;
      [|exact (for_each_frames settled_kept _ _ settled_kept_refl settled_kept_trans
                 (run_open_listener_settled c) _ r s' out E)].
    repeat st_step.
  - mrun.
    refine (for_each_frames settled_kept _ _ settled_kept_refl settled_kept_trans
              _ s r s' out).
    intros h s1. apply run_data_listener_settled.
  - mrun. intros E.
    eapply settled_kept_trans;
      [|exact (for_each_frames settled_kept _ _ settled_kept_refl settled_kept_trans
                 (run_close_listener_settled c) _ r s' out E)].
    repeat st_step.
  - destruct (roomKey s) as [k|] eqn:Hrk.
    + rewrite (sendPlain_with_roomKey obj k s Hrk). intros [= <- <- <-].
      unfold after_send. repeat st_step.
    + rewrite (sendPlain_without_roomKey obj s Hrk). intros [= <- <- <-].
      apply settled_kept_refl.
  - unfold announceToCreator. mrun.
    assert (Hconnect :
      ensures (bind (connectToPeer (roomId s))
                    (fun c => update_conn c (add_onOpen OpenAnnounce))) s
              (fun _ s' _ => settled_kept s s')).
    { intros r1 s1 o1. unfold bind.
      destruct (connectToPeer (roomId s) s) as [[[c|e] s2] out2] eqn:E; mleaf.
      - eapply settled_kept_trans; [exact (connectToPeer_settled _ s _ _ _ E)|].
        repeat st_step.
      - exact (connectToPeer_settled _ s _ _ _ E). }
    destruct (map_get (connMap s) (roomId s)) as [c|]; [|apply Hconnect].
    destruct (conn_open (conn_of s c)); [|apply Hconnect].
    unfold send_json. st_leaf.
Qed.

Lemma run_settled evs s : settled_kept s (fst (run evs s)).
Proof.
  revert s. induction evs as [|ev evs IH]; intros s; [apply settled_kept_refl|].
  rewrite run_cons. cbn [fst]. eapply settled_kept_trans; [|apply IH].
  unfold post. destruct (handle ev s) as [[r s1] out1] eqn:E. cbn [fst snd].
  exact (handle_settled ev s _ _ _ E).
Qed.

(** Whatever happens afterwards, the 'open' event of a connection that has
    opened or closed does not come again: a listener that was added to it
    for that event is never called. *)
Lemma open_never_again c s :
  conn_settled (conn_of s c) = true ->
  forall evs,
    handle (ConnOpen c) (fst (run evs s)) = (Returned tt, fst (run evs s), []).
Proof.
  intros H evs. apply open_event_on_settled. apply (run_settled evs s c H).
Qed.

End Proofs.

(* ===================================================================== *)
(** ** The reference platform keeps the laws *)
(* ===================================================================== *)

Lemma hex_decode_encode s : Ref.hex_decode (Ref.hex_encode s) = Some s.
Proof.
  induction s as [|c s IH]; [reflexivity|].
  cbn [Ref.hex_encode Ref.hex_decode]. rewrite IH.
  destruct c as [[] [] [] [] [] [] [] []]; reflexivity.
Qed.

Lemma bytes_eqb_refl l : Ref.bytes_eqb l l = true.
Proof.
  induction l as [|b l IH]; [reflexivity|].
  simpl. rewrite IH, andb_true_r. apply Byte.byte_dec_lb. reflexivity.
Qed.

Lemma ref_decrypt_encrypt k iv pt : Ref.decrypt k iv (Ref.encrypt k iv pt) = Some pt.
Proof.
  unfold Ref.decrypt, Ref.encrypt.
  rewrite length_app, Nat.add_sub.
  rewrite skipn_app, skipn_all, Nat.sub_diag. simpl skipn.
  rewrite bytes_eqb_refl.
  rewrite firstn_app, firstn_all, Nat.sub_diag. simpl. rewrite app_nil_r. reflexivity.
Qed.

(** A text whose first character is not the first byte of the byte-order
    mark does not begin with one. *)
Lemma no_bom_head (c : ascii) (rest : string) :
  Ascii.N_of_ascii c <> 239%N -> starts_with_bom (String c rest) = false.
Proof.
  intros Hc. unfold starts_with_bom, bom. cbn [String.prefix].
  destruct (ascii_dec (Ascii.ascii_of_nat 239) c) as [E|E]; [|reflexivity].
  exfalso. apply Hc. rewrite <- E. reflexivity.
Qed.

Lemma N_of_small_ascii (m : N) : (m < 256)%N -> Ascii.N_of_ascii (Ascii.ascii_of_N m) = m.
Proof. apply Ascii.N_ascii_embedding. Qed.

Lemma digits_of_head (fuel : nat) :
  forall n acc, exists m rest,
    Ref.digits_of (S fuel) n acc = String (Ascii.ascii_of_N (48 + m)) rest
    /\ (m < 10)%N.
Proof.
  induction fuel as [|fuel IH]; intros n acc.
  - cbn [Ref.digits_of]. exists (N.modulo n 10).
    destruct (N.eqb (N.div n 10) 0); eexists; (split; [reflexivity|]);
      apply N.mod_lt; discriminate.
  - change (Ref.digits_of (S (S fuel)) n acc)
      with (if N.eqb (N.div n 10) 0
            then String (Ascii.ascii_of_N (48 + N.modulo n 10)) acc
            else Ref.digits_of (S fuel) (N.div n 10)
                   (String (Ascii.ascii_of_N (48 + N.modulo n 10)) acc)).
    destruct (N.eqb (N.div n 10) 0).
    + exists (N.modulo n 10). eexists. split; [reflexivity|].
      apply N.mod_lt. discriminate.
    + apply IH.
Qed.

Lemma stringify_no_bom (v : value) : starts_with_bom (Ref.stringify v) = false.
Proof.
  destruct v as [| |[]|z|s|items|fields]; try reflexivity.
  cbn [Ref.stringify]. unfold Ref.print_Z.
  destruct (digits_of_head (N.to_nat (N.log2 (Z.abs_N z))) (Z.abs_N z) EmptyString)
    as (m & rest & E & Hm).
  destruct (Z.ltb z 0).
  - apply no_bom_head. discriminate.
  - rewrite E. apply no_bom_head. rewrite N_of_small_ascii by lia. lia.
Qed.

Lemma hex_encode_no_bom (s : string) : starts_with_bom (Ref.hex_encode s) = false.
Proof.
  destruct s as [|c s]; [reflexivity|].
  cbn [Ref.hex_encode]. apply no_bom_head. unfold Ref.hex_digit.
  assert (Hc : (Ascii.N_of_ascii c / 16 < 16)%N).
  { apply N.Div0.div_lt_upper_bound. pose proof (Ascii.N_ascii_bounded c). lia. }
  destruct (N.ltb (Ascii.N_of_ascii c / 16) 10); rewrite N_of_small_ascii by lia; lia.
Qed.

Lemma ref_decode_encode (s : string) :
  starts_with_bom s = false -> Ref.decode_text (list_byte_of_string s) = s.
Proof.
  intros H. unfold Ref.decode_text. rewrite string_of_list_byte_of_string, H.
  reflexivity.
Qed.

Lemma ref_laws : PlatformLaws Ref.platform.
Proof.
  constructor.
  - intros s. apply hex_decode_encode.
  - intros s. apply ref_decode_encode.
  - intros v. apply stringify_no_bom.
  - intros s. apply hex_encode_no_bom.
  - intros k iv pt. apply ref_decrypt_encrypt.
Qed.



(* ===================================================================== *)
(** ** The statements at work on the reference platform *)
(* ===================================================================== *)

Import Examples.

(** "ping" is none of the labels of the switch. *)
Lemma ping_unrecognized name : In name recognized_types -> VStr "ping" <> VStr name.
Proof.
  intros H. repeat (destruct H as [<-|H]; [discriminate|]). destruct H.
Qed.

(** C7: the run [self_announce_events] of a creator ends with the creator's
    own id in the registry: a connected peer has sent
    { type: 'announce', from: "room", payload: { pubKey: "0a" } }, and the
    'announce' case, which unlike the 'peerList' and 'newPeer' cases does
    not compare the id with my.peerId, has called connectToPeer("room"). *)
Theorem registry_holds_own_identity :
  reachable creator_opts creator_after_self_announce
  /\ no_self_entry creator_with_j1
  /\ map_get (connMap creator_after_self_announce)
             (my_peerId creator_after_self_announce) = Some 1.
Proof.
  split; [exists self_announce_events; unfold creator_after_self_announce; reflexivity|].
  split; vm_compute; reflexivity.
Qed.

(** Against C3 as stated: in the reachable state [creator_knows_j1] the
    connection 0 has the remote key imported from "0a"; after the record
    [second_key] on the same connection it has the one imported from "05". *)
Lemma remote_key_is_replaced :
  ~ (forall (s : @state Ref.platform) (conn : nat) (msg : value) k,
       reachable creator_opts s ->
       conn_theirPub (conn_of s conn) = Some k ->
       conn_theirPub (conn_of (post (handleProtocolMessage conn msg) s) conn) = Some k).
Proof.
  intros H.
  assert (Hr : reachable creator_opts creator_knows_j1)
    by (exists first_key_events; unfold creator_knows_j1; reflexivity).
  assert (H1 : conn_theirPub (conn_of creator_knows_j1 0) = Some 10%N)
    by (vm_compute; reflexivity).
  assert (H2 : conn_theirPub
                 (conn_of (post (handleProtocolMessage 0 second_key) creator_knows_j1) 0)
               = Some 5%N)
    by (vm_compute; reflexivity).
  specialize (H creator_knows_j1 0 second_key 10%N Hr H1).
  rewrite H2 in H. discriminate H.
Qed.

(** Against C4 as stated: a joiner to which "room:j2" opens a channel does
    not have "room:j2" in its registry once the channel is open. *)
Lemma joiner_leaves_inbound_unregistered :
  ~ (forall opts (s : @state Ref.platform) (remote : string),
       reachable opts s ->
       map_get (connMap (fst (run [PeerConnection remote; ConnOpen (length (conns s))] s)))
               (VStr remote)
       = Some (length (conns s))).
Proof.
  intros H.
  assert (Hr : reachable joiner_opts joiner_up)
    by (exists joiner_up_events; unfold joiner_up; reflexivity).
  assert (H1 : map_get (connMap (fst (run [PeerConnection "room:j2";
                                            ConnOpen (length (conns joiner_up))]
                                           joiner_up)))
                      (VStr "room:j2") = None)
    by (vm_compute; reflexivity).
  specialize (H joiner_opts joiner_up "room:j2" Hr).
  rewrite H1 in H. discriminate H.
Qed.

(** C1, on the code: when the announce of the joiner "room:j1" arrives, the
    joiner is in the creator's registry and its channel is open, as for
    every joiner that announces on its own channel.  The handler returns
    and sends nothing.  It adds to that connection the listener that would
    send the room key record and then the list of the peers; the one 'open'
    event of the connection has passed, and whatever happens afterwards it
    does not come again, so the two records are never sent. *)
Theorem announced_joiner_gets_no_room_key :
  map_get (connMap creator_knows_j1) (VStr "room:j1") = Some 0
  /\ conn_open (conn_of creator_knows_j1 0) = true
  /\ roomKey creator_knows_j1 = Some creator_room_key
  /\ result (handle joiner_announce) creator_knows_j1 = Returned tt
  /\ effects (handle joiner_announce) creator_knows_j1 = []
  /\ conn_onOpen (conn_of creator_after_announce 0)
     = [OpenIncoming; OpenDeliver (encryptAESGCM 2 derived_key "6b01")]
  /\ effects (run_open_listener 0 (OpenDeliver (encryptAESGCM 2 derived_key "6b01")))
             creator_after_announce
     = [ConnSend 0
          (@JSON_stringify Ref.platform
             (VObj [("type", VStr "roomKey"); ("from", VStr "room");
                    ("payload", encryptAESGCM 2 derived_key "6b01")]));
        ConnSend 0
          (@JSON_stringify Ref.platform
             (VObj [("type", VStr "peerList"); ("from", VStr "room");
                    ("payload", VArr [VStr "room:j1"; VStr "room"])]))]
  /\ (forall evs,
        handle (ConnOpen 0) (fst (run evs creator_after_announce))
        = (Returned tt, fst (run evs creator_after_announce), [])).
Proof.
  split; [vm_compute; reflexivity|].
  split; [vm_compute; reflexivity|].
  split; [reflexivity|].
  split; [vm_compute; reflexivity|].
  split; [vm_compute; reflexivity|].
  split; [vm_compute; reflexivity|].
  split; [vm_compute; reflexivity|].
  intros evs. apply (@open_never_again Ref.platform 0 creator_after_announce).
  vm_compute. reflexivity.
Qed.

(** C8, the claim as it stands: the empty string authenticates under no
    key, and load gives the empty log for it without any error. *)
Lemma empty_blob_loads_as_empty_log :
  empty_slot !! storage_key "room" = Some ""
  /\ ~ @authenticates Ref.platform local_key ""
  /\ load "room" local_key empty_slot = inr (VArr []).
Proof.
  split; [reflexivity|]. split.
  - intros (obj & iv & ct & pt & Hparse & _).
    assert (E : @JSON_parse Ref.platform "" = None) by (vm_compute; reflexivity).
    rewrite E in Hparse. discriminate.
  - reflexivity.
Qed.

(** C9, the claim as it stands: the datum "null" is no wire record, and it is
    dropped without any diagnostic. *)
Lemma null_datum_gets_no_diagnostic :
  @JSON_parse Ref.platform "null" = Some VNull
  /\ conn_onData (conn_of creator_with_j1 0) = [DataIncoming]
  /\ effects (handle (ConnData 0 (RawText "null"))) creator_with_j1 = [].
Proof.
  split; [vm_compute; reflexivity|].
  split; [vm_compute; reflexivity|].
  vm_compute. reflexivity.
Qed.

(** An envelope from the creator at a joiner that has no room key yet. *)
Lemma envelope_before_roomKey_is_dropped_witness :
  handleProtocolMessage 0 (msg_from "room" (enc_object "00" "00")) joiner_up
  = (Returned tt, joiner_up, [no_roomKey_diagnostic]).
Proof.
  exact (proj1 (@envelope_before_roomKey_is_dropped Ref.platform 0
                  (RawObj [("type", VStr "msg"); ("from", VStr "room");
                           ("ts", VNum 1700000000123);
                           ("payload", enc_object "00" "00")])
                  (msg_from "room" (enc_object "00" "00")) joiner_up
                  eq_refl eq_refl eq_refl)).
Defined.

(** The second publicKey record of "room:j1" at [creator_knows_j1]. *)
Lemma remote_key_follows_latest_publicKey_witness :
  conn_theirPub (conn_of (post (handleProtocolMessage 0 second_key) creator_knows_j1) 0)
  = Some 5%N.
Proof.
  refine (proj1 (@remote_key_follows_latest_publicKey Ref.platform 0 second_key
                   creator_knows_j1)
                (VStr "05") 5%N eq_refl eq_refl eq_refl _).
  vm_compute. constructor.
Defined.

(** The channel that "room:j2" opens to the joiner [joiner_up]. *)
Lemma inbound_connection_by_role_witness :
  connMap (fst (run [PeerConnection "room:j2"; ConnOpen (length (conns joiner_up))]
                    joiner_up))
  = connMap joiner_up.
Proof.
  exact (proj1 (proj2 (proj2 (@inbound_connection_by_role Ref.platform "room:j2" joiner_up)
                             eq_refl))).
Defined.

(** sendPlain at a creator that holds the room key and has the channel of
    "room:j1" open. *)
Lemma sendPlain_spec_witness :
  sendPlain hello creator_with_j1
  = (Returned tt, after_send creator_with_j1,
     map (fun e =>
            ConnSend (snd e)
              (@JSON_stringify Ref.platform
                 (envelope_of creator_with_j1 creator_room_key hello)))
         (open_entries creator_with_j1)
     ++ loopback creator_with_j1 hello).
Proof.
  exact (proj1 (proj1 (proj2 (@sendPlain_spec Ref.platform hello creator_with_j1))
                      creator_room_key eq_refl)).
Defined.

(** connectToPeer("room:j1") at a creator that is connected to it. *)
Lemma connect_and_announce_idempotent_witness :
  connectToPeer (VStr "room:j1") creator_with_j1 = (Returned 0, creator_with_j1, []).
Proof.
  exact (proj1 (@connect_and_announce_idempotent Ref.platform (VStr "room:j1") 0
                  creator_with_j1 eq_refl)
               eq_refl).
Defined.

(** The log [a_log], saved and loaded under [local_key]. *)
Lemma history_load_spec_witness :
  load "room" local_key (save 0 "room" a_log local_key ∅) = inr a_log.
Proof.
  refine (proj1 (proj2 (@history_load_spec Ref.platform ref_laws "room" ∅))
                0 a_log local_key _ _ _).
  - vm_compute. reflexivity.
  - vm_compute. reflexivity.
  - vm_compute. discriminate.
Defined.

(** A datum that is not JSON, on the connection 0 of [creator_with_j1]. *)
Lemma unparseable_datum_is_dropped_witness :
  handle (ConnData 0 (RawText "{not json")) creator_with_j1
  = (Returned tt, creator_with_j1, [parse_diagnostic]).
Proof.
  exact (proj1 (proj2 (proj2 (proj1 (@unparseable_datum_is_dropped Ref.platform 0
                                        "{not json" creator_with_j1)
                                     eq_refl)))).
Defined.

(** A record of type "ping" at [creator_with_j1]. *)
Lemma unrecognized_type_changes_nothing_witness :
  handleProtocolMessage 0 (ping_from "room:j1") creator_with_j1
  = (Returned tt, creator_with_j1, []).
Proof.
  exact (proj1 (@unrecognized_type_changes_nothing Ref.platform 0 (ping_from "room:j1")
                  (VStr "ping") creator_with_j1 eq_refl ping_unrecognized)).
Defined.

(** The handshake end to end: the roomKey record that the creator's listener
    sends for "room:j1" is, at a joiner that has learned the creator's key,
    decrypted into the creator's room key. *)
Example room_key_reaches_joiner :
  option_map Ref.key_raw
    (roomKey (fst (run [ConnData 0 (wire (publicKey_from "room" "0a" "alice"));
                        ConnData 0 (wire (VObj
                          [("type", VStr "roomKey"); ("from", VStr "room");
                           ("payload",
                            enc_object "020202020202020202020202"
                                       "366230310b020202020202020202020202")]))]
                       joiner_up)))
  = option_map Ref.key_raw (roomKey creator_with_j1).
Proof. vm_compute. reflexivity. Qed.

(* ===================================================================== *)
(** ** The further statements at work on the reference platform *)
(* ===================================================================== *)

(** A record of "room:j1" that is not a roomKey record, at [creator_with_j1]. *)
Lemma room_key_written_by_roomKey_record_only_witness :
  roomKey (post (handleProtocolMessage 0 (publicKey_from "room:j1" "0a" "bob"))
                creator_with_j1)
  = roomKey creator_with_j1.
Proof.
  refine (proj1 (@room_key_written_by_roomKey_record_only Ref.platform)
                0 (publicKey_from "room:j1" "0a" "bob") creator_with_j1 _).
  vm_compute. discriminate.
Defined.

(** The channel of "room:j1" closes at [creator_with_j1]. *)
Lemma close_unregisters_peer_witness :
  connMap (post (handle (ConnClose 0)) creator_with_j1)
  = map_delete (connMap creator_with_j1) (conn_peer (conn_of creator_with_j1 0)).
Proof.
  refine (proj1 (proj2 (@close_unregisters_peer Ref.platform 0 creator_with_j1 _ _))).
  - vm_compute. auto.
  - vm_compute. discriminate.
Defined.

(** announceToCreator at a joiner whose channel to the creator is open. *)
Lemma announceToCreator_spec_witness :
  announceToCreator joiner_up
  = (Returned tt, joiner_up, [ConnSend 0 (@JSON_stringify Ref.platform (announce_record joiner_up))]).
Proof.
  exact (proj1 (@announceToCreator_spec Ref.platform joiner_up) 0 eq_refl eq_refl).
Defined.

(** init with the role 'create'. *)
Lemma init_identity_witness :
  isCreator creator_start = true
  /\ my_peerId creator_start = VStr (opt_roomId creator_opts).
Proof.
  exact (proj1 (@init_identity Ref.platform creator_opts) eq_refl).
Defined.

(** The 'open' of a joiner's peer. *)
Lemma peer_open_by_role_witness :
  roomKey (post (handle PeerOpen) joiner_start) = roomKey joiner_start.
Proof.
  exact (proj2 (proj2 (@peer_open_by_role Ref.platform joiner_start)) eq_refl).
Defined.

(** An announce of "room:j2" at the joiner [joiner_up]. *)
Lemma announce_is_for_the_creator_witness :
  handleProtocolMessage 0 (announce_from "room:j2" "0a") joiner_up
  = (Returned tt, joiner_up, []).
Proof.
  exact (proj1 (@announce_is_for_the_creator Ref.platform 0
                  (announce_from "room:j2" "0a") joiner_up)
               eq_refl eq_refl).
Defined.

(** The datum "null" on the connection 0 of [creator_with_j1]. *)
Lemma falsy_datum_is_dropped_silently_witness :
  handle (ConnData 0 (RawText "null")) creator_with_j1
  = (Returned tt, creator_with_j1, []).
Proof.
  exact (proj2 (@falsy_datum_is_dropped_silently Ref.platform 0 "null" VNull
                  creator_with_j1 eq_refl eq_refl)).
Defined.

(** A publicKey record whose key is not Base64, at [creator_with_j1]. *)
Lemma identity_announce_outcomes_witness :
  handleProtocolMessage 0 (publicKey_from "room:j1" "zz" "bob") creator_with_j1
  = (Thrown CryptoError, creator_with_j1, []).
Proof.
  exact (proj1 (proj1 (@identity_announce_outcomes Ref.platform 0
                         (publicKey_from "room:j1" "zz" "bob") (VStr "zz")
                         creator_with_j1 eq_refl eq_refl)
                      eq_refl)).
Defined.

(** connectToPeer("room") at a joiner that has just been initialized. *)
Lemma outbound_open_sends_identity_witness :
  result (connectToPeer (VStr "room")) joiner_start
  = Returned (length (conns joiner_start)).
Proof.
  exact (proj1 (@outbound_open_sends_identity Ref.platform (VStr "room")
                  joiner_start eq_refl eq_refl eq_refl)).
Defined.

(** A roomKey record at a joiner that has no remote key yet. *)
Lemma roomKey_record_all_or_nothing_witness :
  (exists k, handleProtocolMessage 0 (roomKey_from "room" (enc_object "00" "00")) joiner_up
             = (Returned tt, with_roomKey (Some k) joiner_up, [roomKey_imported]))
  \/ handleProtocolMessage 0 (roomKey_from "room" (enc_object "00" "00")) joiner_up
     = (Returned tt, joiner_up, [roomKey_failed]).
Proof.
  exact (@roomKey_record_all_or_nothing Ref.platform 0
           (roomKey_from "room" (enc_object "00" "00")) joiner_up eq_refl).
Defined.



(** The roomKey record that the creator's listener sends to "room:j1", at
    the joiner that has the creator's public key. *)
Lemma room_key_handshake_witness :
  handleProtocolMessage 0 (roomKey_from "room" (encryptAESGCM 2 derived_key "6b01"))
    joiner_knows_creator
  = (Returned tt,
     with_roomKey (Some joiner_room_key)
                  joiner_knows_creator,
     [roomKey_imported]).
Proof.
  exact (@room_key_handshake Ref.platform ref_laws 0 2
           (roomKey_from "room" (encryptAESGCM 2 derived_key "6b01"))
           creator_room_key
           derived_key
           joiner_room_key
           [x6b; x01] 3%N 10%N "6b01" joiner_knows_creator
           eq_refl eq_refl eq_refl eq_refl eq_refl eq_refl eq_refl).
Defined.

(** An envelope at the joiner [joiner_up]. *)
Lemma envelope_handling_is_contained_witness :
  result (handleProtocolMessage 0 (msg_from "room" (enc_object "00" "00"))) joiner_up
  = Returned tt.
Proof.
  exact (proj1 (@envelope_handling_is_contained Ref.platform 0
                  (msg_from "room" (enc_object "00" "00")) joiner_up eq_refl)).
Defined.

(** A joiner's "hello" at a joiner that holds the same room key. *)
Lemma chat_round_trip_witness :
  handleProtocolMessage 0
    (envelope_of joiner_with_key
       joiner_room_key hello)
    joiner_with_key
  = (Returned tt,
     after_delivery (VNum (@Date_now Ref.platform (ticks joiner_with_key))) joiner_with_key,
     [CallOnMessage
        (delivered (my_peerId joiner_with_key)
           (delivery_ts (VNum (@Date_now Ref.platform (ticks joiner_with_key))) joiner_with_key)
           hello)]).
Proof.
  refine (proj1 (proj2 (@chat_round_trip Ref.platform ref_laws hello
                          joiner_room_key
                          0 joiner_with_key joiner_with_key
                          eq_refl eq_refl eq_refl _))).
  vm_compute. reflexivity.
Defined.

(** A newPeer record without payload at [joiner_up]. *)
Lemma record_without_payload_witness :
  handleProtocolMessage 0 newPeer_without_payload joiner_up
  = (Thrown TypeError, joiner_up, []).
Proof.
  exact (proj1 (proj2 (@record_without_payload Ref.platform 0 newPeer_without_payload
                         joiner_up eq_refl))
               eq_refl).
Defined.

(** The list of the creator, of "room:j2" and of the joiner itself, at
    [joiner_up]. *)
Lemma peerList_connects_to_listed_witness :
  result (handleProtocolMessage 0
            (peerList_from "room" [VStr "room"; VStr "room:j2"; my_peerId joiner_up]))
         joiner_up
  = Returned tt
  /\ map_has (connMap (post (handleProtocolMessage 0
                               (peerList_from "room"
                                  [VStr "room"; VStr "room:j2"; my_peerId joiner_up]))
                            joiner_up))
             (VStr "room:j2")
     = true.
Proof.
  destruct (@peerList_connects_to_listed Ref.platform 0
              (peerList_from "room" [VStr "room"; VStr "room:j2"; my_peerId joiner_up])
              [VStr "room"; VStr "room:j2"; my_peerId joiner_up] joiner_up
              eq_refl eq_refl eq_refl)
    as (H1 & H2 & _).
  - intros pid [<-|[<-|[<-|[]]]]; reflexivity.
  - split; [exact H1|]. apply H2.
    + right. left. reflexivity.
    + vm_compute. discriminate.
Defined.

(** A newPeer record for "room:j2" at [joiner_up]. *)
Lemma introductions_keep_own_id_out_witness :
  no_self_entry (post (handleProtocolMessage 0 (newPeer_from "room" "room:j2")) joiner_up)
  /\ ~ In (PeerConnect (my_peerId joiner_up))
          (effects (handleProtocolMessage 0 (newPeer_from "room" "room:j2")) joiner_up).
Proof.
  exact (@introductions_keep_own_id_out Ref.platform 0 (newPeer_from "room" "room:j2")
           joiner_up eq_refl eq_refl (or_intror eq_refl)).
Defined.

(** sendPlain at a creator with two joiners, after the channel of the
    first has closed: the envelope goes to the second. *)
Lemma closed_connection_gets_no_envelope_witness :
  In (ConnSend 1
        (@JSON_stringify Ref.platform
           (envelope_of (post (handle (ConnClose 0)) creator_with_two)
              creator_room_key hello)))
     (effects (sendPlain hello) (post (handle (ConnClose 0)) creator_with_two))
  /\ 1 <> 0.
Proof.
  assert (H : In (ConnSend 1
                    (@JSON_stringify Ref.platform
                       (envelope_of (post (handle (ConnClose 0)) creator_with_two)
                          creator_room_key
                          hello)))
                 (effects (sendPlain hello) (post (handle (ConnClose 0)) creator_with_two))).
  { vm_compute. left. reflexivity. }
  split; [exact H|].
  exact (@closed_connection_gets_no_envelope Ref.platform 0 1 hello _ creator_with_two H).
Defined.

(** Base64 of two bytes, on the reference platform. *)
Lemma crypto_round_trips_witness :
  @b642ab Ref.platform (VStr (@ab2b64 Ref.platform [x01; x02])) = Some [x01; x02].
Proof.
  exact (proj1 (@crypto_round_trips Ref.platform ref_laws) [x01; x02]).
Defined.

(** Saving the log of "room" leaves the room "other" alone. *)
Lemma save_touches_one_room_witness :
  load "other" local_key (save 0 "room" a_log local_key ∅) = load "other" local_key ∅.
Proof.
  refine (proj2 (proj1 (@save_touches_one_room Ref.platform ref_laws 0 "room" a_log
                          local_key ∅)
                       "other" local_key _)).
  discriminate.
Defined.

(** The first message on the page [a_ui local_key]. *)
Lemma received_message_is_persisted_witness :
  loadHistory (with_buffer (VArr ([] ++ [a_message])) (a_ui local_key))
              (save 0 (currentRoom (a_ui local_key)) (VArr ([] ++ [a_message]))
                    local_key ∅)
  = (VArr ([] ++ [a_message]), []).
Proof.
  refine (proj2 (@received_message_is_persisted Ref.platform ref_laws 0 a_message []
                   local_key (a_ui local_key) ∅ eq_refl eq_refl _ _ _ _)).
  - intros m [<-|[]]. eexists. reflexivity.
  - vm_compute. reflexivity.
  - vm_compute. reflexivity.
  - vm_compute. discriminate.
Defined.

(** The log saved under [local_key], opened with [other_key]. *)
Lemma unreadable_history_is_replaced_witness :
  loadHistory (a_ui other_key) (save 0 "room" a_log local_key ∅)
  = (VArr [], [UiAlert bad_local_key_alert]).
Proof.
  refine (proj1 (@unreadable_history_is_replaced Ref.platform 1 a_message
                   (VStr "room:j1") other_key decrypt_failed (a_ui other_key)
                   (save 0 "room" a_log local_key ∅) eq_refl _ eq_refl)).
  vm_compute. reflexivity.
Defined.

(** The joiner of [joiner_opts]. *)
Lemma joiner_introduces_itself_witness :
  connMap (fst (run [PeerOpen; CallAnnounceToCreator; ConnOpen 0] joiner_start))
  = [(VStr (opt_roomId joiner_opts), 0)].
Proof.
  refine (proj1 (proj2 (@joiner_introduces_itself Ref.platform joiner_opts _))).
  discriminate.
Defined.

(** The introduction of "room:j2" at [joiner_up]. *)
Lemma newPeer_connects_once_witness :
  handleProtocolMessage 0 (newPeer_from "room" "room:j2") joiner_up
  = (Returned tt, connected (VStr "room:j2") joiner_up,
     PeerConnect (VStr "room:j2")
     :: participants_notice (connected (VStr "room:j2") joiner_up)).
Proof.
  refine (proj1 (proj1 (@newPeer_connects_once Ref.platform 0
                          (newPeer_from "room" "room:j2")
                          (VObj [("peerId", VStr "room:j2")]) (VStr "room:j2")
                          joiner_up eq_refl eq_refl eq_refl eq_refl eq_refl _)
                       eq_refl)).
  vm_compute. discriminate.
Defined.
